(** * polypaz: scoring, checkpoint, gamification and AI-gateway rules

    A shallow embedding of the business rules of the language-learning
    backend ([backend/learning/views.py], [backend/learning/models.py],
    [backend/accounts/models.py], [backend/utils/gemini_service.py]) and
    the properties established about them.

    Conventions of the embedding:
    - Python [int] is [Z]; a [Decimal] or a [float] is the rational it
      denotes, in [Q] (comparisons are the exact comparisons of Python;
      the rounding of a quotient to the context precision is not
      represented);
    - a [str] is a [string] whose characters are the code points
      U+0000..U+00FF, with the whitespace, case and word-character tables
      Python has on that range;
    - a dict (JSON object) is a [gmap]; [None] is [option];
    - a model instance is a record, a [save()] is explicit state passing;
    - an exception that reaches the caller is the [Raise] result. *)

From Stdlib Require Import ZArith QArith Qround Lqa Bool List String Ascii.
From Stdlib Require Import Lia Sorted.
From stdpp Require Import gmap strings pretty.

Local Open Scope Z_scope.

(** ** Strings: [str.strip], [str.lower], [str.startswith], slices *)

Module Str.

(** [str.isspace] on U+0000..U+00FF: TAB..CR, FS..US, SPACE, NEL, NBSP. *)
Definition isspace (c : ascii) : bool :=
  let n := nat_of_ascii c in
  ((9 <=? n) && (n <=? 13) || (28 <=? n) && (n <=? 32)
   || (n =? 133) || (n =? 160))%nat.

(** [str.lower] on one code point: A..Z, and U+00C0..U+00DE but U+00D7. *)
Definition lower_char (c : ascii) : ascii :=
  let n := nat_of_ascii c in
  if ((65 <=? n) && (n <=? 90)
      || (192 <=? n) && (n <=? 222) && negb (n =? 215))%nat
  then ascii_of_nat (n + 32) else c.

Fixpoint lower (s : string) : string :=
  match s with
  | EmptyString => EmptyString
  | String c s' => String (lower_char c) (lower s')
  end.

Fixpoint lstrip (s : string) : string :=
  match s with
  | EmptyString => EmptyString
  | String c s' => if isspace c then lstrip s' else s
  end.

Fixpoint rstrip (s : string) : string :=
  match s with
  | EmptyString => EmptyString
  | String c s' =>
      match rstrip s' with
      | EmptyString => if isspace c then EmptyString else String c EmptyString
      | r => String c r
      end
  end.

Definition strip (s : string) : string := rstrip (lstrip s).

(** Python truthiness of a [str]: [not s] is [is_empty s]. *)
Definition is_empty (s : string) : bool :=
  match s with EmptyString => true | _ => false end.

Definition eqb (s t : string) : bool := bool_decide (s = t).

Fixpoint startswith (s p : string) : bool :=
  match p, s with
  | EmptyString, _ => true
  | String _ _, EmptyString => false
  | String a p', String b s' => bool_decide (a = b) && startswith s' p'
  end.

(** [s[n:]] *)
Fixpoint drop (n : nat) (s : string) : string :=
  match n, s with
  | O, _ => s
  | S _, EmptyString => EmptyString
  | S n', String _ s' => drop n' s'
  end.

(** [s[:n]] for [0 <= n] *)
Fixpoint take (n : nat) (s : string) : string :=
  match n, s with
  | O, _ => EmptyString
  | S _, EmptyString => EmptyString
  | S n', String c s' => String c (take n' s')
  end.

Definition endswith (s p : string) : bool :=
  (String.length p <=? String.length s)%nat
  && eqb (drop (String.length s - String.length p) s) p.

(** [s[:-n]] for [0 < n]: all but the last [n] characters. *)
Definition drop_end (n : nat) (s : string) : string :=
  take (String.length s - n) s.

(** [p in s] for two strings: [p] occurs in [s]. *)
Fixpoint contains (s p : string) : bool :=
  startswith s p
  || match s with
     | EmptyString => false
     | String _ s' => contains s' p
     end.

Definition newline : string := String (ascii_of_nat 10) EmptyString.

(** A string that [lstrip] leaves as it is. *)
Definition no_leading_space (s : string) : Prop :=
  match s with
  | EmptyString => True
  | String c _ => isspace c = false
  end.

End Str.

(** ** CEFR bands and the percentage table *)

Inductive cefr : Set := A0 | A1 | A2 | B1 | B2 | C1 | C2.

Definition cefr_rank (l : cefr) : nat :=
  match l with
  | A0 => 0 | A1 => 1 | A2 => 2 | B1 => 3 | B2 => 4 | C1 => 5 | C2 => 6
  end%nat.

Definition cefr_le (a b : cefr) : Prop := (cefr_rank a <= cefr_rank b)%nat.

Module PlacementTestItem.

(** [learning.models.PlacementTestItem]: the fields the scorer reads.
    [item_type] is a free [CharField]; [difficulty_weight] is a
    [DecimalField] without validators, so any sign is storable. *)
Record t : Type := {
  id : Z;
  item_type : string;
  correct_answer : string;
  difficulty_weight : Q
}.

End PlacementTestItem.

Module PlacementTestSubmitView.

Definition _validate_answer (user_answer correct_answer item_type : string)
  : bool :=
  if Str.is_empty user_answer then false
  else if Str.eqb item_type "multiple_choice" then
    Str.eqb user_answer correct_answer
  else if Str.eqb item_type "cloze" then
    Str.eqb user_answer correct_answer
  else if Str.eqb item_type "translation" then
    Str.eqb user_answer correct_answer
  else false.

Definition _percentage_to_cefr (percentage : Q) : cefr :=
  if Qle_bool percentage 20 then A0
  else if Qle_bool percentage 35 then A1
  else if Qle_bool percentage 50 then A2
  else if Qle_bool percentage 65 then B1
  else if Qle_bool percentage 80 then B2
  else if Qle_bool percentage 90 then C1
  else C2.

(** [answers.get(str(item.id), '').strip().lower()]; [answers] maps the
    identifier of an item, as text, to the raw answer text. *)
Definition user_answer_of (answers : gmap string string)
  (item : PlacementTestItem.t) : string :=
  Str.lower (Str.strip
    (default ""%string (answers !! pretty (PlacementTestItem.id item)))).

(** [item.correct_answer.strip().lower()] *)
Definition correct_answer_of (item : PlacementTestItem.t) : string :=
  Str.lower (Str.strip (PlacementTestItem.correct_answer item)).

(** One iteration of the [for item in items] loop on [(score, max_score)]. *)
Definition score_item (answers : gmap string string) (acc : Q * Q)
  (item : PlacementTestItem.t) : Q * Q :=
  let '(score, max_score) := acc in
  let item_weight := PlacementTestItem.difficulty_weight item in
  let max_score := (max_score + item_weight)%Q in
  if _validate_answer (user_answer_of answers item) (correct_answer_of item)
       (PlacementTestItem.item_type item)
  then ((score + item_weight)%Q, max_score)
  else (score, max_score).

(** [(score / max_score * 100) if max_score > 0 else Decimal('0.0')],
    as the rational the expression denotes. *)
Definition percentage_of (score max_score : Q) : Q :=
  if negb (Qle_bool max_score 0) then (score / max_score * 100)%Q else 0%Q.

Definition _calculate_results (items : list PlacementTestItem.t)
  (answers : gmap string string) : Q * Q * cefr :=
  let '(score, max_score) := fold_left (score_item answers) items (0%Q, 0%Q) in
  let percentage := percentage_of score max_score in
  let estimated_level := _percentage_to_cefr percentage in
  (score, max_score, estimated_level).

(** The quantities the scoring contract is stated with: the total weight
    [W] of the items, whether the placement evaluator accepts the answer
    given to an item (a missing key being the empty answer), and the
    weight of the accepted items. *)
Definition total_weight (items : list PlacementTestItem.t) : Q :=
  fold_right Qplus 0%Q (map PlacementTestItem.difficulty_weight items).

Definition accepted (answers : gmap string string)
  (item : PlacementTestItem.t) : bool :=
  _validate_answer (user_answer_of answers item) (correct_answer_of item)
    (PlacementTestItem.item_type item).

Definition accepted_weight (answers : gmap string string)
  (items : list PlacementTestItem.t) : Q :=
  fold_right Qplus 0%Q
    (map PlacementTestItem.difficulty_weight
       (List.filter (accepted answers) items)).

End PlacementTestSubmitView.

(** ** [difflib.SequenceMatcher(None, a, b).ratio()]

    The standard-library matcher the task evaluator calls, with no junk
    predicate and the default [autojunk]: [__chain_b], then
    [find_longest_match] applied recursively to the pieces left and right
    of each match ([get_matching_blocks]); [ratio] only needs the total
    size of the blocks. *)

Module SequenceMatcher.

Section Matcher.

Variables a b : list ascii.

Definition item (s : list ascii) (i : Z) : ascii :=
  nth (Z.to_nat i) s Ascii.zero.

Definition len (s : list ascii) : Z := Z.of_nat (length s).

(** [b2j[elt]]: the positions of [elt] in [b], increasing. *)
Definition b2j_all : gmap ascii (list Z) :=
  fold_left
    (fun (m : gmap ascii (list Z)) '(i, elt) =>
       <[elt := default [] (m !! elt) ++ [Z.of_nat i]]> m)
    (imap pair b) ∅.

(** Elements occurring more than [n // 100 + 1] times are purged when
    [n >= 200]. *)
Definition b2j : gmap ascii (list Z) :=
  let n := length b in
  if (200 <=? n)%nat then
    let ntest := (n / 100 + 1)%nat in
    filter (fun kv : ascii * list Z => (length kv.2 <= ntest)%nat) b2j_all
  else b2j_all.

(** The inner loop [for j in b2j.get(a[i], nothing)] of
    [find_longest_match]; the state is [(besti, bestj, bestsize)] and
    [newj2len]. *)
Fixpoint scan_row (i blo bhi : Z) (j2len : gmap Z Z) (idxs : list Z)
  (st : Z * Z * Z * gmap Z Z) : Z * Z * Z * gmap Z Z :=
  match idxs with
  | [] => st
  | j :: rest =>
      if j <? blo then scan_row i blo bhi j2len rest st
      else if bhi <=? j then st
      else
        let '(besti, bestj, bestsize, newj2len) := st in
        let k := default 0 (j2len !! (j - 1)) + 1 in
        let newj2len := <[j := k]> newj2len in
        if bestsize <? k
        then scan_row i blo bhi j2len rest (i - k + 1, j - k + 1, k, newj2len)
        else scan_row i blo bhi j2len rest (besti, bestj, bestsize, newj2len)
  end.

(** The outer loop [for i in range(alo, ahi)]. *)
Definition scan (alo ahi blo bhi : Z) : Z * Z * Z :=
  fst (fold_left
         (fun (st : Z * Z * Z * gmap Z Z) (i : Z) =>
            let '(best, j2len) := st in
            scan_row i blo bhi j2len (default [] (b2j !! item a i)) (best, ∅))
         (seqZ alo (ahi - alo)) ((alo, blo, 0), ∅)).

(** [while besti > alo and bestj > blo and a[besti-1] == b[bestj-1]];
    the loop runs at most [besti - alo] times, which is the fuel. *)
Fixpoint extend_left (fuel : nat) (alo blo besti bestj bestsize : Z)
  : Z * Z * Z :=
  match fuel with
  | O => (besti, bestj, bestsize)
  | S fuel' =>
      if (alo <? besti) && (blo <? bestj)
         && bool_decide (item a (besti - 1) = item b (bestj - 1))
      then extend_left fuel' alo blo (besti - 1) (bestj - 1) (bestsize + 1)
      else (besti, bestj, bestsize)
  end.

(** [while besti+bestsize < ahi and bestj+bestsize < bhi and
    a[besti+bestsize] == b[bestj+bestsize]]; at most
    [ahi - (besti + bestsize)] times. *)
Fixpoint extend_right (fuel : nat) (ahi bhi besti bestj bestsize : Z)
  : Z * Z * Z :=
  match fuel with
  | O => (besti, bestj, bestsize)
  | S fuel' =>
      if (besti + bestsize <? ahi) && (bestj + bestsize <? bhi)
         && bool_decide
              (item a (besti + bestsize) = item b (bestj + bestsize))
      then extend_right fuel' ahi bhi besti bestj (bestsize + 1)
      else (besti, bestj, bestsize)
  end.

Definition find_longest_match (alo ahi blo bhi : Z) : Z * Z * Z :=
  let '(besti, bestj, bestsize) := scan alo ahi blo bhi in
  let '(besti, bestj, bestsize) :=
    extend_left (Z.to_nat (besti - alo)) alo blo besti bestj bestsize in
  extend_right (Z.to_nat (ahi - (besti + bestsize))) ahi bhi
    besti bestj bestsize.

(** [sum(triple[-1] for triple in self.get_matching_blocks())]: every
    match found splits its range in two; a range of [a] is split at most
    as many times as it has elements, which bounds the fuel. *)
Fixpoint matching (fuel : nat) (alo ahi blo bhi : Z) : Z :=
  match fuel with
  | O => 0
  | S fuel' =>
      let '(i, j, k) := find_longest_match alo ahi blo bhi in
      if k =? 0 then 0
      else
        k
        + (if (alo <? i) && (blo <? j)
           then matching fuel' alo i blo j else 0)
        + (if (i + k <? ahi) && (j + k <? bhi)
           then matching fuel' (i + k) ahi (j + k) bhi else 0)
  end.

Definition matches : Z := matching (S (length a)) 0 (len a) 0 (len b).

(** [_calculate_ratio(matches, len(a) + len(b))] *)
Definition ratio : Q :=
  let length := len a + len b in
  if length =? 0 then 1%Q
  else (2 * inject_Z matches / inject_Z length)%Q.

End Matcher.

(** The invariant of the scan: after [rows] rows from [alo], the best
    match lies in those rows and no run recorded in [j2len] is longer. *)
Definition best_within (alo rows : Z) (best : Z * Z * Z) : Prop :=
  let '(besti, bestj, bestsize) := best in
  alo <= besti /\ 0 <= bestsize /\ besti + bestsize <= alo + rows.

Definition runs_within (rows : Z) (j2len : gmap Z Z) : Prop :=
  forall j v, j2len !! j = Some v -> 1 <= v <= rows.

End SequenceMatcher.

(** ** The task-attempt evaluator *)

Module TaskTemplate.

(** [learning.models.TaskTemplate]: the fields the rules read. *)
Record t : Type := {
  task_type : string;
  correct_answer : string;
  difficulty_level : Z
}.

End TaskTemplate.

Module TaskAttemptSubmitSerializer.

(** [user_answer = serializers.CharField(max_length=1000)], with the
    defaults of the field ([trim_whitespace], no [allow_blank]): the value
    is trimmed; a blank value, one of more than 1000 characters or one
    with a null character is a validation error ([None]). *)
Definition validate (data : string) : option string :=
  let value := Str.strip data in
  if Str.is_empty value then None
  else if (1000 <? String.length value)%nat then None
  else if Str.contains value (String Ascii.zero EmptyString) then None
  else Some value.

End TaskAttemptSubmitSerializer.

Module TaskAttemptView.

(** [\w] of [re] on U+0000..U+00FF: alphanumerics and the underscore. *)
Definition is_word (c : ascii) : bool :=
  let n := nat_of_ascii c in
  ((48 <=? n) && (n <=? 57) || (65 <=? n) && (n <=? 90) || (n =? 95)
   || (97 <=? n) && (n <=? 122) || (n =? 170) || (n =? 178) || (n =? 179)
   || (n =? 181) || (n =? 185) || (n =? 186) || (188 <=? n) && (n <=? 190)
   || (192 <=? n) && (n <=? 214) || (216 <=? n) && (n <=? 246)
   || (248 <=? n))%nat.

(** [re.sub(r'[^\w\s]', '', s)] *)
Fixpoint strip_punctuation (s : string) : string :=
  match s with
  | EmptyString => EmptyString
  | String c s' =>
      if is_word c || Str.isspace c then String c (strip_punctuation s')
      else strip_punctuation s'
  end.

Definition _evaluate_answer (user_answer correct_answer task_type : string)
  : bool :=
  let user_answer := Str.strip (Str.lower user_answer) in
  let correct_answer := Str.strip (Str.lower correct_answer) in
  if Str.eqb task_type "multiple_choice" then
    Str.eqb user_answer correct_answer
  else if Str.eqb task_type "fill_blank" then
    let user_answer := strip_punctuation user_answer in
    let correct_answer := strip_punctuation correct_answer in
    Str.eqb user_answer correct_answer
  else if Str.eqb task_type "translation" then
    let similarity :=
      SequenceMatcher.ratio (list_ascii_of_string user_answer)
        (list_ascii_of_string correct_answer) in
    Qle_bool (8 # 10) similarity
  else false.

(** The evaluation step of [post]: the request is refused ([None]) when
    the serializer rejects it, and otherwise the validated answer,
    trimmed, is evaluated against the template. *)
Definition post_is_correct (data : string) (task_template : TaskTemplate.t)
  : option bool :=
  match TaskAttemptSubmitSerializer.validate data with
  | None => None
  | Some validated =>
      let user_answer := Str.strip validated in
      Some (_evaluate_answer user_answer
              (TaskTemplate.correct_answer task_template)
              (TaskTemplate.task_type task_template))
  end.

End TaskAttemptView.

(** ** Gamification ledger *)

Module GamificationProfile.

(** [learning.models.GamificationProfile]: the XP and streak fields. A
    date is its day number ([date.toordinal]), so that [(d1 - d2).days] is
    [d1 - d2]; the history is keyed by the date whose ISO string is the
    JSON key. The timestamps [created_at] and [updated_at] are not
    represented: [updated_at] is an [auto_now] field, which every [save]
    of a profile refreshes. *)
Record t : Type := {
  user : Z;
  total_xp : Z;
  current_streak_days : Z;
  longest_streak_days : Z;
  last_activity_date : option Z;
  xp_history : gmap Z Z
}.

(** The row [get_or_create] inserts: every field at its default. *)
Definition create (user : Z) : t :=
  {| user := user; total_xp := 0; current_streak_days := 0;
     longest_streak_days := 0; last_activity_date := None;
     xp_history := ∅ |}.

Definition set_total_xp (v : Z) (self : t) : t :=
  {| user := user self; total_xp := v;
     current_streak_days := current_streak_days self;
     longest_streak_days := longest_streak_days self;
     last_activity_date := last_activity_date self;
     xp_history := xp_history self |}.

Definition set_current_streak_days (v : Z) (self : t) : t :=
  {| user := user self; total_xp := total_xp self;
     current_streak_days := v;
     longest_streak_days := longest_streak_days self;
     last_activity_date := last_activity_date self;
     xp_history := xp_history self |}.

Definition set_longest_streak_days (v : Z) (self : t) : t :=
  {| user := user self; total_xp := total_xp self;
     current_streak_days := current_streak_days self;
     longest_streak_days := v;
     last_activity_date := last_activity_date self;
     xp_history := xp_history self |}.

Definition set_last_activity_date (v : option Z) (self : t) : t :=
  {| user := user self; total_xp := total_xp self;
     current_streak_days := current_streak_days self;
     longest_streak_days := longest_streak_days self;
     last_activity_date := v;
     xp_history := xp_history self |}.

Definition set_xp_history (v : gmap Z Z) (self : t) : t :=
  {| user := user self; total_xp := total_xp self;
     current_streak_days := current_streak_days self;
     longest_streak_days := longest_streak_days self;
     last_activity_date := last_activity_date self;
     xp_history := v |}.

(** [update_streak(self, activity_date=None)]; [today] is [date.today()].
    The result is the profile that [self.save()] stores. *)
Definition update_streak (today : Z) (activity_date : option Z) (self : t)
  : t :=
  let activity_date := default today activity_date in
  let self :=
    match last_activity_date self with
    | None =>
        set_longest_streak_days 1 (set_current_streak_days 1 self)
    | Some last =>
        let days_diff := activity_date - last in
        if days_diff =? 0 then self
        else if days_diff =? 1 then
          let self :=
            set_current_streak_days (current_streak_days self + 1) self in
          if longest_streak_days self <? current_streak_days self
          then set_longest_streak_days (current_streak_days self) self
          else self
        else set_current_streak_days 1 self
    end in
  set_last_activity_date (Some activity_date) self.

(** [add_xp(self, xp_amount, date=None)] *)
Definition add_xp (today : Z) (xp_amount : Z) (date : option Z) (self : t)
  : t :=
  let date := default today date in
  let self := set_total_xp (total_xp self + xp_amount) self in
  match xp_history self !! date with
  | Some xp => set_xp_history (<[date := xp + xp_amount]> (xp_history self)) self
  | None => set_xp_history (<[date := xp_amount]> (xp_history self)) self
  end.

(** [GamificationProfile.objects.get_or_create(user=user)] on the table
    of profiles, one per user. *)
Definition get_or_create (user : Z) (table : gmap Z t) : t * gmap Z t :=
  match table !! user with
  | Some profile => (profile, table)
  | None => (create user, <[user := create user]> table)
  end.

(** The streak after a run of activity dates, most recent last, with the
    current streak observed after each one. *)
Fixpoint run_streak (dates : list Z) (self : t) : list Z * t :=
  match dates with
  | [] => ([], self)
  | d :: dates' =>
      let self := update_streak d (Some d) self in
      let '(seen, final) := run_streak dates' self in
      (current_streak_days self :: seen, final)
  end.

End GamificationProfile.

(** ** Checkpoint evaluator *)

Module LearningModule.

(** What the queries of [Module.check_completion] return for the module
    and its roadmap's user: whether the module has task templates, the
    number of templates with a completed instance, the number of correct
    attempts and the number of attempts. *)
Record stats : Type := {
  tasks_exist : bool;
  completed_tasks : Z;
  correct_count : Z;
  total_attempts : Z
}.

(** [learning.models.Module]: the checkpoint fields. The criteria are a
    JSON value: [None], or an object of numbers. *)
Record t : Type := {
  checkpoint_criteria : option (gmap string Q);
  is_completed : bool;
  completed_at : option Z
}.

(** [not criteria] *)
Definition no_criteria (criteria : option (gmap string Q)) : bool :=
  match criteria with
  | None => true
  | Some c => bool_decide (c = ∅)
  end.

Definition get (criteria : option (gmap string Q)) (key : string)
  (dflt : Q) : Q :=
  match criteria with
  | None => dflt
  | Some c => default dflt (c !! key)
  end.

(** [(correct_count / total_attempts * 100) if total_attempts > 0 else 0] *)
Definition accuracy_of (db : stats) : Q :=
  if 0 <? total_attempts db
  then (inject_Z (correct_count db) / inject_Z (total_attempts db) * 100)%Q
  else 0%Q.

(** The test of the last [if]: both thresholds are reached. *)
Definition criteria_met (criteria : option (gmap string Q)) (db : stats)
  : bool :=
  let accuracy := accuracy_of db in
  let min_accuracy := (get criteria "accuracy_threshold" 85 * 100)%Q in
  let min_tasks := get criteria "min_tasks_completed" 10 in
  Qle_bool min_tasks (inject_Z (completed_tasks db))
  && Qle_bool min_accuracy accuracy.

(** [check_completion(self)]: the returned flag and the module as saved;
    [now] is [timezone.now()]. *)
Definition check_completion (db : stats) (now : Z) (self : t) : bool * t :=
  let criteria := checkpoint_criteria self in
  if no_criteria criteria then (false, self)
  else if negb (tasks_exist db) then (false, self)
  else if criteria_met criteria db then
    if negb (is_completed self) then
      (true, {| checkpoint_criteria := checkpoint_criteria self;
                is_completed := true;
                completed_at := Some now |})
    else (true, self)
  else (false, self).

End LearningModule.

(** ** Task attempts *)

Module TaskInstance.

Record t : Type := {
  user : Z;
  template : TaskTemplate.t;
  status : string;
  attempts_count : Z;
  best_attempt_correct : bool
}.

End TaskInstance.

Module TaskAttempt.

(** [learning.models.TaskAttempt]; [task_instance] is the instance object
    the attempt holds, which [save] mutates and stores. *)
Record t : Type := {
  task_instance : TaskInstance.t;
  user_answer : string;
  is_correct : bool;
  xp_gained : Z
}.

(** [TaskAttempt.objects.create(task_instance=..., user_answer=...,
    is_correct=..., feedback=...)] before its [save]: [xp_gained] is at
    its default 0. *)
Definition new (task_instance : TaskInstance.t) (user_answer : string)
  (is_correct : bool) : t :=
  {| task_instance := task_instance; user_answer := user_answer;
     is_correct := is_correct; xp_gained := 0 |}.

(** The first block of [save]: the XP of the attempt. *)
Definition compute_xp (self : t) : t :=
  if is_correct self && (xp_gained self =? 0) then
    let difficulty_multiplier :=
      TaskTemplate.difficulty_level
        (TaskInstance.template (task_instance self)) in
    let base_xp := 10 in
    {| task_instance := task_instance self; user_answer := user_answer self;
       is_correct := is_correct self;
       xp_gained := base_xp * difficulty_multiplier |}
  else self.

(** The second block: the owning instance. *)
Definition update_instance (self : t) : TaskInstance.t :=
  let instance := task_instance self in
  let attempts_count := TaskInstance.attempts_count instance + 1 in
  if is_correct self then
    {| TaskInstance.user := TaskInstance.user instance;
       TaskInstance.template := TaskInstance.template instance;
       TaskInstance.status := "completed";
       TaskInstance.attempts_count := attempts_count;
       TaskInstance.best_attempt_correct := true |}
  else
    {| TaskInstance.user := TaskInstance.user instance;
       TaskInstance.template := TaskInstance.template instance;
       TaskInstance.status := "in_progress";
       TaskInstance.attempts_count := attempts_count;
       TaskInstance.best_attempt_correct :=
         TaskInstance.best_attempt_correct instance |}.

(** [save(self)]: the attempt (with its instance) and the table of
    gamification profiles after the call. *)
Definition save (self : t) (profiles : gmap Z GamificationProfile.t)
  : t * gmap Z GamificationProfile.t :=
  let self := compute_xp self in
  let instance := update_instance self in
  let self :=
    {| task_instance := instance; user_answer := user_answer self;
       is_correct := is_correct self; xp_gained := xp_gained self |} in
  if is_correct self then
    let '(profile, profiles) :=
      GamificationProfile.get_or_create (TaskInstance.user instance)
        profiles in
    let profile :=
      GamificationProfile.set_total_xp
        (GamificationProfile.total_xp profile + xp_gained self) profile in
    (self, <[TaskInstance.user instance := profile]> profiles)
  else (self, profiles).

(** [n] calls of [save] on the same attempt object. *)
Fixpoint save_times (n : nat) (self : t)
  (profiles : gmap Z GamificationProfile.t)
  : t * gmap Z GamificationProfile.t :=
  match n with
  | O => (self, profiles)
  | S n' =>
      let '(self, profiles) := save self profiles in
      save_times n' self profiles
  end.

(** The total XP of a user in the table; no row is no XP yet. *)
Definition total_xp_of (user : Z) (profiles : gmap Z GamificationProfile.t)
  : Z :=
  match profiles !! user with
  | Some profile => GamificationProfile.total_xp profile
  | None => 0
  end.

End TaskAttempt.

(** ** Exceptions *)

(** Exceptions, and the outcome of a call that may raise. *)
Inductive exn : Set :=
| TypeError
| OtherException (name : string).

Inductive result (A : Type) : Type :=
| Return (a : A)
| Raise (e : exn).

Arguments Return {A} a.
Arguments Raise {A} e.

(** ** Placement results and the user profile *)

Module UserProfile.

(** [accounts.models.UserProfile]; [updated_at] is an [auto_now] field. *)
Record t : Type := {
  user : Z;
  target_language : string;
  native_language : string;
  current_cefr_level : cefr;
  learning_preferences : gmap string string;
  created_at : Z;
  updated_at : Z
}.

(** [profile.save()] at time [now]: the [auto_now] field is refreshed. *)
Definition save (now : Z) (self : t) : t :=
  {| user := user self; target_language := target_language self;
     native_language := native_language self;
     current_cefr_level := current_cefr_level self;
     learning_preferences := learning_preferences self;
     created_at := created_at self; updated_at := now |}.

Definition set_current_cefr_level (level : cefr) (self : t) : t :=
  {| user := user self; target_language := target_language self;
     native_language := native_language self;
     current_cefr_level := level;
     learning_preferences := learning_preferences self;
     created_at := created_at self; updated_at := updated_at self |}.

End UserProfile.

Module PlacementTestResult.

(** [learning.models.PlacementTestResult]; [test_language] is
    [self.test.language], [percentage] is unset until [save] fills it. *)
Record t : Type := {
  user : Z;
  test_language : string;
  score : Q;
  max_score : Q;
  percentage : option Q;
  estimated_cefr_level : cefr;
  answers : gmap string string
}.

Section Save.

(** What the database keeps of a value written to one of the three
    [DecimalField(max_digits=5, decimal_places=2)] columns: the value
    rounded to two decimal places, or the error it raises for a value
    that does not fit. The rounding is the one of the database backend,
    which is configured outside the sources. *)
Variable store : Q -> result Q.

(** [save(self)] at time [now], with [profile] the profile of
    [self.user]: the row as stored and the profile afterwards, or the
    exception of [super().save()], which is raised before the profile is
    read, so that the profile is then as it was. The insertion fails on a
    value that the columns do not take and, the column [percentage]
    being [NOT NULL], on a percentage that is still unset. *)
Definition save (now : Z) (self : t) (profile : UserProfile.t)
  : result (t * UserProfile.t) :=
  let self :=
    if negb (Qle_bool (max_score self) 0) then
      {| user := user self; test_language := test_language self;
         score := score self; max_score := max_score self;
         percentage := Some (score self / max_score self * 100)%Q;
         estimated_cefr_level := estimated_cefr_level self;
         answers := answers self |}
    else self in
  match store (score self) with
  | Raise e => Raise e
  | Return stored_score =>
      match store (max_score self) with
      | Raise e => Raise e
      | Return stored_max_score =>
          match percentage self with
          | None => Raise (OtherException "IntegrityError")
          | Some percentage =>
              match store percentage with
              | Raise e => Raise e
              | Return stored_percentage =>
                  let row :=
                    {| user := user self;
                       test_language := test_language self;
                       score := stored_score;
                       max_score := stored_max_score;
                       percentage := Some stored_percentage;
                       estimated_cefr_level := estimated_cefr_level self;
                       answers := answers self |} in
                  if Str.eqb (UserProfile.target_language profile)
                       (test_language self)
                  then
                    let profile :=
                      UserProfile.set_current_cefr_level
                        (estimated_cefr_level self) profile in
                    Return (row, UserProfile.save now profile)
                  else Return (row, profile)
              end
          end
      end
  end.

End Save.

End PlacementTestResult.

(** ** The AI content gateway *)

(** A parsed JSON document, as [json.loads] returns it. *)
#[warnings="-register-all"] Inductive json : Type :=
| JNull
| JBool (b : bool)
| JNumber (q : Q)
| JString (s : string)
| JArray (items : list json)
| JObject (members : list (string * json)).

(** A keyword argument: a JSON-serialisable value or any other object. *)
Inductive pyvalue : Type :=
| PyJson (v : json)
| PyObject.

Module GeminiService.

Record t : Type := {
  api_key : option string
}.

(** [self.model] is set by [__init__] exactly when the key is truthy. *)
Definition has_model (self : t) : bool :=
  match api_key self with
  | Some key => negb (Str.is_empty key)
  | None => false
  end.

Definition truthy (s : option string) : option string :=
  match s with
  | Some s' => if Str.is_empty s' then None else Some s'
  | None => None
  end.

Section Gateway.

(** The collaborators of the gateway: [hash] and [json.dumps] of the
    Python runtime, [json.loads], which returns the document or raises
    ([JSONDecodeError] on a text that is not JSON, and other exceptions,
    such as [RecursionError] on a document nested too deeply), and the
    provider, that is [model.generate_content(prompt, **kwargs).text] for
    the model built with the given system instruction, which returns the
    text or raises. *)
Variable hash : string -> Z.
Variable json_dumps : gmap string json -> string.
Variable json_loads : string -> result json.
Variable provider :
  option string -> gmap string pyvalue -> string -> result string.

Definition as_json (v : pyvalue) : option json :=
  match v with
  | PyJson j => Some j
  | PyObject => None
  end.

(** [json.dumps(params or {})]: a [TypeError] on an object that is not
    serialisable. *)
Definition dumps (params : gmap string pyvalue) : result string :=
  if bool_decide (map_Forall (fun _ v => is_Some (as_json v)) params)
  then Return (json_dumps (omap as_json params))
  else Raise TypeError.

Definition _get_cache_key (prompt : string) (params : gmap string pyvalue)
  : result string :=
  match dumps params with
  | Raise e => Raise e
  | Return dumped =>
      Return ("gemini:" +:+ pretty (hash (prompt +:+ ":" +:+ dumped)))
  end.

(** [generate_content(self, prompt, system_instruction, cache_timeout,
    use_cache, **kwargs)]: what the caller gets and the cache afterwards.
    [cache] is what the cache holds when the call is made, and the result
    what it holds when the call returns; between two calls the cache
    loses the entries whose timeout has passed or which it evicts, so
    that the cache of a later call is for its caller to give. The cache
    is taken to answer: a failure of [cache.get], which is called outside
    the [try], is not represented. *)
Definition generate_content (self : t) (prompt : string)
  (system_instruction : option string) (use_cache : bool)
  (kwargs : gmap string pyvalue) (cache : gmap string string)
  : result (option string) * gmap string string :=
  if negb (has_model self) then (Return None, cache)
  else
    match _get_cache_key prompt kwargs with
    | Raise e => (Raise e, cache)
    | Return cache_key =>
        match (if use_cache then truthy (cache !! cache_key) else None) with
        | Some cached_response => (Return (Some cached_response), cache)
        | None =>
            match provider (truthy system_instruction) kwargs prompt with
            | Return result_text =>
                (Return (Some result_text),
                 if use_cache && negb (Str.is_empty result_text)
                 then <[cache_key := result_text]> cache
                 else cache)
            | Raise _ => (Return None, cache)
            end
        end
    end.

(** [f"{prompt}\n\nPlease respond with valid JSON only."] *)
Definition json_prompt (prompt : string) : string :=
  prompt +:+ Str.newline +:+ Str.newline
  +:+ "Please respond with valid JSON only.".

(** The three [if]s that remove the markdown fences. *)
Definition strip_fences (response_text : string) : string :=
  let response_text := Str.strip response_text in
  let response_text :=
    if Str.startswith response_text "```json"
    then Str.drop 7 response_text else response_text in
  let response_text :=
    if Str.startswith response_text "```"
    then Str.drop 3 response_text else response_text in
  if Str.endswith response_text "```"
  then Str.drop_end 3 response_text else response_text.

(** [key in data]: membership of a key in a dict, of an element in a
    list, of a substring in a string; a [TypeError] on the other values. *)
Definition contains_key (key : string) (data : json) : result bool :=
  match data with
  | JObject members =>
      Return (existsb (fun kv : string * json => Str.eqb kv.1 key) members)
  | JArray items =>
      Return (existsb
                (fun v => match v with
                          | JString s => Str.eqb s key
                          | _ => false
                          end) items)
  | JString s => Return (Str.contains s key)
  | JNull | JBool _ | JNumber _ => Raise TypeError
  end.

(** [for key in schema['required']: if key not in data: return False] *)
Fixpoint check_required (keys : list string) (data : json) : result bool :=
  match keys with
  | [] => Return true
  | key :: keys' =>
      match contains_key key data with
      | Raise e => Raise e
      | Return false => Return false
      | Return true => check_required keys' data
      end
  end.

Definition _validate_schema (data : json) (schema : gmap string (list string))
  : result bool :=
  match schema !! "required"%string with
  | Some keys => check_required keys data
  | None => Return true
  end.

(** [except json.JSONDecodeError]: the exceptions that the handler of
    [generate_json] catches. *)
Definition is_decode_error (e : exn) : bool :=
  match e with
  | OtherException name => Str.eqb name "JSONDecodeError"
  | TypeError => false
  end.

(** [generate_json(self, prompt, system_instruction, schema,
    cache_timeout, use_cache)]; only [JSONDecodeError] is caught. *)
Definition generate_json (self : t) (prompt : string)
  (system_instruction : option string)
  (schema : option (gmap string (list string))) (use_cache : bool)
  (cache : gmap string string)
  : result (option json) * gmap string string :=
  let '(response, cache) :=
    generate_content self (json_prompt prompt) system_instruction use_cache
      ∅ cache in
  match response with
  | Raise e => (Raise e, cache)
  | Return None => (Return None, cache)
  | Return (Some response_text) =>
      if Str.is_empty response_text then (Return None, cache)
      else
        match json_loads (Str.strip (strip_fences response_text)) with
        | Raise e =>
            if is_decode_error e then (Return None, cache)
            else (Raise e, cache)
        | Return parsed =>
            match schema with
            | Some sch =>
                if bool_decide (sch = ∅) then (Return (Some parsed), cache)
                else
                  match _validate_schema parsed sch with
                  | Raise e => (Raise e, cache)
                  | Return false => (Return None, cache)
                  | Return true => (Return (Some parsed), cache)
                  end
            | None => (Return (Some parsed), cache)
            end
        end
  end.

End Gateway.

End GeminiService.

(** ** Sample inputs *)

Module Samples.

Definition item (id : Z) (kind answer : string) (weight : Q)
  : PlacementTestItem.t :=
  {| PlacementTestItem.id := id; PlacementTestItem.item_type := kind;
     PlacementTestItem.correct_answer := answer;
     PlacementTestItem.difficulty_weight := weight |}.

(** Three items of weights 0.5, 1.0 and 1.5; the answers get the first
    and the third right ("  Paris " normalises to "paris"). *)
Definition three_items : list PlacementTestItem.t :=
  [item 1 "multiple_choice" "Paris" (1 # 2);
   item 2 "cloze" "went" 1;
   item 3 "translation" "Hello" (3 # 2)].

Definition three_answers : gmap string string :=
  {["1" := "  Paris "; "2" := "gone"; "3" := "HELLO"]}%string.

(** A module with thresholds 80 % and one task, first with one task
    completed at the first attempt, then after a wrong attempt at the same
    task (its instance is back to in progress, one attempt in two is
    correct). *)
Definition module_criteria : gmap string Q :=
  {["accuracy_threshold" := (8 # 10)%Q; "min_tasks_completed" := 1%Q]}.

Definition open_module : LearningModule.t :=
  {| LearningModule.checkpoint_criteria := Some module_criteria;
     LearningModule.is_completed := false;
     LearningModule.completed_at := None |}.

Definition stats_done : LearningModule.stats :=
  {| LearningModule.tasks_exist := true;
     LearningModule.completed_tasks := 1;
     LearningModule.correct_count := 1;
     LearningModule.total_attempts := 1 |}.

Definition stats_after_miss : LearningModule.stats :=
  {| LearningModule.tasks_exist := true;
     LearningModule.completed_tasks := 0;
     LearningModule.correct_count := 1;
     LearningModule.total_attempts := 2 |}.

(** A module without task templates whose thresholds are both zero. *)
Definition zero_criteria : gmap string Q :=
  {["accuracy_threshold" := 0%Q; "min_tasks_completed" := 0%Q]}.

Definition zero_module : LearningModule.t :=
  {| LearningModule.checkpoint_criteria := Some zero_criteria;
     LearningModule.is_completed := false;
     LearningModule.completed_at := None |}.

Definition stats_no_tasks : LearningModule.stats :=
  {| LearningModule.tasks_exist := false;
     LearningModule.completed_tasks := 0;
     LearningModule.correct_count := 0;
     LearningModule.total_attempts := 0 |}.

(** A medium task of user 7, and a correct attempt at it. *)
Definition medium_template : TaskTemplate.t :=
  {| TaskTemplate.task_type := "translation";
     TaskTemplate.correct_answer := "paris";
     TaskTemplate.difficulty_level := 2 |}.

Definition fresh_instance : TaskInstance.t :=
  {| TaskInstance.user := 7; TaskInstance.template := medium_template;
     TaskInstance.status := "in_progress";
     TaskInstance.attempts_count := 0;
     TaskInstance.best_attempt_correct := false |}.

Definition correct_attempt : TaskAttempt.t :=
  TaskAttempt.new fresh_instance "paris" true.

(** The same attempt once saved (20 XP), held with a template whose
    difficulty has been raised to 3 in the meantime. *)
Definition hard_template : TaskTemplate.t :=
  {| TaskTemplate.task_type := "translation";
     TaskTemplate.correct_answer := "paris";
     TaskTemplate.difficulty_level := 3 |}.

Definition saved_attempt_retuned : TaskAttempt.t :=
  {| TaskAttempt.task_instance :=
       {| TaskInstance.user := 7; TaskInstance.template := hard_template;
          TaskInstance.status := "completed";
          TaskInstance.attempts_count := 1;
          TaskInstance.best_attempt_correct := true |};
     TaskAttempt.user_answer := "paris";
     TaskAttempt.is_correct := true;
     TaskAttempt.xp_gained := 20 |}.

(** A learner of Spanish at A1 whose profile was last saved at time 0,
    and a Spanish placement result estimated at B1. *)
Definition spanish_learner : UserProfile.t :=
  {| UserProfile.user := 7; UserProfile.target_language := "spanish";
     UserProfile.native_language := "english";
     UserProfile.current_cefr_level := A1;
     UserProfile.learning_preferences := ∅;
     UserProfile.created_at := 0; UserProfile.updated_at := 0 |}.

Definition result_in (language : string) : PlacementTestResult.t :=
  {| PlacementTestResult.user := 7;
     PlacementTestResult.test_language := language;
     PlacementTestResult.score := 6; PlacementTestResult.max_score := 10;
     PlacementTestResult.percentage := None;
     PlacementTestResult.estimated_cefr_level := B1;
     PlacementTestResult.answers := ∅ |}.

(** A database that keeps a value of a [DecimalField(5, 2)] column the
    way [format_number] of Django prepares it for SQLite and MySQL:
    quantized to two places, a half going to the even neighbour, and
    refused with [InvalidOperation] when the result has more than five
    digits. *)
Definition round_half_even (q : Q) : Z :=
  let whole := Qfloor q in
  match (q - inject_Z whole ?= 1 # 2)%Q with
  | Lt => whole
  | Eq => if Z.even whole then whole else whole + 1
  | Gt => whole + 1
  end.

Definition format_number (q : Q) : result Q :=
  let hundredths := round_half_even (q * 100) in
  if Z.abs hundredths <? 100000 then Return (inject_Z hundredths / 100)%Q
  else Raise (OtherException "InvalidOperation").

(** A test of eight items of weight 2.33 and one of weight 1.33, of which
    the first three are answered correctly: 6.99 of 19.97, that is
    35.0025... per cent. *)
Definition nine_items : list PlacementTestItem.t :=
  map (fun id => item id "multiple_choice" "a" (233 # 100)) (seqZ 1 8)
  ++ [item 9 "multiple_choice" "a" (133 # 100)].

Definition nine_answers : gmap string string :=
  {["1" := "a"; "2" := "a"; "3" := "a"]}%string.

(** A provider that answers every prompt with the bare number 42 in a
    fenced block, and stand-ins for the runtime functions: a parser that
    knows the document 42, a constant hash and serialisation. *)
Definition fenced_42 : string :=
  "```json" +:+ Str.newline +:+ "42" +:+ Str.newline +:+ "```".

Definition provider_42 (system_instruction : option string)
  (kwargs : gmap string pyvalue) (prompt : string) : result string :=
  Return fenced_42.

Definition loads_42 (text : string) : result json :=
  if Str.eqb text "42" then Return (JNumber 42)
  else Raise (OtherException "JSONDecodeError").

Definition hash_0 (text : string) : Z := 0.

Definition dumps_braces (params : gmap string json) : string := "{}".

Definition configured : GeminiService.t :=
  {| GeminiService.api_key := Some "key"%string |}.

(** The schema of the roadmap flow. *)
Definition roadmap_schema : gmap string (list string) :=
  {["required"%string := ["modules"%string]]}.

End Samples.

(** ** The matcher: the range of [b] *)

Module MatcherBounds.

(** The counterpart of [best_within] for the columns: the best match and
    every run recorded in [j2len] lie in [blo, bhi). *)
Definition best_in_b (blo bhi : Z) (best : Z * Z * Z) : Prop :=
  let '(besti, bestj, bestsize) := best in
  blo <= bestj /\ bestj + bestsize <= bhi.

Definition runs_in_b (blo bhi : Z) (j2len : gmap Z Z) : Prop :=
  forall j v, j2len !! j = Some v -> blo <= j < bhi /\ v <= j - blo + 1.

End MatcherBounds.

(** ** The result record of a submission *)

Module PlacementSubmission.

(** The object [PlacementTestSubmitView.post] hands to
    [PlacementTestResult.objects.create]: the three values of
    [_calculate_results] and the answers; [percentage] is not given. *)
Definition new_result (user : Z) (test_language : string)
  (results : Q * Q * cefr) (answers : gmap string string)
  : PlacementTestResult.t :=
  let '(score, max_score, estimated_level) := results in
  {| PlacementTestResult.user := user;
     PlacementTestResult.test_language := test_language;
     PlacementTestResult.score := score;
     PlacementTestResult.max_score := max_score;
     PlacementTestResult.percentage := None;
     PlacementTestResult.estimated_cefr_level := estimated_level;
     PlacementTestResult.answers := answers |}.

End PlacementSubmission.

(** ** Activity over several days *)

Module Activity.

Import GamificationProfile.

(** [n] consecutive dates from [d] on. *)
Fixpoint consecutive (d : Z) (n : nat) : list Z :=
  match n with
  | O => []
  | S n' => d :: consecutive (d + 1) n'
  end.

(** The largest of the observed streaks. *)
Definition peak (seen : list Z) : Z := fold_right Z.max 0 seen.

(** The sum of the daily amounts of an XP history. *)
Definition history_total (history : gmap Z Z) : Z :=
  map_fold (fun _ xp acc => xp + acc) 0 history.

(** A sequence of [add_xp] calls on one profile, each with its amount and
    its [date] argument. *)
Definition add_xp_all (today : Z) (calls : list (Z * option Z)) (self : t)
  : t :=
  fold_left (fun self call => add_xp today call.1 call.2 self) calls self.

(** The amounts of the calls that fall on [date]. *)
Definition amount_on (today date : Z) (calls : list (Z * option Z)) : Z :=
  fold_right
    (fun call acc =>
       if default today call.2 =? date then call.1 + acc else acc)
    0 calls.

End Activity.

(** ** Submitting an attempt *)

Module TaskAttemptPost.

(** [TaskInstance.objects.get_or_create(user=request.user,
    template=task_template, defaults={'status': 'in_progress'})], where
    [existing] is the row of this user and template, if there is one. *)
Definition get_or_create_instance (user : Z) (task_template : TaskTemplate.t)
  (existing : option TaskInstance.t) : TaskInstance.t :=
  default
    {| TaskInstance.user := user;
       TaskInstance.template := task_template;
       TaskInstance.status := "in_progress";
       TaskInstance.attempts_count := 0;
       TaskInstance.best_attempt_correct := false |}
    existing.

(** [TaskAttemptView.post] for the template found, on the task instance
    and the gamification profiles: [None] is the 400 response of the
    serializer, and otherwise the attempt created and the profiles after
    the streak update. The feedback and the progress snapshot are not
    represented. *)
Definition post (today user : Z) (task_template : TaskTemplate.t)
  (data : string) (existing : option TaskInstance.t)
  (profiles : gmap Z GamificationProfile.t)
  : option (TaskAttempt.t * gmap Z GamificationProfile.t) :=
  match TaskAttemptSubmitSerializer.validate data with
  | None => None
  | Some validated =>
      let user_answer := Str.strip validated in
      let task_instance :=
        get_or_create_instance user task_template existing in
      let is_correct :=
        TaskAttemptView._evaluate_answer user_answer
          (TaskTemplate.correct_answer task_template)
          (TaskTemplate.task_type task_template) in
      let '(attempt, profiles) :=
        TaskAttempt.save (TaskAttempt.new task_instance user_answer is_correct)
          profiles in
      let '(gamification_profile, profiles) :=
        GamificationProfile.get_or_create user profiles in
      let gamification_profile :=
        GamificationProfile.update_streak today (Some today)
          gamification_profile in
      Some (attempt, <[user := gamification_profile]> profiles)
  end.

End TaskAttemptPost.

(** ** Roadmaps *)

Module Roadmap.

(** [learning.models.Roadmap]: the fields [save] and the views read. *)
Record t : Type := {
  user : Z;
  language : string;
  cefr_level : cefr;
  generated_by_ai : bool;
  is_active : bool
}.

Definition set_is_active (v : bool) (self : t) : t :=
  {| user := user self; language := language self;
     cefr_level := cefr_level self;
     generated_by_ai := generated_by_ai self; is_active := v |}.

(** [save(self)] on the table of roadmaps, keyed by [pk]; [pk] is the key
    of [self], which for a new roadmap is the unused key that the
    database assigns. The [filter(...).exclude(pk=self.pk).update(...)]
    rewrites the other active rows of the user and language. *)
Definition save (pk : Z) (self : t) (table : gmap Z t) : gmap Z t :=
  let table :=
    if is_active self then
      map_imap
        (fun k row =>
           Some (if bool_decide (user row = user self)
                    && Str.eqb (language row) (language self)
                    && is_active row
                    && negb (bool_decide (k = pk))
                 then set_is_active false row
                 else row))
        table
    else table in
  <[pk := self]> table.

(** [Roadmap.objects.create(user=..., language=..., cefr_level=...,
    generated_by_ai=..., roadmap_data=..., is_active=True)] of
    [RoadmapGenerateView.post]; the modules are not represented. *)
Definition create (pk user : Z) (language : string) (cefr_level : cefr)
  (generated_by_ai : bool) (table : gmap Z t) : gmap Z t :=
  save pk
    {| user := user; language := language; cefr_level := cefr_level;
       generated_by_ai := generated_by_ai; is_active := true |}
    table.

End Roadmap.

Module RoadmapCurrentView.

(** [get(self, request)]: [Roadmap.objects.get(user=request.user,
    is_active=True)] returns the only matching row, raises [DoesNotExist]
    when there is none, which the view answers by a 404 ([None]), and
    raises [MultipleObjectsReturned] otherwise, which the view does not
    catch. *)
Definition get (request_user : Z) (table : gmap Z Roadmap.t)
  : result (option Roadmap.t) :=
  match
    map_to_list
      (filter
         (fun kr : Z * Roadmap.t =>
            Roadmap.user kr.2 = request_user /\ Roadmap.is_active kr.2 = true)
         table)
  with
  | [] => Return None
  | [kr] => Return (Some kr.2)
  | _ :: _ :: _ => Raise (OtherException "MultipleObjectsReturned")
  end.

End RoadmapCurrentView.

(** ** Dialogue sessions *)

Module DialogueTurn.

Record t : Type := {
  turn_number : Z;
  user_message : string;
  ai_response : string
}.

End DialogueTurn.

Module DialogueSession.

(** [learning.models.DialogueSession], with [max_turns] for
    [self.scenario.max_turns] and [turns] for the related turns, in the
    order of their creation. *)
Record t : Type := {
  user : Z;
  max_turns : Z;
  status : string;
  turn_count : Z;
  ended_at : option Z;
  turns : list DialogueTurn.t
}.

(** [DialogueSession.objects.create(user=..., scenario=...,
    status='active')] of [DialogueSessionStartView.post]. *)
Definition create (user max_turns : Z) : t :=
  {| user := user; max_turns := max_turns; status := "active";
     turn_count := 0; ended_at := None; turns := [] |}.

Definition can_add_turn (self : t) : bool :=
  Str.eqb (status self) "active" && (turn_count self <? max_turns self).

(** [complete_session(self)] at time [now]. *)
Definition complete_session (now : Z) (self : t) : t :=
  {| user := user self; max_turns := max_turns self; status := "completed";
     ended_at := Some now; turn_count := turn_count self;
     turns := turns self |}.

End DialogueSession.

Module DialogueTurnSave.

(** [DialogueTurn.save(self)] for a new turn of [session]: the insertion
    fails on a turn number that the session has already
    ([unique_together]); then the count of the session is taken from its
    turns, and the session is completed when the count has reached the
    maximum. The result is the session as saved. *)
Definition save (now : Z) (self : DialogueTurn.t) (session : DialogueSession.t)
  : result DialogueSession.t :=
  if existsb
       (fun turn =>
          DialogueTurn.turn_number turn =? DialogueTurn.turn_number self)
       (DialogueSession.turns session)
  then Raise (OtherException "IntegrityError")
  else
    let turns := DialogueSession.turns session ++ [self] in
    let session :=
      {| DialogueSession.user := DialogueSession.user session;
         DialogueSession.max_turns := DialogueSession.max_turns session;
         DialogueSession.status := DialogueSession.status session;
         DialogueSession.turn_count := Z.of_nat (length turns);
         DialogueSession.ended_at := DialogueSession.ended_at session;
         DialogueSession.turns := turns |} in
    if DialogueSession.max_turns session <=? DialogueSession.turn_count session
    then Return (DialogueSession.complete_session now session)
    else Return session.

End DialogueTurnSave.

Module DialogueMessageSerializer.

(** [message = serializers.CharField(max_length=5000)], with the defaults
    of the field, as for [TaskAttemptSubmitSerializer]. *)
Definition validate (data : string) : option string :=
  let value := Str.strip data in
  if Str.is_empty value then None
  else if (5000 <? String.length value)%nat then None
  else if Str.contains value (String Ascii.zero EmptyString) then None
  else Some value.

End DialogueMessageSerializer.

(** The responses of the dialogue views. *)
Inductive dialogue_response : Type :=
| Created (turn : DialogueTurn.t)
| Ended
| BadRequest
| NotFound.

Module DialogueMessageView.

(** [post(self, request, pk)] on the session of key [pk]. [reply] is the
    outcome of the part between the validation and the creation of the
    turn: the text taken from [generate_dialogue_response] (or the
    fallback text), or the exception that this part raises, which the
    view does not catch. The response and the session afterwards. *)
Definition post (now request_user : Z) (data : string) (reply : result string)
  (session : DialogueSession.t)
  : result dialogue_response * DialogueSession.t :=
  if negb (bool_decide (DialogueSession.user session = request_user)
           && Str.eqb (DialogueSession.status session) "active")
  then (Return NotFound, session)
  else if negb (DialogueSession.can_add_turn session)
  then (Return BadRequest, session)
  else
    match DialogueMessageSerializer.validate data with
    | None => (Return BadRequest, session)
    | Some user_message =>
        match reply with
        | Raise e => (Raise e, session)
        | Return ai_response =>
            let turn :=
              {| DialogueTurn.turn_number :=
                   DialogueSession.turn_count session + 1;
                 DialogueTurn.user_message := user_message;
                 DialogueTurn.ai_response := ai_response |} in
            match DialogueTurnSave.save now turn session with
            | Raise e => (Raise e, session)
            | Return session' => (Return (Created turn), session')
            end
        end
    end.

(** A run of messages, each with the reply it gets: the responses and the
    session at the end. *)
Fixpoint post_all (now request_user : Z)
  (messages : list (string * result string)) (session : DialogueSession.t)
  : list (result dialogue_response) * DialogueSession.t :=
  match messages with
  | [] => ([], session)
  | (data, reply) :: messages' =>
      let '(response, session) :=
        post now request_user data reply session in
      let '(responses, final) :=
        post_all now request_user messages' session in
      (response :: responses, final)
  end.

End DialogueMessageView.

Module DialogueSessionEndView.

(** [post(self, request, pk)] on the session of key [pk]. *)
Definition post (now request_user : Z) (session : DialogueSession.t)
  : dialogue_response * DialogueSession.t :=
  if negb (bool_decide (DialogueSession.user session = request_user)
           && Str.eqb (DialogueSession.status session) "active")
  then (NotFound, session)
  else (Ended, DialogueSession.complete_session now session).

End DialogueSessionEndView.

(** The turns of a session are counted and numbered from 1 in the order
    of their creation. *)
Definition numbered (session : DialogueSession.t) : Prop :=
  DialogueSession.turn_count session
  = Z.of_nat (length (DialogueSession.turns session)) /\
  map DialogueTurn.turn_number (DialogueSession.turns session)
  = map Z.of_nat (seq 1 (length (DialogueSession.turns session))).

(** ** The matcher on equal sequences *)

Module MatcherDiagonal.

Import SequenceMatcher.

Section Diagonal.

Variable a : list ascii.

(** Whether an element is a key of [b2j] of [a]; a popular element of a
    long sequence is not. *)
Definition indexed (x : ascii) : bool := bool_decide (is_Some (b2j a !! x)).

(** The number of consecutive positions, ending at [c], whose elements
    are indexed. *)
Fixpoint run (c : nat) : Z :=
  if indexed (nth c a Ascii.zero) then
    match c with
    | O => 1
    | S c' => run c' + 1
    end
  else 0.

Definition diag_run (c : Z) : Z := if c <? 0 then 0 else run (Z.to_nat c).

End Diagonal.

End MatcherDiagonal.

(** ** Several attempts at one task *)

Module TaskAttempts.

(** One attempt after the other on the same task instance, each created
    with its answer and its verdict, as [TaskAttemptView.post] does: the
    instance and the profiles at the end. *)
Fixpoint attempt_all (attempts : list (string * bool))
  (instance : TaskInstance.t) (profiles : gmap Z GamificationProfile.t)
  : TaskInstance.t * gmap Z GamificationProfile.t :=
  match attempts with
  | [] => (instance, profiles)
  | (user_answer, is_correct) :: attempts' =>
      let '(attempt, profiles) :=
        TaskAttempt.save (TaskAttempt.new instance user_answer is_correct)
          profiles in
      attempt_all attempts' (TaskAttempt.task_instance attempt) profiles
  end.

(** The number of correct attempts. *)
Definition correct_among (attempts : list (string * bool)) : Z :=
  Z.of_nat (length (List.filter snd attempts)).

End TaskAttempts.

(** * Properties *)

(** ** Rational comparisons as propositions *)

Lemma Qle_bool_true (x y : Q) : Qle_bool x y = true <-> (x <= y)%Q.
Proof. apply Qle_bool_iff. Qed.

Lemma Qle_bool_false (x y : Q) : Qle_bool x y = false <-> (y < x)%Q.
Proof.
  split; intros H.
  - apply Qnot_le_lt. intros Hle. apply Qle_bool_iff in Hle. congruence.
  - destruct (Qle_bool x y) eqn:E; [|reflexivity].
    apply Qle_bool_iff in E. lra.
Qed.

Ltac qbool :=
  repeat match goal with
  | H : Qle_bool _ _ = true |- _ => apply Qle_bool_true in H
  | H : Qle_bool _ _ = false |- _ => apply Qle_bool_false in H
  end.

Ltac band_cases :=
  unfold PlacementTestSubmitView._percentage_to_cefr;
  repeat match goal with
  | |- context [Qle_bool ?x ?y] => destruct (Qle_bool x y) eqn:?
  end; qbool.

Section Bands.

Import PlacementTestSubmitView.

Lemma percentage_to_cefr_mono (p q : Q) :
  (p <= q)%Q -> cefr_le (_percentage_to_cefr p) (_percentage_to_cefr q).
Proof.
  intros Hpq. unfold cefr_le.
  band_cases; simpl; solve [lia | lra].
Qed.

Lemma percentage_to_cefr_table (p : Q) :
  ((p <= 20)%Q -> _percentage_to_cefr p = A0) /\
  ((20 < p)%Q -> (p <= 35)%Q -> _percentage_to_cefr p = A1) /\
  ((35 < p)%Q -> (p <= 50)%Q -> _percentage_to_cefr p = A2) /\
  ((50 < p)%Q -> (p <= 65)%Q -> _percentage_to_cefr p = B1) /\
  ((65 < p)%Q -> (p <= 80)%Q -> _percentage_to_cefr p = B2) /\
  ((80 < p)%Q -> (p <= 90)%Q -> _percentage_to_cefr p = C1) /\
  ((90 < p)%Q -> _percentage_to_cefr p = C2).
Proof.
  repeat split; intros; band_cases; solve [reflexivity | lra].
Qed.

(** C1. The percentage-to-band function is non-decreasing in the
    percentage (for the order A0 < A1 < A2 < B1 < B2 < C1 < C2) and its
    bands are closed at their upper bound: at most 20 is A0, above 20 and
    at most 35 is A1, then 50 for A2, 65 for B1, 80 for B2, 90 for C1, and
    everything above 90 is C2; each bound 20, 35, 50, 65, 80, 90 falls in
    the lower band, 20.00 is A0 and 20.01 is A1. *)
Theorem percentage_to_cefr_bands :
  (forall p q : Q, (p <= q)%Q ->
     cefr_le (_percentage_to_cefr p) (_percentage_to_cefr q)) /\
  (forall p : Q,
     ((p <= 20)%Q -> _percentage_to_cefr p = A0) /\
     ((20 < p)%Q -> (p <= 35)%Q -> _percentage_to_cefr p = A1) /\
     ((35 < p)%Q -> (p <= 50)%Q -> _percentage_to_cefr p = A2) /\
     ((50 < p)%Q -> (p <= 65)%Q -> _percentage_to_cefr p = B1) /\
     ((65 < p)%Q -> (p <= 80)%Q -> _percentage_to_cefr p = B2) /\
     ((80 < p)%Q -> (p <= 90)%Q -> _percentage_to_cefr p = C1) /\
     ((90 < p)%Q -> _percentage_to_cefr p = C2)) /\
  (_percentage_to_cefr 20 = A0 /\ _percentage_to_cefr 35 = A1 /\
   _percentage_to_cefr 50 = A2 /\ _percentage_to_cefr 65 = B1 /\
   _percentage_to_cefr 80 = B2 /\ _percentage_to_cefr 90 = C1) /\
  _percentage_to_cefr (2000 # 100) = A0 /\
  _percentage_to_cefr (2001 # 100) = A1.
Proof.
  split; [exact percentage_to_cefr_mono|].
  split; [exact percentage_to_cefr_table|].
  repeat split; reflexivity.
Qed.

Lemma percentage_to_cefr_bands_witness :
  (2001 # 100 <= 35)%Q /\
  cefr_le (_percentage_to_cefr (2001 # 100)) (_percentage_to_cefr 35) /\
  _percentage_to_cefr (2001 # 100) = A1.
Proof.
  split; [lra|]. split.
  - apply (proj1 percentage_to_cefr_bands (2001 # 100)%Q 35%Q). lra.
  - apply (proj1 (proj2 (proj1 (proj2 percentage_to_cefr_bands) (2001 # 100)%Q)));
      lra.
Defined.

End Bands.

(** ** Placement scoring *)

Section PlacementScoring.

Import PlacementTestItem PlacementTestSubmitView.

Lemma fold_score_item answers items (s m : Q) :
  let '(score, max_score) := fold_left (score_item answers) items (s, m) in
  (score == s + accepted_weight answers items)%Q /\
  (max_score == m + total_weight items)%Q.
Proof.
  revert s m. induction items as [|it items IH]; intros s m.
  - simpl. unfold accepted_weight, total_weight. simpl. split; ring.
  - cbn [fold_left]. unfold score_item at 2.
    unfold accepted_weight, total_weight. cbn [List.filter map fold_right].
    fold (accepted answers it).
    destruct (accepted answers it) eqn:Hacc.
    + specialize (IH (s + difficulty_weight it)%Q (m + difficulty_weight it)%Q).
      destruct (fold_left _ _ _) as [score max_score].
      destruct IH as [IH1 IH2]. cbn [map fold_right].
      unfold accepted_weight, total_weight in *.
      split; [rewrite IH1|rewrite IH2]; ring.
    + specialize (IH s (m + difficulty_weight it)%Q).
      destruct (fold_left _ _ _) as [score max_score].
      destruct IH as [IH1 IH2].
      unfold accepted_weight, total_weight in *.
      split; [rewrite IH1|rewrite IH2]; ring.
Qed.

Lemma accepted_weight_bounds answers items :
  Forall (fun it => (0 <= difficulty_weight it)%Q) items ->
  (0 <= accepted_weight answers items)%Q /\
  (accepted_weight answers items <= total_weight items)%Q.
Proof.
  unfold accepted_weight, total_weight.
  induction 1 as [|it items Hit _ IH]; simpl.
  - split; lra.
  - destruct IH as [IH1 IH2].
    destruct (accepted answers it); simpl; split; lra.
Qed.

Lemma percentage_to_cefr_compat (p q : Q) :
  (p == q)%Q -> _percentage_to_cefr p = _percentage_to_cefr q.
Proof.
  intros E. unfold _percentage_to_cefr.
  rewrite !(Qleb_comp p q E _ _ (Qeq_refl _)). reflexivity.
Qed.

Lemma accepted_empty it : accepted ∅ it = false.
Proof.
  unfold accepted, user_answer_of. rewrite lookup_empty. reflexivity.
Qed.

(** An item whose key is missing from the answers is not accepted. *)
Lemma accepted_missing_key (answers : gmap string string) it :
  answers !! pretty (PlacementTestItem.id it) = None ->
  accepted answers it = false.
Proof. intros H. unfold accepted, user_answer_of. rewrite H. reflexivity. Qed.

Lemma accepted_weight_empty items : accepted_weight ∅ items = 0%Q.
Proof.
  unfold accepted_weight.
  induction items as [|it items IH]; [reflexivity|].
  cbn [List.filter]. rewrite accepted_empty. exact IH.
Qed.

Lemma percentage_of_positive (score max_score : Q) :
  (0 < max_score)%Q ->
  percentage_of score max_score = (score / max_score * 100)%Q.
Proof.
  intros H. unfold percentage_of.
  destruct (Qle_bool max_score 0) eqn:E; [|reflexivity].
  apply Qle_bool_true in E. lra.
Qed.

Lemma percentage_of_zero (max_score : Q) :
  (percentage_of 0 max_score == 0)%Q.
Proof.
  unfold percentage_of. destruct (negb _); [|reflexivity].
  unfold Qdiv. ring.
Qed.

(** C2. For every list of items and every answer map the scorer returns
    [max_score = W], the sum of the weights of all the items, answered or
    not, and a score that is the weight of exactly the items whose answer
    the placement evaluator accepts (a missing key being the empty
    answer); for [W > 0] the percentage is [score / W * 100] and the band
    is the band of that percentage. The weights of the items being those
    of the data model, which are positive (the bound needs them
    non-negative), the score satisfies [0 <= score <= W]. With the empty
    answer map the score is 0, the percentage 0 and the band A0. *)
Theorem calculate_results_contract :
  (forall (items : list PlacementTestItem.t) (answers : gmap string string),
     let '(score, max_score, band) := _calculate_results items answers in
     (max_score == total_weight items)%Q /\
     (score == accepted_weight answers items)%Q /\
     ((0 < total_weight items)%Q ->
      (percentage_of score max_score == score / total_weight items * 100)%Q
      /\ band = _percentage_to_cefr (score / total_weight items * 100)%Q)) /\
  (forall (items : list PlacementTestItem.t) (answers : gmap string string),
     Forall (fun it => (0 <= difficulty_weight it)%Q) items ->
     let '(score, max_score, band) := _calculate_results items answers in
     (0 <= score)%Q /\ (score <= total_weight items)%Q) /\
  (forall items : list PlacementTestItem.t,
     let '(score, max_score, band) := _calculate_results items ∅ in
     (score == 0)%Q /\ (percentage_of score max_score == 0)%Q /\ band = A0).
Proof.
  split; [|split].
  - intros items answers. unfold _calculate_results.
    pose proof (fold_score_item answers items 0%Q 0%Q) as Hfold.
    destruct (fold_left _ _ _) as [score max_score].
    destruct Hfold as [Hs Hm].
    assert (Hm' : (max_score == total_weight items)%Q) by (rewrite Hm; ring).
    assert (Hs' : (score == accepted_weight answers items)%Q)
      by (rewrite Hs; ring).
    split; [exact Hm'|]. split; [exact Hs'|]. intros HW.
    assert (Hp : (percentage_of score max_score
                  == score / total_weight items * 100)%Q).
    { rewrite percentage_of_positive by (rewrite Hm'; exact HW).
      rewrite Hm'. reflexivity. }
    split; [exact Hp|]. apply percentage_to_cefr_compat. exact Hp.
  - intros items answers Hw. unfold _calculate_results.
    pose proof (fold_score_item answers items 0%Q 0%Q) as Hfold.
    destruct (fold_left _ _ _) as [score max_score].
    destruct Hfold as [Hs _].
    destruct (accepted_weight_bounds answers items Hw) as [H0 H1].
    assert (Hs' : (score == accepted_weight answers items)%Q)
      by (rewrite Hs; ring).
    split; rewrite Hs'; assumption.
  - intros items. unfold _calculate_results.
    pose proof (fold_score_item ∅ items 0%Q 0%Q) as Hfold.
    destruct (fold_left _ _ _) as [score max_score].
    destruct Hfold as [Hs _]. rewrite accepted_weight_empty in Hs.
    assert (Hs' : (score == 0)%Q) by (rewrite Hs; ring).
    assert (Hp : (percentage_of score max_score == 0)%Q).
    { unfold percentage_of. destruct (negb _); [|reflexivity].
      rewrite Hs'. unfold Qdiv. ring. }
    repeat split; try assumption.
    rewrite (percentage_to_cefr_compat _ 0%Q Hp). reflexivity.
Qed.

Lemma calculate_results_contract_witness :
  (let '(score, max_score, band) :=
     _calculate_results Samples.three_items Samples.three_answers in
   (max_score == 3)%Q /\ (score == 2)%Q /\ (0 <= score)%Q /\ (score <= 3)%Q
   /\ band = B2) /\
  (let '(score, max_score, band) :=
     _calculate_results Samples.three_items ∅ in
   (score == 0)%Q /\ band = A0).
Proof.
  assert (Hw : Forall (fun it => (0 <= difficulty_weight it)%Q)
                 Samples.three_items).
  { repeat constructor; vm_compute; discriminate. }
  assert (HW : (0 < total_weight Samples.three_items)%Q) by reflexivity.
  split.
  - pose proof (proj1 calculate_results_contract Samples.three_items
                  Samples.three_answers) as H.
    pose proof (proj1 (proj2 calculate_results_contract) Samples.three_items
                  Samples.three_answers Hw) as Hb.
    destruct (_calculate_results _ _) as [[score max_score] band].
    destruct H as (Hm & Hs & Hp). destruct (Hp HW) as [_ Hband].
    destruct Hb as [H0 Hle].
    split; [rewrite Hm; reflexivity|]. split; [rewrite Hs; reflexivity|].
    split; [exact H0|].
    split; [apply (Qle_trans _ _ _ Hle); vm_compute; discriminate|].
    rewrite Hband. apply (percentage_to_cefr_compat _ ((2 / 3) * 100)%Q).
    rewrite Hs. reflexivity.
  - pose proof (proj2 (proj2 calculate_results_contract) Samples.three_items)
      as H.
    destruct (_calculate_results _ _) as [[score max_score] band].
    destruct H as (Hs & _ & Hb). split; assumption.
Defined.

End PlacementScoring.

(** ** Normalization of strings *)

Section Normalization.

Import Str.

Lemma isspace_lower_char (c : ascii) : isspace (lower_char c) = isspace c.
Proof.
  destruct c as [[] [] [] [] [] [] [] []]; vm_compute; reflexivity.
Qed.

Lemma lower_empty (s : string) : lower s = ""%string <-> s = ""%string.
Proof. destruct s; simpl; split; congruence. Qed.

Lemma lstrip_lower (s : string) : lstrip (lower s) = lower (lstrip s).
Proof.
  induction s as [|c s IH]; [reflexivity|].
  simpl. rewrite isspace_lower_char. destruct (isspace c); [exact IH|].
  reflexivity.
Qed.

Lemma rstrip_lower (s : string) : rstrip (lower s) = lower (rstrip s).
Proof.
  induction s as [|c s IH]; [reflexivity|].
  simpl. rewrite IH, isspace_lower_char.
  destruct (rstrip s); simpl; [destruct (isspace c)|]; reflexivity.
Qed.

(** Trimming and lower-casing commute: the two call sites normalize to
    the same string. *)
Lemma strip_lower (s : string) : strip (lower s) = lower (strip s).
Proof. unfold strip. rewrite lstrip_lower, rstrip_lower. reflexivity. Qed.

Lemma lstrip_no_leading_space (s : string) : no_leading_space (lstrip s).
Proof.
  induction s as [|c s IH]; [exact I|].
  simpl. destruct (isspace c) eqn:E; [exact IH|exact E].
Qed.

Lemma lstrip_fixed (s : string) : no_leading_space s -> lstrip s = s.
Proof. destruct s as [|c s]; simpl; [reflexivity|]. intros ->. reflexivity. Qed.

Lemma rstrip_no_leading_space (s : string) :
  no_leading_space s -> no_leading_space (rstrip s).
Proof.
  destruct s as [|c s]; simpl; [exact id|]. intros E.
  destruct (rstrip s); [rewrite E|]; exact E.
Qed.

Lemma rstrip_rstrip (s : string) : rstrip (rstrip s) = rstrip s.
Proof.
  induction s as [|c s IH]; [reflexivity|].
  simpl. destruct (rstrip s) as [|d r] eqn:E.
  - destruct (isspace c) eqn:Ec; [reflexivity|]. simpl. rewrite Ec.
    reflexivity.
  - cbn [rstrip] in *. rewrite IH. reflexivity.
Qed.

Lemma strip_strip (s : string) : strip (strip s) = strip s.
Proof.
  unfold strip.
  rewrite (lstrip_fixed (rstrip (lstrip s)))
    by (apply rstrip_no_leading_space, lstrip_no_leading_space).
  apply rstrip_rstrip.
Qed.

Lemma is_empty_true (s : string) : is_empty s = true <-> s = ""%string.
Proof. destruct s; simpl; split; congruence. Qed.

End Normalization.

(** ** The matcher: ranges and fuel *)

Section MatcherRanges.

Import SequenceMatcher.

Variables a b : list ascii.

Lemma scan_row_within alo rows blo bhi j2len idxs best newj2len :
  0 <= rows ->
  runs_within rows j2len ->
  best_within alo (rows + 1) best ->
  runs_within (rows + 1) newj2len ->
  let '(best', newj2len') :=
    scan_row (alo + rows) blo bhi j2len idxs (best, newj2len) in
  best_within alo (rows + 1) best' /\ runs_within (rows + 1) newj2len'.
Proof.
  intros Hrows Hj. revert best newj2len.
  induction idxs as [|j rest IH]; intros [[besti bestj] bestsize] newj2len
    Hbest Hnew.
  - cbn [scan_row]. split; assumption.
  - cbn [scan_row]. destruct (j <? blo); [apply IH; assumption|].
    destruct (bhi <=? j); [split; assumption|].
    set (k := default 0 (j2len !! (j - 1)) + 1).
    assert (Hk : 1 <= k <= rows + 1).
    { subst k. destruct (j2len !! (j - 1)) as [v|] eqn:E; simpl.
      - specialize (Hj _ _ E). unfold id. lia.
      - lia. }
    assert (Hnew' : runs_within (rows + 1) (<[j := k]> newj2len)).
    { intros j' v. rewrite lookup_insert. destruct (decide (j = j')).
      - intros [= <-]. exact Hk.
      - apply Hnew. }
    destruct (bestsize <? k).
    + apply IH; [|exact Hnew']. unfold best_within. lia.
    + apply IH; [exact Hbest|exact Hnew'].
Qed.

Lemma scan_rows_within alo blo bhi (n : nat) :
  forall rows best j2len,
    0 <= rows ->
    best_within alo rows best ->
    runs_within rows j2len ->
    best_within alo (rows + Z.of_nat n)
      (fst (fold_left
              (fun (st : Z * Z * Z * gmap Z Z) (i : Z) =>
                 let '(best, j2len) := st in
                 scan_row i blo bhi j2len (default [] (b2j b !! item a i))
                   (best, ∅))
              (seqZ (alo + rows) (Z.of_nat n)) (best, j2len))).
Proof.
  induction n as [|n IH]; intros rows best j2len Hrows Hbest Hj.
  - rewrite seqZ_nil by lia. cbn [fold_left fst].
    replace (rows + Z.of_nat 0) with rows by lia. exact Hbest.
  - rewrite seqZ_cons by lia. cbn [fold_left].
    replace (Z.pred (Z.of_nat (S n))) with (Z.of_nat n) by lia.
    replace (Z.succ (alo + rows)) with (alo + (rows + 1)) by lia.
    replace (rows + Z.of_nat (S n)) with (rows + 1 + Z.of_nat n) by lia.
    assert (Hbest' : best_within alo (rows + 1) best).
    { destruct best as [[besti bestj] bestsize]. unfold best_within in *. lia. }
    assert (Hempty : runs_within (rows + 1) ∅).
    { intros j v. rewrite lookup_empty. discriminate. }
    pose proof (scan_row_within alo rows blo bhi j2len
                  (default [] (b2j b !! item a (alo + rows))) best ∅
                  Hrows Hj Hbest' Hempty) as Hrow.
    destruct (scan_row _ _ _ _ _ _) as [best' newj2len'].
    destruct Hrow as [Hb' Hj']. apply IH; [lia|exact Hb'|exact Hj'].
Qed.

Lemma scan_within alo ahi blo bhi :
  alo <= ahi -> best_within alo (ahi - alo) (scan a b alo ahi blo bhi).
Proof.
  intros H. unfold scan.
  pose proof (scan_rows_within alo blo bhi (Z.to_nat (ahi - alo)) 0
                (alo, blo, 0) ∅) as Hs.
  rewrite Z2Nat.id, Z.add_0_r, Z.add_0_l in Hs by lia.
  apply Hs; [lia|unfold best_within; lia|].
  intros j v. rewrite lookup_empty. discriminate.
Qed.

Lemma extend_left_within fuel alo blo rows besti bestj bestsize :
  best_within alo rows (besti, bestj, bestsize) ->
  best_within alo rows
    (extend_left a b fuel alo blo besti bestj bestsize).
Proof.
  revert besti bestj bestsize.
  induction fuel as [|fuel IH]; intros besti bestj bestsize H;
    cbn [extend_left]; [exact H|].
  destruct (_ && _) eqn:E; [|exact H].
  apply andb_true_iff in E. destruct E as [E _].
  apply andb_true_iff in E. destruct E as [E _]. apply Z.ltb_lt in E.
  apply IH. unfold best_within in *. lia.
Qed.

Lemma extend_right_within fuel alo ahi bhi besti bestj bestsize :
  best_within alo (ahi - alo) (besti, bestj, bestsize) ->
  best_within alo (ahi - alo)
    (extend_right a b fuel ahi bhi besti bestj bestsize).
Proof.
  revert bestsize.
  induction fuel as [|fuel IH]; intros bestsize H;
    cbn [extend_right]; [exact H|].
  destruct (_ && _) eqn:E; [|exact H].
  apply andb_true_iff in E. destruct E as [E _].
  apply andb_true_iff in E. destruct E as [E _]. apply Z.ltb_lt in E.
  apply IH. unfold best_within in *. lia.
Qed.

(** The match returned for a range of [a] lies in that range. *)
Lemma find_longest_match_within alo ahi blo bhi :
  alo <= ahi ->
  let '(i, j, k) := find_longest_match a b alo ahi blo bhi in
  alo <= i /\ 0 <= k /\ i + k <= ahi.
Proof.
  intros H. unfold find_longest_match.
  pose proof (scan_within alo ahi blo bhi H) as Hs.
  destruct (scan a b alo ahi blo bhi) as [[besti bestj] bestsize].
  pose proof (extend_left_within (Z.to_nat (besti - alo)) alo blo _ _ _ _ Hs)
    as Hl.
  destruct (extend_left _ _ _ _ _ _ _ _) as [[besti' bestj'] bestsize'].
  pose proof (extend_right_within (Z.to_nat (ahi - (besti' + bestsize')))
                alo ahi bhi _ _ _ Hl) as Hr.
  destruct (extend_right _ _ _ _ _ _ _ _) as [[i j] k].
  unfold best_within in Hr. lia.
Qed.

(** Fuel beyond the number of elements of the range changes nothing:
    the recursion of [get_matching_blocks] has ended by then. *)
Lemma matching_enough_fuel fuel :
  forall alo ahi blo bhi fuel',
    alo <= ahi -> ahi - alo < Z.of_nat fuel -> (fuel <= fuel')%nat ->
    matching a b fuel' alo ahi blo bhi = matching a b fuel alo ahi blo bhi.
Proof.
  induction fuel as [|fuel IH]; intros alo ahi blo bhi fuel' Hr Hf Hle;
    [lia|].
  destruct fuel' as [|fuel']; [lia|]. cbn [matching].
  pose proof (find_longest_match_within alo ahi blo bhi Hr) as Hm.
  destruct (find_longest_match a b alo ahi blo bhi) as [[i j] k].
  destruct (k =? 0) eqn:Ek; [reflexivity|]. apply Z.eqb_neq in Ek.
  rewrite (IH alo i blo j fuel') by lia.
  rewrite (IH (i + k) ahi (j + k) bhi fuel') by lia.
  reflexivity.
Qed.

(** [matches] is the value the recursion reaches with any larger fuel. *)
Lemma matches_fuel fuel :
  (length a < fuel)%nat ->
  matching a b fuel 0 (len a) 0 (len b) = matches a b.
Proof.
  intros H. unfold matches. apply matching_enough_fuel; unfold len; lia.
Qed.

End MatcherRanges.

(** ** Answer evaluation *)

Section AnswerEvaluation.

Import PlacementTestSubmitView TaskAttemptView.

Lemma strip_punctuation_empty : strip_punctuation "" = ""%string.
Proof. reflexivity. Qed.

Lemma matches_empty_left (b : list ascii) : SequenceMatcher.matches [] b = 0.
Proof. reflexivity. Qed.

Lemma ratio_empty_left (b : list ascii) :
  b <> [] -> (SequenceMatcher.ratio [] b == 0)%Q.
Proof.
  intros Hb. unfold SequenceMatcher.ratio. rewrite matches_empty_left.
  destruct (_ =? 0) eqn:E.
  - apply Z.eqb_eq in E. unfold SequenceMatcher.len in E.
    destruct b; [congruence|]. simpl length in E. lia.
  - unfold Qdiv. ring.
Qed.

Lemma ratio_empty_both : SequenceMatcher.ratio [] [] = 1%Q.
Proof. reflexivity. Qed.

Lemma list_ascii_of_string_nil (s : string) :
  list_ascii_of_string s = [] -> s = ""%string.
Proof. destruct s; [reflexivity|discriminate]. Qed.

Lemma eqb_empty_left (s : string) :
  s <> ""%string -> Str.eqb "" s = false.
Proof.
  intros H. unfold Str.eqb. apply bool_decide_eq_false. congruence.
Qed.


Lemma evaluate_answer_empty (user_answer correct_answer task_type : string) :
  Str.strip (Str.lower user_answer) = ""%string ->
  (if Str.eqb task_type "fill_blank"
   then strip_punctuation (Str.strip (Str.lower correct_answer))
   else Str.strip (Str.lower correct_answer)) <> ""%string ->
  _evaluate_answer user_answer correct_answer task_type = false.
Proof.
  intros Hu Hc. unfold _evaluate_answer. rewrite Hu.
  destruct (Str.eqb task_type "multiple_choice") eqn:Emc.
  { apply bool_decide_eq_true in Emc. subst task_type.
    apply eqb_empty_left. exact Hc. }
  destruct (Str.eqb task_type "fill_blank") eqn:Efb.
  { rewrite strip_punctuation_empty. apply eqb_empty_left. exact Hc. }
  destruct (Str.eqb task_type "translation") eqn:Etr; [|reflexivity].
  apply Qle_bool_false. simpl list_ascii_of_string.
  rewrite ratio_empty_left; [reflexivity|].
  intros Hnil. apply Hc. apply list_ascii_of_string_nil. exact Hnil.
Qed.

(** The task evaluator has no emptiness guard of its own: called with an
    empty answer, which [post] never passes to it, it compares it like
    any other. *)
Lemma evaluate_answer_empty_iff (user_answer correct_answer task_type : string) :
  Str.strip (Str.lower user_answer) = ""%string ->
  _evaluate_answer user_answer correct_answer task_type = true <->
  (task_type = "multiple_choice"%string /\
   Str.strip (Str.lower correct_answer) = ""%string) \/
  (task_type = "fill_blank"%string /\
   strip_punctuation (Str.strip (Str.lower correct_answer)) = ""%string) \/
  (task_type = "translation"%string /\
   Str.strip (Str.lower correct_answer) = ""%string).
Proof.
  intros Hu.
  set (c := Str.strip (Str.lower correct_answer)).
  assert (Hdec : forall s : string, s = ""%string \/ s <> ""%string)
    by (intros [|? ?]; [left; reflexivity|right; discriminate]).
  split.
  - intros H.
    destruct (decide (task_type = "multiple_choice"%string)) as [->|Hmc].
    { left. split; [reflexivity|]. destruct (Hdec c) as [E|E]; [exact E|].
      rewrite evaluate_answer_empty in H; [discriminate|exact Hu|exact E]. }
    destruct (decide (task_type = "fill_blank"%string)) as [->|Hfb].
    { right. left. split; [reflexivity|].
      destruct (Hdec (strip_punctuation c)) as [E|E]; [exact E|].
      rewrite evaluate_answer_empty in H; [discriminate|exact Hu|exact E]. }
    destruct (decide (task_type = "translation"%string)) as [->|Htr].
    { right. right. split; [reflexivity|].
      destruct (Hdec c) as [E|E]; [exact E|].
      rewrite evaluate_answer_empty in H; [discriminate|exact Hu|exact E]. }
    unfold _evaluate_answer, Str.eqb in H.
    rewrite !bool_decide_eq_false_2 in H by assumption. discriminate.
  - unfold _evaluate_answer. rewrite Hu. fold c.
    intros [[-> E]|[[-> E]|[-> E]]]; cbn; rewrite E; reflexivity.
Qed.


Lemma validate_some (data validated : string) :
  TaskAttemptSubmitSerializer.validate data = Some validated ->
  validated = Str.strip data /\ validated <> ""%string.
Proof.
  unfold TaskAttemptSubmitSerializer.validate.
  destruct (Str.is_empty (Str.strip data)) eqn:E; [discriminate|].
  destruct (_ <? _)%nat; [discriminate|].
  destruct (Str.contains _ _); [discriminate|].
  intros [= <-]. split; [reflexivity|].
  intros H. rewrite H in E. discriminate.
Qed.


(** So the answer [post] hands to the evaluator is never empty after
    normalization. *)
Lemma post_evaluates_nonblank (data : string) (task_template : TaskTemplate.t)
    (verdict : bool) :
  post_is_correct data task_template = Some verdict ->
  exists validated,
    TaskAttemptSubmitSerializer.validate data = Some validated /\
    Str.strip (Str.lower (Str.strip validated)) <> ""%string /\
    verdict = _evaluate_answer (Str.strip validated)
                (TaskTemplate.correct_answer task_template)
                (TaskTemplate.task_type task_template).
Proof.
  unfold post_is_correct.
  destruct (TaskAttemptSubmitSerializer.validate data) as [validated|] eqn:E;
    [|discriminate].
  intros [= <-]. exists validated. split; [reflexivity|].
  split; [|reflexivity].
  destruct (validate_some _ _ E) as [-> Hne].
  rewrite strip_lower, !strip_strip. intros H.
  apply (proj1 (lower_empty _)) in H. contradiction.
Qed.



(** The examples of the evaluator's contract. *)
Example evaluate_multiple_choice_normalises :
  _evaluate_answer " Paris " "paris" "multiple_choice" = true.
Proof. vm_compute. reflexivity. Qed.

Example evaluate_translation_close :
  _evaluate_answer "pariss" "paris" "translation" = true.
Proof. vm_compute. reflexivity. Qed.

Example evaluate_translation_far :
  _evaluate_answer "x" "paris" "translation" = false.
Proof. vm_compute. reflexivity. Qed.

End AnswerEvaluation.

(** ** Streaks *)

Section Streaks.

Import GamificationProfile.

Lemma update_streak_first today activity_date self :
  last_activity_date self = None ->
  let self' := update_streak today activity_date self in
  current_streak_days self' = 1 /\ longest_streak_days self' = 1.
Proof. intros H. unfold update_streak. rewrite H. split; reflexivity. Qed.

Lemma update_streak_gap today activity_date self last :
  last_activity_date self = Some last ->
  let gap := default today activity_date - last in
  let self' := update_streak today activity_date self in
  (gap = 0 ->
   current_streak_days self' = current_streak_days self /\
   longest_streak_days self' = longest_streak_days self) /\
  (gap = 1 ->
   current_streak_days self' = current_streak_days self + 1 /\
   longest_streak_days self'
   = Z.max (longest_streak_days self) (current_streak_days self + 1)) /\
  (1 < gap ->
   current_streak_days self' = 1 /\
   longest_streak_days self' = longest_streak_days self).
Proof.
  intros H gap self'. subst gap self'. unfold update_streak. rewrite H.
  split; [|split]; intros Hgap.
  - rewrite Hgap. split; reflexivity.
  - rewrite Hgap. cbn.
    destruct (_ <? _) eqn:E; cbn; split; try reflexivity.
    + apply Z.ltb_lt in E. lia.
    + apply Z.ltb_ge in E. lia.
  - destruct (_ =? 0) eqn:E0; [apply Z.eqb_eq in E0; lia|].
    destruct (_ =? 1) eqn:E1; [apply Z.eqb_eq in E1; lia|].
    split; reflexivity.
Qed.

Lemma update_streak_frame today activity_date self :
  let self' := update_streak today activity_date self in
  last_activity_date self' = Some (default today activity_date) /\
  user self' = user self /\ total_xp self' = total_xp self /\
  xp_history self' = xp_history self.
Proof.
  unfold update_streak.
  destruct (last_activity_date self) as [last|]; [|repeat split].
  destruct (_ =? 0); [repeat split|].
  destruct (_ =? 1); [|repeat split].
  destruct (_ <? _); repeat split.
Qed.

(** An activity dated before the last recorded one also resets. *)
Lemma update_streak_backwards today activity_date self last :
  last_activity_date self = Some last ->
  default today activity_date - last < 0 ->
  current_streak_days (update_streak today activity_date self) = 1.
Proof.
  intros H Hgap. unfold update_streak. rewrite H.
  destruct (_ =? 0) eqn:E0; [apply Z.eqb_eq in E0; lia|].
  destruct (_ =? 1) eqn:E1; [apply Z.eqb_eq in E1; lia|]. reflexivity.
Qed.

Lemma run_streak_example (D : Z) self :
  last_activity_date self = None ->
  fst (run_streak [D; D; D + 1; D + 3] self) = [1; 1; 2; 1] /\
  longest_streak_days (snd (run_streak [D; D; D + 1; D + 3] self)) = 2.
Proof.
  intros H. unfold run_streak, update_streak. rewrite H. cbn.
  replace (D - D) with 0 by lia. cbn.
  replace (D + 1 - D) with 1 by lia. cbn.
  replace (D + 3 - (D + 1)) with 2 by lia. cbn.
  split; reflexivity.
Qed.

(** C4. The streak update follows the day gap between the new activity
    date and the last recorded one: a first activity sets the current and
    the longest streak to 1; gap 0 leaves both as they are; gap 1 adds one
    to the current streak and raises the longest streak to it when it is
    exceeded; a gap above 1 resets the current streak to 1 (the longest
    streak stays); in every case the last activity date becomes the new
    date and nothing else of the profile changes. From a profile without
    activity, the dates D, D, D+1, D+3 give the current streaks 1, 1, 2, 1
    and the longest streak 2. *)
Theorem update_streak_rules :
  (forall (today : Z) (activity_date : option Z) (self : t),
     let gap_from last := default today activity_date - last in
     let self' := update_streak today activity_date self in
     (last_activity_date self = None ->
      current_streak_days self' = 1 /\ longest_streak_days self' = 1) /\
     (forall last, last_activity_date self = Some last ->
        (gap_from last = 0 ->
         current_streak_days self' = current_streak_days self /\
         longest_streak_days self' = longest_streak_days self) /\
        (gap_from last = 1 ->
         current_streak_days self' = current_streak_days self + 1 /\
         longest_streak_days self'
         = Z.max (longest_streak_days self) (current_streak_days self + 1)) /\
        (1 < gap_from last ->
         current_streak_days self' = 1 /\
         longest_streak_days self' = longest_streak_days self)) /\
     last_activity_date self' = Some (default today activity_date) /\
     user self' = user self /\ total_xp self' = total_xp self /\
     xp_history self' = xp_history self) /\
  (forall (D : Z) (self : t),
     last_activity_date self = None ->
     fst (run_streak [D; D; D + 1; D + 3] self) = [1; 1; 2; 1] /\
     longest_streak_days (snd (run_streak [D; D; D + 1; D + 3] self)) = 2).
Proof.
  split.
  - intros today activity_date self gap_from self'. subst gap_from self'.
    split; [apply update_streak_first|].
    split; [intros last Hlast; apply (update_streak_gap _ _ _ _ Hlast)|].
    apply update_streak_frame.
  - exact run_streak_example.
Qed.

Lemma update_streak_rules_witness :
  (let self := update_streak 20 None (create 7) in
   current_streak_days self = 1 /\ longest_streak_days self = 1) /\
  (let self := update_streak 21 None (update_streak 20 None (create 7)) in
   current_streak_days self = 2 /\ longest_streak_days self = 2) /\
  fst (run_streak [20; 20; 21; 23] (create 7)) = [1; 1; 2; 1].
Proof.
  split; [|split].
  - apply (proj1 (proj1 update_streak_rules 20 None (create 7))).
    reflexivity.
  - pose proof (proj1 (proj2 (proj1 (proj2 (proj1 update_streak_rules 21 None
                  (update_streak 20 None (create 7)))) 20 eq_refl))) as H.
    specialize (H eq_refl). exact H.
  - apply (proj2 update_streak_rules 20 (create 7)). reflexivity.
Defined.

(** The XP history adds up per day: 5 and 5 on one day, 3 on the next. *)
Example add_xp_accumulates :
  let profile :=
    add_xp 0 3 (Some 2) (add_xp 0 5 (Some 1) (add_xp 0 5 (Some 1) (create 7)))
  in
  total_xp profile = 13 /\ xp_history profile = {[1 := 10; 2 := 3]}.
Proof. split; [reflexivity|]. apply map_eq. intros d. vm_compute. reflexivity. Qed.

End Streaks.

(** ** Checkpoint evaluation *)

Section Checkpoint.

Import LearningModule.

(** The flag returned is the conjunction of the three tests of the code. *)
Lemma check_completion_result db now self :
  fst (check_completion db now self)
  = negb (no_criteria (checkpoint_criteria self)) && tasks_exist db
    && criteria_met (checkpoint_criteria self) db.
Proof.
  unfold check_completion.
  destruct (no_criteria _); [reflexivity|].
  destruct (tasks_exist db); [|reflexivity].
  destruct (criteria_met _ _); [|reflexivity].
  destruct (is_completed self); reflexivity.
Qed.

Lemma check_completion_criteria_kept db now self :
  checkpoint_criteria (snd (check_completion db now self))
  = checkpoint_criteria self.
Proof.
  unfold check_completion.
  destruct (no_criteria _); [reflexivity|].
  destruct (tasks_exist db); [|reflexivity].
  destruct (criteria_met _ _); [|reflexivity].
  destruct (is_completed self); reflexivity.
Qed.

Lemma check_completion_true_completes db now self :
  fst (check_completion db now self) = true ->
  is_completed (snd (check_completion db now self)) = true.
Proof.
  unfold check_completion.
  destruct (no_criteria _); [discriminate|].
  destruct (tasks_exist db); [|discriminate].
  destruct (criteria_met _ _); [|discriminate].
  destruct (is_completed self) eqn:E; intros _; [exact E|reflexivity].
Qed.

Lemma check_completion_completed_unchanged db now self :
  is_completed self = true -> snd (check_completion db now self) = self.
Proof.
  intros H. unfold check_completion.
  destruct (no_criteria _); [reflexivity|].
  destruct (tasks_exist db); [|reflexivity].
  destruct (criteria_met _ _); [|reflexivity].
  rewrite H. reflexivity.
Qed.

(** What the evaluator does with a completed module: it leaves the
    module as it is, in particular the flag and the timestamp, and returns
    what the criteria give on the statistics of the call; a call that
    returned true is followed by calls that return true as long as the
    statistics are the same. *)
Lemma check_completion_once_completed :
  (forall (db : stats) (now : Z) (self : t),
     is_completed self = true ->
     snd (check_completion db now self) = self /\
     fst (check_completion db now self)
     = negb (no_criteria (checkpoint_criteria self)) && tasks_exist db
       && criteria_met (checkpoint_criteria self) db) /\
  (forall (db : stats) (now later : Z) (self : t),
     fst (check_completion db now self) = true ->
     let completed := snd (check_completion db now self) in
     is_completed completed = true /\
     check_completion db later completed = (true, completed)).
Proof.
  split.
  - intros db now self H. split.
    + apply check_completion_completed_unchanged. exact H.
    + apply check_completion_result.
  - intros db now later self H completed. subst completed.
    pose proof (check_completion_true_completes db now self H) as Hc.
    split; [exact Hc|].
    rewrite (surjective_pairing (check_completion db later _)).
    rewrite (check_completion_completed_unchanged db later _ Hc).
    rewrite (check_completion_result db later).
    rewrite check_completion_criteria_kept.
    rewrite check_completion_result in H. rewrite H. reflexivity.
Qed.

(** C5, where the code departs from it. The evaluator has no early return
    for a completed module: it evaluates the criteria again on the
    attempts of the moment, and the flag only keeps it from stamping the
    time again. So for a module whose completion flag is set, a call made
    when the criteria are not met (any more) returns false, against the
    claim and against the docstring ("Returns True if completed, False
    otherwise"); the flag and the timestamp stay as they are. *)
Theorem check_completion_false_when_completed :
  forall (db : stats) (now : Z) (self : t),
    is_completed self = true ->
    criteria_met (checkpoint_criteria self) db = false ->
    check_completion db now self = (false, self) /\
    is_completed (snd (check_completion db now self)) = true /\
    completed_at (snd (check_completion db now self)) = completed_at self.
Proof.
  intros db now self Hc Hmet.
  assert (E : check_completion db now self = (false, self)).
  { unfold check_completion. rewrite Hmet.
    destruct (no_criteria _); [reflexivity|].
    destruct (negb (tasks_exist db)); reflexivity. }
  rewrite E. cbn [snd]. repeat split. exact Hc.
Qed.

(** The failing input: a module with thresholds 80 % and one task,
    completed at time 100 by an evaluation made after one correct attempt,
    is evaluated at time 200 after a wrong attempt at the same task (the
    task is back in progress, one attempt in two is correct). *)
Lemma check_completion_false_when_completed_witness :
  fst (check_completion Samples.stats_done 100 Samples.open_module) = true /\
  let completed := snd (check_completion Samples.stats_done 100
                          Samples.open_module) in
  is_completed completed = true /\
  completed_at completed = Some 100 /\
  check_completion Samples.stats_after_miss 200 completed
  = (false, completed).
Proof.
  split; [reflexivity|]. cbv zeta. split; [reflexivity|].
  split; [reflexivity|].
  apply (check_completion_false_when_completed Samples.stats_after_miss 200
           (snd (check_completion Samples.stats_done 100 Samples.open_module)));
    reflexivity.
Defined.

Lemma accuracy_of_attempts db :
  0 < total_attempts db ->
  accuracy_of db
  = (inject_Z (correct_count db) / inject_Z (total_attempts db) * 100)%Q.
Proof.
  intros H. unfold accuracy_of.
  destruct (0 <? _) eqn:E; [reflexivity|]. apply Z.ltb_ge in E. lia.
Qed.

Lemma accuracy_of_no_attempts db :
  total_attempts db <= 0 -> accuracy_of db = 0%Q.
Proof.
  intros H. unfold accuracy_of.
  destruct (0 <? _) eqn:E; [|reflexivity]. apply Z.ltb_lt in E. lia.
Qed.

Lemma no_criteria_some (c : gmap string Q) key v :
  c !! key = Some v -> no_criteria (Some c) = false.
Proof.
  intros H. unfold no_criteria. apply bool_decide_eq_false.
  intros ->. rewrite lookup_empty in H. discriminate.
Qed.

(** C6, as amended. With empty or absent criteria the evaluator returns
    false. With criteria that hold [accuracy_threshold] and
    [min_tasks_completed], it returns false for a module that has no task,
    and for a module that has tasks it returns true exactly when the
    number of completed tasks is at least [min_tasks_completed] and the
    accuracy is at least [accuracy_threshold * 100], the accuracy being
    [correct / total * 100] when there are attempts and 0 otherwise. *)
Theorem check_completion_criteria :
  (forall (db : stats) (now : Z) (self : t),
     checkpoint_criteria self = None \/ checkpoint_criteria self = Some ∅ ->
     fst (check_completion db now self) = false) /\
  (forall (db : stats) (now : Z) (self : t) (c : gmap string Q)
          (accuracy_threshold min_tasks_completed : Q),
     checkpoint_criteria self = Some c ->
     c !! "accuracy_threshold"%string = Some accuracy_threshold ->
     c !! "min_tasks_completed"%string = Some min_tasks_completed ->
     (tasks_exist db = false -> fst (check_completion db now self) = false) /\
     (tasks_exist db = true ->
      (fst (check_completion db now self) = true <->
       (min_tasks_completed <= inject_Z (completed_tasks db))%Q /\
       (accuracy_threshold * 100 <= accuracy_of db)%Q))) /\
  (forall db : stats,
     (0 < total_attempts db ->
      accuracy_of db
      = (inject_Z (correct_count db) / inject_Z (total_attempts db) * 100)%Q)
     /\ (total_attempts db <= 0 -> accuracy_of db = 0%Q)).
Proof.
  split; [|split].
  - intros db now self [H|H]; rewrite check_completion_result, H;
      reflexivity.
  - intros db now self c thr mt Hc Hthr Hmt.
    rewrite check_completion_result, Hc.
    rewrite (no_criteria_some c _ _ Hthr).
    split; intros Ht; rewrite Ht; [reflexivity|].
    cbn [negb andb]. unfold criteria_met, get. rewrite Hthr, Hmt. cbn [default].
    rewrite andb_true_iff, !Qle_bool_true. reflexivity.
  - intros db. split; [apply accuracy_of_attempts|apply accuracy_of_no_attempts].
Qed.

Lemma check_completion_criteria_witness :
  fst (check_completion Samples.stats_done 100 Samples.open_module) = true /\
  fst (check_completion Samples.stats_after_miss 100 Samples.open_module)
  = false /\
  accuracy_of Samples.stats_after_miss = (1 / 2 * 100)%Q.
Proof.
  pose proof (proj1 (proj2 check_completion_criteria)) as H.
  split; [|split].
  - apply (H Samples.stats_done 100 Samples.open_module Samples.module_criteria
             (8 # 10)%Q 1%Q); try reflexivity.
    split; vm_compute; discriminate.
  - destruct (fst (check_completion Samples.stats_after_miss 100
                     Samples.open_module)) eqn:E; [|reflexivity].
    apply (H Samples.stats_after_miss 100 Samples.open_module
             Samples.module_criteria (8 # 10)%Q 1%Q) in E; try reflexivity.
    destruct E as [E _]. exfalso. apply E. reflexivity.
  - apply (proj1 (proj2 (proj2 check_completion_criteria)
                    Samples.stats_after_miss)).
    reflexivity.
Defined.

(** The claim C6 as stated fails for a module without tasks: with both
    thresholds at zero the two comparisons of the claim hold (no completed
    task, accuracy 0), and the evaluator returns false. *)
Lemma check_completion_false_without_tasks :
  checkpoint_criteria Samples.zero_module = Some Samples.zero_criteria /\
  (0 <= inject_Z (completed_tasks Samples.stats_no_tasks))%Q /\
  (0 * 100 <= accuracy_of Samples.stats_no_tasks)%Q /\
  fst (check_completion Samples.stats_no_tasks 100 Samples.zero_module)
  = false.
Proof.
  split; [reflexivity|]. split; [vm_compute; discriminate|].
  split; [vm_compute; discriminate|]. reflexivity.
Qed.

End Checkpoint.

(** ** Task attempts: XP and side effects of [save] *)

Section Attempts.

Import TaskAttempt.

Lemma compute_xp_fields self :
  task_instance (compute_xp self) = task_instance self /\
  user_answer (compute_xp self) = user_answer self /\
  is_correct (compute_xp self) = is_correct self.
Proof.
  unfold compute_xp. destruct (is_correct self && _); repeat split.
Qed.

Lemma update_instance_fields self :
  TaskInstance.user (update_instance self)
  = TaskInstance.user (task_instance self) /\
  TaskInstance.template (update_instance self)
  = TaskInstance.template (task_instance self) /\
  TaskInstance.attempts_count (update_instance self)
  = TaskInstance.attempts_count (task_instance self) + 1 /\
  TaskInstance.status (update_instance self)
  = (if is_correct self then "completed" else "in_progress")%string.
Proof.
  unfold update_instance. destruct (is_correct self); repeat split.
Qed.

Lemma save_attempt self profiles :
  fst (save self profiles)
  = {| task_instance := update_instance (compute_xp self);
       user_answer := user_answer self;
       is_correct := is_correct self;
       xp_gained := xp_gained (compute_xp self) |}.
Proof.
  unfold save. destruct (compute_xp_fields self) as (_ & Ha & Hc).
  rewrite Ha, Hc. cbn [is_correct].
  destruct (is_correct self); [|reflexivity].
  destruct (GamificationProfile.get_or_create _ _). reflexivity.
Qed.

Lemma compute_xp_value self :
  xp_gained (compute_xp self)
  = if is_correct self && (xp_gained self =? 0)
    then 10 * TaskTemplate.difficulty_level
                (TaskInstance.template (task_instance self))
    else xp_gained self.
Proof. unfold compute_xp. destruct (is_correct self && _); reflexivity. Qed.

(** Saving again computes the same XP: either the XP is not zero and is
    kept, or it is zero and the product that gave zero is taken again. *)
Lemma compute_xp_saved self profiles :
  xp_gained (compute_xp (fst (save self profiles)))
  = xp_gained (compute_xp self).
Proof.
  rewrite save_attempt, (compute_xp_value {| task_instance := _ |}).
  cbn [is_correct xp_gained task_instance].
  destruct (update_instance_fields (compute_xp self)) as (_ & Ht & _).
  rewrite Ht. destruct (compute_xp_fields self) as (Hi & _ & _). rewrite Hi.
  rewrite compute_xp_value.
  destruct (is_correct self); cbn [andb]; [|reflexivity].
  destruct (xp_gained self =? 0) eqn:E0.
  - match goal with |- (if ?c then _ else _) = _ => destruct c end;
      reflexivity.
  - rewrite E0. reflexivity.
Qed.

Lemma save_xp_again self profiles profiles' :
  xp_gained (fst (save (fst (save self profiles)) profiles'))
  = xp_gained (fst (save self profiles)).
Proof.
  rewrite (save_attempt (fst (save self profiles))). cbn [xp_gained].
  rewrite compute_xp_saved, save_attempt. reflexivity.
Qed.

Lemma save_times_succ n self profiles :
  save_times (S n) self profiles
  = save_times n (fst (save self profiles)) (snd (save self profiles)).
Proof. cbn [save_times]. destruct (save self profiles). reflexivity. Qed.

Lemma save_times_xp n self profiles :
  xp_gained (fst (save_times (S n) self profiles))
  = xp_gained (fst (save self profiles)).
Proof.
  revert self profiles. induction n as [|n IH]; intros self profiles.
  - rewrite save_times_succ. reflexivity.
  - rewrite save_times_succ, IH. apply save_xp_again.
Qed.

Lemma save_keeps_xp self profiles :
  xp_gained self <> 0 ->
  xp_gained (fst (save self profiles)) = xp_gained self.
Proof.
  intros H. rewrite save_attempt. cbn [xp_gained]. rewrite compute_xp_value.
  apply Z.eqb_neq in H. rewrite H, andb_false_r. reflexivity.
Qed.

Lemma save_changes_xp_once self profiles :
  xp_gained (fst (save self profiles)) <> xp_gained self ->
  is_correct self = true /\ xp_gained self = 0 /\
  xp_gained (fst (save self profiles)) <> 0.
Proof.
  rewrite save_attempt. cbn [xp_gained]. rewrite compute_xp_value.
  destruct (is_correct self); cbn [andb]; [|congruence].
  destruct (xp_gained self =? 0) eqn:E; [|congruence].
  apply Z.eqb_eq in E. rewrite E. intros H. repeat split; assumption.
Qed.

(** C7. The XP of an attempt is computed at its first save and not
    again: an attempt created with the default [xp_gained] gets 10 times
    the difficulty level of its template when it is correct and 0 when it
    is not; saving the same attempt object again, once or any number of
    times, leaves its [xp_gained] at that value. More generally an
    [xp_gained] that is set (not zero) is never recomputed by a save,
    whatever the difficulty level of the template has become, and a save
    that changes [xp_gained] finds it at zero on a correct attempt and
    sets it: that happens at most once for an attempt. *)
Theorem save_xp_computed_once :
  (forall (task_instance : TaskInstance.t) (user_answer : string)
          (is_correct : bool) (profiles : gmap Z GamificationProfile.t),
     xp_gained (fst (save (new task_instance user_answer is_correct) profiles))
     = if is_correct
       then 10 * TaskTemplate.difficulty_level
                   (TaskInstance.template task_instance)
       else 0) /\
  (forall (self : t) (profiles profiles' : gmap Z GamificationProfile.t),
     xp_gained (fst (save (fst (save self profiles)) profiles'))
     = xp_gained (fst (save self profiles))) /\
  (forall (n : nat) (self : t) (profiles : gmap Z GamificationProfile.t),
     xp_gained (fst (save_times (S n) self profiles))
     = xp_gained (fst (save self profiles))) /\
  (forall (self : t) (profiles : gmap Z GamificationProfile.t),
     xp_gained self <> 0 ->
     xp_gained (fst (save self profiles)) = xp_gained self) /\
  (forall (self : t) (profiles : gmap Z GamificationProfile.t),
     xp_gained (fst (save self profiles)) <> xp_gained self ->
     is_correct self = true /\ xp_gained self = 0 /\
     xp_gained (fst (save self profiles)) <> 0).
Proof.
  split; [|split; [|split; [|split]]].
  - intros inst ans correct profiles. rewrite save_attempt. cbn [xp_gained].
    rewrite compute_xp_value. destruct correct; reflexivity.
  - exact save_xp_again.
  - exact save_times_xp.
  - exact save_keeps_xp.
  - exact save_changes_xp_once.
Qed.

Lemma save_xp_computed_once_witness :
  xp_gained (fst (save Samples.correct_attempt ∅)) = 20 /\
  xp_gained (fst (save_times 3 Samples.correct_attempt ∅)) = 20 /\
  xp_gained (fst (save Samples.saved_attempt_retuned ∅)) = 20.
Proof.
  split; [|split].
  - exact (proj1 save_xp_computed_once Samples.fresh_instance "paris"%string
             true ∅).
  - etransitivity;
      [exact (proj1 (proj2 (proj2 save_xp_computed_once)) 2%nat
                Samples.correct_attempt ∅)|].
    exact (proj1 save_xp_computed_once Samples.fresh_instance "paris"%string
             true ∅).
  - apply (proj1 (proj2 (proj2 (proj2 save_xp_computed_once)))
             Samples.saved_attempt_retuned ∅).
    discriminate.
Defined.

Lemma total_xp_of_get_or_create user profiles :
  GamificationProfile.total_xp
    (fst (GamificationProfile.get_or_create user profiles))
  = total_xp_of user profiles.
Proof.
  unfold GamificationProfile.get_or_create, total_xp_of.
  destruct (profiles !! user); reflexivity.
Qed.

Lemma save_profiles self profiles :
  let user := TaskInstance.user (task_instance self) in
  (is_correct self = true ->
   total_xp_of user (snd (save self profiles))
   = total_xp_of user profiles + xp_gained (fst (save self profiles))) /\
  (is_correct self = false -> snd (save self profiles) = profiles).
Proof.
  intros user. subst user. rewrite save_attempt. cbn [xp_gained].
  unfold save. destruct (compute_xp_fields self) as (Hi & _ & Hc).
  cbn [is_correct]. rewrite Hc.
  destruct (update_instance_fields (compute_xp self)) as (Hu & _).
  rewrite Hu, Hi.
  split; intros E; rewrite E; [|reflexivity].
  pose proof (total_xp_of_get_or_create
                (TaskInstance.user (task_instance self)) profiles) as Hg.
  destruct (GamificationProfile.get_or_create _ _) as [profile table].
  cbn [fst snd] in *. unfold total_xp_of at 1.
  rewrite lookup_insert_eq. cbn. rewrite Hg. reflexivity.
Qed.

Lemma save_instance self profiles :
  let instance := task_instance (fst (save self profiles)) in
  TaskInstance.user instance = TaskInstance.user (task_instance self) /\
  TaskInstance.attempts_count instance
  = TaskInstance.attempts_count (task_instance self) + 1 /\
  TaskInstance.status instance
  = (if is_correct self then "completed" else "in_progress")%string /\
  is_correct (fst (save self profiles)) = is_correct self.
Proof.
  cbv zeta. rewrite save_attempt. cbn [task_instance is_correct].
  destruct (update_instance_fields (compute_xp self)) as (Hu & _ & Hn & Hs).
  destruct (compute_xp_fields self) as (Hi & _ & Hc).
  rewrite Hu, Hn, Hs, Hi, Hc. repeat split.
Qed.

Lemma save_times_effects n self profiles :
  let user := TaskInstance.user (task_instance self) in
  TaskInstance.attempts_count (task_instance (fst (save_times n self profiles)))
  = TaskInstance.attempts_count (task_instance self) + Z.of_nat n /\
  (is_correct self = true ->
   total_xp_of user (snd (save_times n self profiles))
   = total_xp_of user profiles
     + Z.of_nat n * xp_gained (fst (save self profiles))).
Proof.
  cbv zeta. revert self profiles.
  induction n as [|n IH]; intros self profiles.
  - cbn [save_times fst snd]. split; [lia|]. intros _. lia.
  - rewrite save_times_succ.
    destruct (IH (fst (save self profiles)) (snd (save self profiles)))
      as [IHn IHx].
    destruct (save_instance self profiles) as (Hu & Hn & _ & Hc).
    destruct (save_profiles self profiles) as [Hx _].
    cbv zeta in *. rewrite Hu, Hc in IHx. rewrite Hn in IHn.
    split; [rewrite IHn; lia|].
    intros E. rewrite (IHx E), (Hx E), save_xp_again. lia.
Qed.

(** C10. Every call of [save], a first one or one on an attempt already
    saved, adds exactly 1 to [attempts_count] of the owning instance, sets
    its status to completed when the attempt is correct and to in progress
    when it is not, and, when the attempt is correct, adds the attempt's
    [xp_gained] to the total XP of the user (an incorrect attempt leaves
    the profiles alone); [n] saves of the same correct attempt add [n]
    times its [xp_gained] to the total XP and [n] to [attempts_count]. *)
Theorem save_repeats_side_effects :
  (forall (self : t) (profiles : gmap Z GamificationProfile.t),
     let user := TaskInstance.user (task_instance self) in
     let instance := task_instance (fst (save self profiles)) in
     TaskInstance.attempts_count instance
     = TaskInstance.attempts_count (task_instance self) + 1 /\
     TaskInstance.status instance
     = (if is_correct self then "completed" else "in_progress")%string /\
     (is_correct self = true ->
      total_xp_of user (snd (save self profiles))
      = total_xp_of user profiles + xp_gained (fst (save self profiles))) /\
     (is_correct self = false -> snd (save self profiles) = profiles)) /\
  (forall (n : nat) (self : t) (profiles : gmap Z GamificationProfile.t),
     let user := TaskInstance.user (task_instance self) in
     TaskInstance.attempts_count
       (task_instance (fst (save_times n self profiles)))
     = TaskInstance.attempts_count (task_instance self) + Z.of_nat n /\
     (is_correct self = true ->
      total_xp_of user (snd (save_times n self profiles))
      = total_xp_of user profiles
        + Z.of_nat n * xp_gained (fst (save self profiles)))).
Proof.
  split.
  - intros self profiles user instance. subst user instance.
    destruct (save_instance self profiles) as (_ & Hn & Hs & _).
    destruct (save_profiles self profiles) as [Hx Hp].
    repeat split; assumption.
  - exact save_times_effects.
Qed.

Lemma save_repeats_side_effects_witness :
  total_xp_of 7 (snd (save Samples.correct_attempt ∅)) = 20 /\
  total_xp_of 7 (snd (save_times 3 Samples.correct_attempt ∅)) = 60 /\
  TaskInstance.attempts_count
    (task_instance (fst (save_times 3 Samples.correct_attempt ∅))) = 3.
Proof.
  split; [|split].
  - etransitivity;
      [exact (proj1 (proj2 (proj2 (proj1 save_repeats_side_effects
                                     Samples.correct_attempt ∅))) eq_refl)|].
    vm_compute. reflexivity.
  - etransitivity;
      [exact (proj2 (proj2 save_repeats_side_effects 3%nat
                       Samples.correct_attempt ∅) eq_refl)|].
    vm_compute. reflexivity.
  - etransitivity;
      [exact (proj1 (proj2 save_repeats_side_effects 3%nat
                       Samples.correct_attempt ∅))|].
    vm_compute. reflexivity.
Defined.

End Attempts.

(** ** Placement results *)

Section PlacementResults.

Import PlacementTestResult.

(** When [save] returns, the three decimals were stored and the profile
    is the one of the language test. *)
Lemma save_returns store now self profile row profile' :
  save store now self profile = Return (row, profile') ->
  profile'
  = (if Str.eqb (UserProfile.target_language profile) (test_language self)
     then UserProfile.save now
            (UserProfile.set_current_cefr_level (estimated_cefr_level self)
               profile)
     else profile) /\
  estimated_cefr_level row = estimated_cefr_level self /\
  exists percentage,
    store percentage = Return (default 0%Q (PlacementTestResult.percentage row))
    /\ PlacementTestResult.percentage row <> None /\
    ((0 < max_score self)%Q ->
     percentage = (score self / max_score self * 100)%Q).
Proof.
  unfold save.
  set (self' := if negb _ then _ else self).
  assert (Hl : test_language self' = test_language self)
    by (subst self'; destruct (negb _); reflexivity).
  assert (He : estimated_cefr_level self' = estimated_cefr_level self)
    by (subst self'; destruct (negb _); reflexivity).
  assert (Hp : (0 < max_score self)%Q ->
               PlacementTestResult.percentage self'
               = Some (score self / max_score self * 100)%Q).
  { intros Hm. subst self'.
    destruct (Qle_bool (max_score self) 0) eqn:E;
      [apply Qle_bool_true in E; lra|reflexivity]. }
  rewrite Hl, He.
  destruct (store (score self')) as [stored_score|e]; [|discriminate].
  destruct (store (max_score self')) as [stored_max_score|e]; [|discriminate].
  destruct (PlacementTestResult.percentage self') as [percentage|] eqn:Ep;
    [|discriminate].
  destruct (store percentage) as [stored_percentage|e] eqn:Es;
    [|discriminate].
  intros H.
  assert (Hrow : estimated_cefr_level row = estimated_cefr_level self /\
                 PlacementTestResult.percentage row = Some stored_percentage)
    by (destruct (Str.eqb _ _); inversion H; split; reflexivity).
  destruct Hrow as [Hrl Hrp].
  split; [destruct (Str.eqb _ _); inversion H; reflexivity|].
  split; [exact Hrl|]. exists percentage. rewrite Hrp.
  split; [exact Es|]. split; [discriminate|].
  intros Hm. specialize (Hp Hm). congruence.
Qed.

(** A result of positive maximal score whose three decimals the database
    takes is stored. *)
Lemma save_succeeds store now self profile stored_score stored_max_score
    stored_percentage :
  (0 < max_score self)%Q ->
  store (score self) = Return stored_score ->
  store (max_score self) = Return stored_max_score ->
  store (score self / max_score self * 100)%Q = Return stored_percentage ->
  exists row profile', save store now self profile = Return (row, profile').
Proof.
  intros Hm Hs Hx Hp. unfold save.
  destruct (Qle_bool (max_score self) 0) eqn:E;
    [apply Qle_bool_true in E; lra|].
  cbn [negb score max_score percentage]. rewrite Hs, Hx, Hp.
  destruct (Str.eqb _ _); eexists; eexists; reflexivity.
Qed.

(** A result whose maximal score is not positive and whose percentage is
    unset is not stored, and the profile is not touched: the insertion
    raises. *)
Lemma save_without_percentage store now self profile :
  (max_score self <= 0)%Q ->
  PlacementTestResult.percentage self = None ->
  exists e, save store now self profile = Raise e.
Proof.
  intros Hm Hp. unfold save. apply Qle_bool_true in Hm. rewrite Hm.
  cbn [negb]. rewrite Hp.
  destruct (store (score self)); [|eexists; reflexivity].
  destruct (store (max_score self)); eexists; reflexivity.
Qed.

(** C8, as amended. A placement result that is stored overwrites the
    stored level of the user with the estimated band exactly when the
    declared target language of the user is the language of the test, the
    last write winning; that write saves the profile, which also refreshes
    its [updated_at] timestamp. When the languages differ the profile is
    left as it is. In both cases the user, the target and native
    languages, the learning preferences and the creation time of the
    profile are not modified. A result of positive maximal score whose
    decimals the database takes is stored; when the insertion raises, as
    it does for a result without percentage, the profile is not
    reached. *)
Theorem save_result_updates_level :
  (forall (store : Q -> result Q) (now : Z) (self row : t)
          (profile profile' : UserProfile.t),
     save store now self profile = Return (row, profile') ->
     (UserProfile.target_language profile = test_language self ->
      UserProfile.current_cefr_level profile' = estimated_cefr_level self /\
      UserProfile.updated_at profile' = now) /\
     (UserProfile.target_language profile <> test_language self ->
      profile' = profile) /\
     UserProfile.user profile' = UserProfile.user profile /\
     UserProfile.target_language profile'
     = UserProfile.target_language profile /\
     UserProfile.native_language profile'
     = UserProfile.native_language profile /\
     UserProfile.learning_preferences profile'
     = UserProfile.learning_preferences profile /\
     UserProfile.created_at profile' = UserProfile.created_at profile) /\
  (forall (store : Q -> result Q) (now : Z) (self : t)
          (profile : UserProfile.t) (stored_score stored_max_score
           stored_percentage : Q),
     (0 < max_score self)%Q ->
     store (score self) = Return stored_score ->
     store (max_score self) = Return stored_max_score ->
     store (score self / max_score self * 100)%Q = Return stored_percentage ->
     exists row profile',
       save store now self profile = Return (row, profile')) /\
  (forall (store : Q -> result Q) (now : Z) (self : t)
          (profile : UserProfile.t),
     (max_score self <= 0)%Q -> percentage self = None ->
     exists e, save store now self profile = Raise e).
Proof.
  split; [|split].
  - intros store now self row profile profile' H.
    destruct (save_returns store now self profile row profile' H) as [-> _].
    unfold Str.eqb. destruct (bool_decide _) eqn:E.
    + apply bool_decide_eq_true in E. cbn.
      repeat split; intros; solve [reflexivity | congruence].
    + apply bool_decide_eq_false in E. cbn.
      repeat split; intros; solve [reflexivity | congruence].
  - intros store now self profile s m p. apply save_succeeds.
  - intros store now self profile. apply save_without_percentage.
Qed.

Lemma save_result_updates_level_witness :
  (exists row profile',
     save Samples.format_number 5 (Samples.result_in "spanish")
       Samples.spanish_learner = Return (row, profile') /\
     UserProfile.current_cefr_level profile' = B1) /\
  (exists row,
     save Samples.format_number 5 (Samples.result_in "kazakh")
       Samples.spanish_learner = Return (row, Samples.spanish_learner)).
Proof.
  destruct save_result_updates_level as (Hlevel & Hstored & _).
  split.
  - destruct (Hstored Samples.format_number 5 (Samples.result_in "spanish")
                Samples.spanish_learner (600 # 100)%Q (1000 # 100)%Q
                (6000 # 100)%Q eq_refl eq_refl eq_refl eq_refl)
      as (row & profile' & E).
    exists row, profile'. split; [exact E|].
    apply (proj1 (Hlevel Samples.format_number 5 (Samples.result_in "spanish")
                    row Samples.spanish_learner profile' E)).
    reflexivity.
  - destruct (Hstored Samples.format_number 5 (Samples.result_in "kazakh")
                Samples.spanish_learner (600 # 100)%Q (1000 # 100)%Q
                (6000 # 100)%Q eq_refl eq_refl eq_refl eq_refl)
      as (row & profile' & E).
    exists row.
    assert (Hsame : profile' = Samples.spanish_learner).
    { apply (proj1 (proj2 (Hlevel Samples.format_number 5
                             (Samples.result_in "kazakh") row
                             Samples.spanish_learner profile' E))).
      vm_compute. discriminate. }
    rewrite <- Hsame at 2. exact E.
Defined.

(** The claim C8 as stated fails on its frame: when the languages match,
    the save of the profile changes a second field, the [auto_now]
    timestamp [updated_at] (here from 0 to the time 5 of the save). *)
Lemma save_result_touches_updated_at :
  UserProfile.target_language Samples.spanish_learner
  = test_language (Samples.result_in "spanish") /\
  UserProfile.updated_at Samples.spanish_learner = 0 /\
  exists row profile',
    save Samples.format_number 5 (Samples.result_in "spanish")
      Samples.spanish_learner = Return (row, profile') /\
    UserProfile.updated_at profile' = 5.
Proof.
  split; [reflexivity|]. split; [reflexivity|].
  eexists. eexists. split; [vm_compute; reflexivity|reflexivity].
Qed.

End PlacementResults.

(** ** The AI content gateway *)

Section GatewayFacts.

Import GeminiService.

Variable hash : string -> Z.
Variable json_dumps : gmap string json -> string.
Variable json_loads : string -> result json.
Variable provider :
  option string -> gmap string pyvalue -> string -> result string.

Lemma dumps_no_kwargs : dumps json_dumps ∅ = Return (json_dumps ∅).
Proof.
  unfold dumps. rewrite bool_decide_eq_true_2 by apply map_Forall_empty.
  rewrite omap_empty. reflexivity.
Qed.

(** Without a configured key the gateway answers [None]. *)
Lemma generate_content_without_model self prompt si use_cache kwargs cache :
  has_model self = false ->
  generate_content hash json_dumps provider self prompt si use_cache kwargs
    cache = (Return None, cache).
Proof. intros H. unfold generate_content. rewrite H. reflexivity. Qed.

(** A failure of the provider call is answered by [None]. *)
Lemma generate_content_provider_failure self prompt si kwargs cache e :
  provider (truthy si) kwargs prompt = Raise e ->
  (exists dumped, dumps json_dumps kwargs = Return dumped) ->
  generate_content hash json_dumps provider self prompt si false kwargs cache
  = (Return None, cache).
Proof.
  intros Hp [dumped Hd]. unfold generate_content, _get_cache_key.
  destruct (has_model self); [|reflexivity]. cbn [negb].
  rewrite Hd, Hp. reflexivity.
Qed.

(** Called without extra keyword arguments, as [generate_json] does,
    [generate_content] does not raise. *)
Lemma generate_content_no_kwargs_returns self prompt si use_cache cache :
  exists text,
    fst (generate_content hash json_dumps provider self prompt si use_cache ∅
           cache) = Return text.
Proof.
  unfold generate_content, _get_cache_key. rewrite dumps_no_kwargs.
  destruct (negb _); [eexists; reflexivity|].
  destruct (if use_cache then _ else _); [eexists; reflexivity|].
  destruct (provider _ _ _); eexists; reflexivity.
Qed.

(** A keyword argument that is not serialisable makes the cache key, and
    so the call, raise: the key is computed outside the [try]. *)
Lemma generate_content_raises_on_object self prompt si use_cache cache :
  has_model self = true ->
  fst (generate_content hash json_dumps provider self prompt si use_cache
         {["generation_config"%string := PyObject]} cache) = Raise TypeError.
Proof.
  intros H. unfold generate_content, _get_cache_key, dumps. rewrite H.
  rewrite bool_decide_eq_false_2; [reflexivity|].
  intros Hall. specialize (Hall "generation_config"%string PyObject).
  rewrite lookup_singleton_eq in Hall. destruct (Hall eq_refl). discriminate.
Qed.

(** A response that does not parse is answered by [None]. *)
Lemma generate_json_parse_failure self prompt si schema use_cache cache text :
  fst (generate_content hash json_dumps provider self (json_prompt prompt) si
         use_cache ∅ cache) = Return (Some text) ->
  json_loads (Str.strip (strip_fences text))
  = Raise (OtherException "JSONDecodeError") ->
  fst (generate_json hash json_dumps json_loads provider self prompt si schema
         use_cache cache) = Return None.
Proof.
  intros Hc Hl. unfold generate_json.
  destruct (generate_content _ _ _ _ _ _ _ _ _) as [r cache'].
  cbn [fst] in Hc. subst r.
  destruct (Str.is_empty text); [reflexivity|]. rewrite Hl. reflexivity.
Qed.

(** An object without a required key is answered by [None]. *)
Lemma generate_json_missing_key self prompt si sch use_cache cache text
    members key :
  fst (generate_content hash json_dumps provider self (json_prompt prompt) si
         use_cache ∅ cache) = Return (Some text) ->
  json_loads (Str.strip (strip_fences text)) = Return (JObject members) ->
  sch !! "required"%string = Some [key] ->
  existsb (fun kv : string * json => Str.eqb kv.1 key) members = false ->
  fst (generate_json hash json_dumps json_loads provider self prompt si
         (Some sch) use_cache cache) = Return None.
Proof.
  intros Hc Hl Hs Hk. unfold generate_json.
  destruct (generate_content _ _ _ _ _ _ _ _ _) as [r cache'].
  cbn [fst] in Hc. subst r.
  destruct (Str.is_empty text); [reflexivity|]. rewrite Hl.
  rewrite bool_decide_eq_false_2
    by (intros ->; rewrite lookup_empty in Hs; discriminate).
  unfold _validate_schema. rewrite Hs. cbn. rewrite Hk. reflexivity.
Qed.

(** C9, at the failing input. When the text the provider returned parses
    to a JSON scalar ([null], a boolean or a number) and the schema
    requires a key, [generate_json] does not return [None]: the membership
    test of [_validate_schema] raises a [TypeError], which the handler for
    [JSONDecodeError] does not catch, and the exception reaches the
    caller. *)
Theorem generate_json_raises_on_scalar :
  forall (self : t) (prompt : string) (si : option string)
         (sch : gmap string (list string)) (use_cache : bool)
         (cache : gmap string string) (text : string) (parsed : json)
         (key : string) (keys : list string),
    fst (generate_content hash json_dumps provider self (json_prompt prompt)
           si use_cache ∅ cache) = Return (Some text) ->
    Str.is_empty text = false ->
    json_loads (Str.strip (strip_fences text)) = Return parsed ->
    (parsed = JNull \/ (exists b, parsed = JBool b)
     \/ (exists q, parsed = JNumber q)) ->
    sch !! "required"%string = Some (key :: keys) ->
    fst (generate_json hash json_dumps json_loads provider self prompt si
           (Some sch) use_cache cache) = Raise TypeError.
Proof.
  intros self prompt si sch use_cache cache text parsed key keys
    Hc Ht Hl Hp Hs.
  unfold generate_json.
  destruct (generate_content _ _ _ _ _ _ _ _ _) as [r cache'].
  cbn [fst] in Hc. subst r. rewrite Ht, Hl.
  rewrite bool_decide_eq_false_2
    by (intros ->; rewrite lookup_empty in Hs; discriminate).
  unfold _validate_schema. rewrite Hs.
  destruct Hp as [->|[[b ->]|[q ->]]]; reflexivity.
Qed.

End GatewayFacts.

Section GatewayExamples.

Import GeminiService.

Lemma generate_json_raises_on_scalar_witness :
  fst (generate_json Samples.hash_0 Samples.dumps_braces Samples.loads_42
         Samples.provider_42 Samples.configured "Plan a roadmap" None
         (Some Samples.roadmap_schema) false ∅) = Raise TypeError.
Proof.
  apply (generate_json_raises_on_scalar Samples.hash_0 Samples.dumps_braces
           Samples.loads_42 Samples.provider_42 Samples.configured
           "Plan a roadmap" None Samples.roadmap_schema false ∅
           Samples.fenced_42 (JNumber 42) "modules" []).
  - reflexivity.
  - reflexivity.
  - reflexivity.
  - right. right. exists 42%Q. reflexivity.
  - reflexivity.
Defined.

(** The fences: a tagged and an untagged block, and a text in which the
    untagged marker follows the tagged one (both are removed). *)
Example strip_fences_tagged :
  Str.strip (strip_fences Samples.fenced_42) = "42"%string.
Proof. reflexivity. Qed.

Example strip_fences_untagged :
  Str.strip (strip_fences "```{}```") = "{}"%string.
Proof. reflexivity. Qed.

Example strip_fences_twice :
  strip_fences "```json```{}" = "{}"%string.
Proof. reflexivity. Qed.

End GatewayExamples.

(** * Further properties *)

(** ** Normalization at the two call sites *)

Section NormalizationOrder.

Import Str.

Lemma lower_char_lower_char (c : ascii) :
  lower_char (lower_char c) = lower_char c.
Proof.
  destruct c as [[] [] [] [] [] [] [] []]; vm_compute; reflexivity.
Qed.

Lemma lower_lower (s : string) : lower (lower s) = lower s.
Proof.
  induction s as [|c s IH]; [reflexivity|].
  simpl. rewrite lower_char_lower_char, IH. reflexivity.
Qed.

(** X1. The placement scorer normalizes with [.strip().lower()] and the
    task evaluator with [.lower().strip()]: the two orders give the same
    string, and normalizing a normalized string changes nothing. *)
Theorem normalization_order_irrelevant :
  forall s : string,
    strip (lower s) = lower (strip s) /\
    lower (strip (lower (strip s))) = lower (strip s) /\
    strip (lower (strip (lower s))) = strip (lower s).
Proof.
  intros s. split; [apply strip_lower|]. split.
  - rewrite (strip_lower (strip s)), strip_strip, lower_lower. reflexivity.
  - rewrite (strip_lower s), lower_lower, (strip_lower (strip s)), strip_strip.
    reflexivity.
Qed.

End NormalizationOrder.

(** ** The matcher: size of the matching blocks *)

Section MatcherSizes.

Import SequenceMatcher MatcherBounds.

Variables a b : list ascii.

Lemma scan_row_in_b i blo bhi j2len idxs best newj2len :
  runs_in_b blo bhi j2len ->
  best_in_b blo bhi best ->
  runs_in_b blo bhi newj2len ->
  let '(best', newj2len') :=
    scan_row i blo bhi j2len idxs (best, newj2len) in
  best_in_b blo bhi best' /\ runs_in_b blo bhi newj2len'.
Proof.
  intros Hj. revert best newj2len.
  induction idxs as [|j rest IH]; intros [[besti bestj] bestsize] newj2len
    Hbest Hnew.
  - cbn [scan_row]. split; assumption.
  - cbn [scan_row]. destruct (j <? blo) eqn:Elo; [apply IH; assumption|].
    destruct (bhi <=? j) eqn:Ehi; [split; assumption|].
    apply Z.ltb_ge in Elo. apply Z.leb_gt in Ehi.
    set (k := default 0 (j2len !! (j - 1)) + 1).
    assert (Hk : k <= j - blo + 1).
    { subst k. destruct (j2len !! (j - 1)) as [v|] eqn:E; simpl.
      - destruct (Hj _ _ E) as [_ Hv]. unfold id. lia.
      - lia. }
    assert (Hnew' : runs_in_b blo bhi (<[j := k]> newj2len)).
    { intros j' v. rewrite lookup_insert. destruct (decide (j = j')).
      - intros [= <-]. subst j'. split; [lia|exact Hk].
      - apply Hnew. }
    destruct (bestsize <? k).
    + apply IH; [|exact Hnew']. unfold best_in_b. lia.
    + apply IH; [exact Hbest|exact Hnew'].
Qed.

Lemma scan_rows_in_b blo bhi (rows : list Z) :
  forall best j2len,
    best_in_b blo bhi best ->
    runs_in_b blo bhi j2len ->
    best_in_b blo bhi
      (fst (fold_left
              (fun (st : Z * Z * Z * gmap Z Z) (i : Z) =>
                 let '(best, j2len) := st in
                 scan_row i blo bhi j2len (default [] (b2j b !! item a i))
                   (best, ∅))
              rows (best, j2len))).
Proof.
  induction rows as [|i rows IH]; intros best j2len Hbest Hj;
    [exact Hbest|].
  cbn [fold_left].
  assert (Hempty : runs_in_b blo bhi ∅).
  { intros j v. rewrite lookup_empty. discriminate. }
  pose proof (scan_row_in_b i blo bhi j2len
                (default [] (b2j b !! item a i)) best ∅ Hj Hbest Hempty)
    as Hrow.
  destruct (scan_row _ _ _ _ _ _) as [best' newj2len'].
  destruct Hrow as [Hb' Hj']. apply IH; assumption.
Qed.

Lemma extend_left_in_b fuel alo blo bhi besti bestj bestsize :
  best_in_b blo bhi (besti, bestj, bestsize) ->
  best_in_b blo bhi (extend_left a b fuel alo blo besti bestj bestsize).
Proof.
  revert besti bestj bestsize.
  induction fuel as [|fuel IH]; intros besti bestj bestsize H;
    cbn [extend_left]; [exact H|].
  destruct (_ && _) eqn:E; [|exact H].
  apply andb_true_iff in E. destruct E as [E _].
  apply andb_true_iff in E. destruct E as [_ E]. apply Z.ltb_lt in E.
  apply IH. unfold best_in_b in *. lia.
Qed.

Lemma extend_right_in_b fuel ahi blo bhi besti bestj bestsize :
  best_in_b blo bhi (besti, bestj, bestsize) ->
  best_in_b blo bhi (extend_right a b fuel ahi bhi besti bestj bestsize).
Proof.
  revert bestsize.
  induction fuel as [|fuel IH]; intros bestsize H;
    cbn [extend_right]; [exact H|].
  destruct (_ && _) eqn:E; [|exact H].
  apply andb_true_iff in E. destruct E as [E _].
  apply andb_true_iff in E. destruct E as [_ E]. apply Z.ltb_lt in E.
  apply IH. unfold best_in_b in *. lia.
Qed.

Lemma find_longest_match_in_b alo ahi blo bhi :
  blo <= bhi ->
  let '(i, j, k) := find_longest_match a b alo ahi blo bhi in
  blo <= j /\ j + k <= bhi.
Proof.
  intros H. unfold find_longest_match, scan.
  pose proof (scan_rows_in_b blo bhi (seqZ alo (ahi - alo)) (alo, blo, 0) ∅)
    as Hs.
  destruct (fst _) as [[besti bestj] bestsize].
  assert (Hs' : best_in_b blo bhi (besti, bestj, bestsize)).
  { apply Hs; [unfold best_in_b; lia|].
    intros j v. rewrite lookup_empty. discriminate. }
  pose proof (extend_left_in_b (Z.to_nat (besti - alo)) alo blo bhi _ _ _ Hs')
    as Hl.
  destruct (extend_left _ _ _ _ _ _ _ _) as [[besti' bestj'] bestsize'].
  pose proof (extend_right_in_b (Z.to_nat (ahi - (besti' + bestsize')))
                ahi blo bhi _ _ _ Hl) as Hr.
  destruct (extend_right _ _ _ _ _ _ _ _) as [[i j] k].
  exact Hr.
Qed.

(** The blocks found in a range fit in the range, on both sides. *)
Lemma matching_bounds fuel :
  forall alo ahi blo bhi,
    alo <= ahi -> blo <= bhi ->
    0 <= matching a b fuel alo ahi blo bhi
    /\ matching a b fuel alo ahi blo bhi <= ahi - alo
    /\ matching a b fuel alo ahi blo bhi <= bhi - blo.
Proof.
  induction fuel as [|fuel IH]; intros alo ahi blo bhi Ha Hb;
    cbn [matching]; [lia|].
  pose proof (find_longest_match_within a b alo ahi blo bhi Ha) as Hwa.
  pose proof (find_longest_match_in_b alo ahi blo bhi Hb) as Hwb.
  destruct (find_longest_match a b alo ahi blo bhi) as [[i j] k].
  destruct (k =? 0); [lia|].
  assert (Hl : 0 <= (if (alo <? i) && (blo <? j)
                     then matching a b fuel alo i blo j else 0)
               /\ (if (alo <? i) && (blo <? j)
                   then matching a b fuel alo i blo j else 0) <= i - alo
               /\ (if (alo <? i) && (blo <? j)
                   then matching a b fuel alo i blo j else 0) <= j - blo).
  { destruct ((alo <? i) && (blo <? j)); [apply IH; lia|lia]. }
  assert (Hr : 0 <= (if (i + k <? ahi) && (j + k <? bhi)
                     then matching a b fuel (i + k) ahi (j + k) bhi else 0)
               /\ (if (i + k <? ahi) && (j + k <? bhi)
                   then matching a b fuel (i + k) ahi (j + k) bhi else 0)
                  <= ahi - (i + k)
               /\ (if (i + k <? ahi) && (j + k <? bhi)
                   then matching a b fuel (i + k) ahi (j + k) bhi else 0)
                  <= bhi - (j + k)).
  { destruct ((i + k <? ahi) && (j + k <? bhi)); [apply IH; lia|lia]. }
  lia.
Qed.

End MatcherSizes.

Section MatcherRatio.

Import SequenceMatcher.

(** X2. The similarity that [SequenceMatcher(None, a, b).ratio()] returns
    lies between 0 and 1 for all strings: the matching blocks hold at most
    as many characters as the shorter string has. *)
Theorem ratio_between_0_and_1 :
  forall a b : list ascii,
    0 <= matches a b /\ matches a b <= len a /\ matches a b <= len b /\
    (0 <= ratio a b)%Q /\ (ratio a b <= 1)%Q.
Proof.
  intros a b.
  assert (Hm : 0 <= matches a b /\ matches a b <= len a - 0
               /\ matches a b <= len b - 0)
    by (apply matching_bounds; unfold len; lia).
  destruct Hm as (H0 & Ha & Hb).
  split; [exact H0|]. split; [lia|]. split; [lia|].
  unfold ratio. destruct (_ =? 0) eqn:E; [split; discriminate|].
  apply Z.eqb_neq in E.
  assert (Hpos : 0 < len a + len b) by (unfold len in *; lia).
  assert (HposQ : (0 < inject_Z (len a + len b))%Q)
    by (rewrite <- (Zlt_Qlt 0); exact Hpos).
  split.
  - apply Qle_shift_div_l; [exact HposQ|]. rewrite Qmult_0_l.
    rewrite <- (inject_Z_mult 2). rewrite <- (Zle_Qle 0). lia.
  - apply Qle_shift_div_r; [exact HposQ|]. rewrite Qmult_1_l.
    rewrite <- (inject_Z_mult 2). rewrite <- Zle_Qle. lia.
Qed.

End MatcherRatio.

(** ** Placement scoring: what the result depends on *)

Section ScoringDependencies.

Import PlacementTestItem PlacementTestSubmitView.

Lemma sum_permutation (l l' : list Q) :
  Permutation l l' ->
  (fold_right Qplus 0 l == fold_right Qplus 0 l')%Q.
Proof.
  induction 1 as [|x l l' _ IH|x y l|l l' l'' _ IH1 _ IH2]; simpl.
  - reflexivity.
  - rewrite IH. reflexivity.
  - ring.
  - rewrite IH1. exact IH2.
Qed.

Lemma total_weight_permutation items items' :
  Permutation items items' ->
  (total_weight items == total_weight items')%Q.
Proof.
  intros H. unfold total_weight. apply sum_permutation.
  apply Permutation_map. exact H.
Qed.

Lemma filter_permutation {A} (f : A -> bool) (l l' : list A) :
  Permutation l l' -> Permutation (List.filter f l) (List.filter f l').
Proof.
  induction 1 as [|x l l' _ IH|x y l|l l' l'' _ IH1 _ IH2]; simpl.
  - constructor.
  - destruct (f x); [constructor|]; exact IH.
  - destruct (f x), (f y); try reflexivity. constructor.
  - etransitivity; eassumption.
Qed.

Lemma accepted_weight_permutation answers items items' :
  Permutation items items' ->
  (accepted_weight answers items == accepted_weight answers items')%Q.
Proof.
  intros H. unfold accepted_weight. apply sum_permutation.
  apply Permutation_map, filter_permutation. exact H.
Qed.

Lemma percentage_of_compat (s s' m m' : Q) :
  (s == s')%Q -> (m == m')%Q ->
  (percentage_of s m == percentage_of s' m')%Q.
Proof.
  intros Hs Hm. unfold percentage_of.
  rewrite (Qleb_comp m m' Hm 0%Q 0%Q (Qeq_refl 0%Q)).
  destruct (negb _); [|reflexivity]. rewrite Hs, Hm. reflexivity.
Qed.

(** The three results in terms of the weights. *)
Lemma calculate_results_sums items answers :
  let '(score, max_score, band) := _calculate_results items answers in
  (score == accepted_weight answers items)%Q /\
  (max_score == total_weight items)%Q /\
  band = _percentage_to_cefr
           (percentage_of (accepted_weight answers items)
              (total_weight items)).
Proof.
  unfold _calculate_results.
  pose proof (fold_score_item answers items 0%Q 0%Q) as H.
  destruct (fold_left _ _ _) as [score max_score]. destruct H as [Hs Hm].
  assert (Hs' : (score == accepted_weight answers items)%Q)
    by (rewrite Hs; ring).
  assert (Hm' : (max_score == total_weight items)%Q) by (rewrite Hm; ring).
  repeat split; try assumption.
  apply percentage_to_cefr_compat, percentage_of_compat; assumption.
Qed.

(** X3. The result of the scorer does not depend on the order in which
    the items of the test are visited: for two orders of the same items
    the score, the maximal score and the band are the same. *)
Theorem calculate_results_any_order :
  forall (items items' : list PlacementTestItem.t)
         (answers : gmap string string),
    Permutation items items' ->
    let '(score, max_score, band) := _calculate_results items answers in
    let '(score', max_score', band') := _calculate_results items' answers in
    (score == score')%Q /\ (max_score == max_score')%Q /\ band = band'.
Proof.
  intros items items' answers Hp.
  pose proof (calculate_results_sums items answers) as H.
  pose proof (calculate_results_sums items' answers) as H'.
  destruct (_calculate_results items answers) as [[s m] l].
  destruct (_calculate_results items' answers) as [[s' m'] l'].
  destruct H as (Hs & Hm & Hl). destruct H' as (Hs' & Hm' & Hl').
  pose proof (accepted_weight_permutation answers _ _ Hp) as Ha.
  pose proof (total_weight_permutation _ _ Hp) as Ht.
  split; [rewrite Hs, Hs'; exact Ha|].
  split; [rewrite Hm, Hm'; exact Ht|].
  rewrite Hl, Hl'.
  apply percentage_to_cefr_compat, percentage_of_compat; assumption.
Qed.

Lemma calculate_results_any_order_witness :
  let '(score, max_score, band) :=
    _calculate_results Samples.three_items Samples.three_answers in
  let '(score', max_score', band') :=
    _calculate_results (rev Samples.three_items) Samples.three_answers in
  (score == score')%Q /\ (max_score == max_score')%Q /\ band = band'.
Proof.
  apply (calculate_results_any_order Samples.three_items
           (rev Samples.three_items) Samples.three_answers).
  apply Permutation_rev.
Defined.

Lemma fold_score_item_agree answers answers' items :
  Forall (fun it => answers !! pretty (id it) = answers' !! pretty (id it))
    items ->
  forall acc,
    fold_left (score_item answers) items acc
    = fold_left (score_item answers') items acc.
Proof.
  induction 1 as [|it items Hit _ IH]; intros acc; [reflexivity|].
  cbn [fold_left].
  assert (E : score_item answers acc it = score_item answers' acc it).
  { unfold score_item, user_answer_of. rewrite Hit. reflexivity. }
  rewrite E. apply IH.
Qed.

(** X4. The scorer reads the answer map only at the keys [str(item.id)]
    of the items of the test: two answer maps that agree on these keys
    give the same result, whatever other keys they hold (answers to
    unknown items, or to keys such as "01", are ignored). *)
Theorem calculate_results_reads_item_keys :
  forall (items : list PlacementTestItem.t)
         (answers answers' : gmap string string),
    Forall (fun it => answers !! pretty (id it) = answers' !! pretty (id it))
      items ->
    _calculate_results items answers = _calculate_results items answers'.
Proof.
  intros items answers answers' H. unfold _calculate_results.
  rewrite (fold_score_item_agree answers answers' items H). reflexivity.
Qed.

Lemma calculate_results_reads_item_keys_witness :
  _calculate_results Samples.three_items Samples.three_answers
  = _calculate_results Samples.three_items
      (<["01" := "Paris"]> (<["99" := "x"]> Samples.three_answers))%string.
Proof.
  apply (calculate_results_reads_item_keys Samples.three_items).
  repeat constructor.
Defined.

Lemma accepted_weight_mono answers answers' items :
  Forall (fun it => (0 <= difficulty_weight it)%Q) items ->
  Forall (fun it => accepted answers it = true -> accepted answers' it = true)
    items ->
  (accepted_weight answers items <= accepted_weight answers' items)%Q.
Proof.
  unfold accepted_weight.
  induction 1 as [|it items Hw _ IH]; intros Hacc; [apply Qle_refl|].
  apply Forall_cons in Hacc. destruct Hacc as [Hit Hacc].
  specialize (IH Hacc). cbn [List.filter].
  destruct (accepted answers it) eqn:E.
  - rewrite (Hit eq_refl). cbn [map fold_right]. lra.
  - destruct (accepted answers' it); cbn [map fold_right]; lra.
Qed.

Lemma total_weight_nonneg items :
  Forall (fun it => (0 <= difficulty_weight it)%Q) items ->
  (0 <= total_weight items)%Q.
Proof.
  unfold total_weight. induction 1 as [|it items Hw _ IH]; simpl; lra.
Qed.

Lemma percentage_of_mono (s s' m : Q) :
  (s <= s')%Q -> (percentage_of s m <= percentage_of s' m)%Q.
Proof.
  intros H. unfold percentage_of.
  destruct (Qle_bool m 0) eqn:E; cbn [negb]; [apply Qle_refl|].
  apply Qle_bool_false in E. unfold Qdiv.
  apply Qmult_le_compat_r; [|discriminate].
  apply Qmult_le_compat_r; [exact H|].
  apply Qlt_le_weak, Qinv_lt_0_compat. exact E.
Qed.

(** X5. With non-negative weights, getting more items right never costs
    points nor lowers the band: if every item accepted under one answer
    map is accepted under another, the second score is at least the first
    and the second band is at least the first. *)
Theorem calculate_results_monotone :
  forall (items : list PlacementTestItem.t)
         (answers answers' : gmap string string),
    Forall (fun it => (0 <= difficulty_weight it)%Q) items ->
    Forall (fun it => accepted answers it = true -> accepted answers' it = true)
      items ->
    let '(score, max_score, band) := _calculate_results items answers in
    let '(score', max_score', band') := _calculate_results items answers' in
    (score <= score')%Q /\ cefr_le band band'.
Proof.
  intros items answers answers' Hw Hacc.
  pose proof (calculate_results_sums items answers) as H.
  pose proof (calculate_results_sums items answers') as H'.
  destruct (_calculate_results items answers) as [[s m] l].
  destruct (_calculate_results items answers') as [[s' m'] l'].
  destruct H as (Hs & _ & Hl). destruct H' as (Hs' & _ & Hl').
  pose proof (accepted_weight_mono answers answers' items Hw Hacc) as Hle.
  split; [rewrite Hs, Hs'; exact Hle|].
  rewrite Hl, Hl'. apply percentage_to_cefr_mono, percentage_of_mono.
  exact Hle.
Qed.

Lemma calculate_results_monotone_witness :
  let '(score, max_score, band) :=
    _calculate_results Samples.three_items ∅ in
  let '(score', max_score', band') :=
    _calculate_results Samples.three_items Samples.three_answers in
  (score <= score')%Q /\ cefr_le band band'.
Proof.
  apply (calculate_results_monotone Samples.three_items ∅
           Samples.three_answers).
  - repeat constructor; vm_compute; discriminate.
  - repeat constructor; rewrite accepted_empty; discriminate.
Defined.

(** X6. The placement evaluator accepts an answer exactly when the kind
    of the item is one of the three known kinds and the normalized answer
    is the normalized correct answer and is not empty. So an item of an
    unknown kind, or whose correct answer is blank, is never scored,
    whatever is answered. *)
Theorem accepted_exactly :
  forall (answers : gmap string string) (it : PlacementTestItem.t),
    accepted answers it = true <->
    (item_type it = "multiple_choice" \/ item_type it = "cloze"
     \/ item_type it = "translation")%string /\
    user_answer_of answers it = correct_answer_of it /\
    correct_answer_of it <> ""%string.
Proof.
  intros answers it. unfold accepted, _validate_answer, Str.eqb.
  destruct (user_answer_of answers it) as [|c u] eqn:Eu; cbn [Str.is_empty].
  - split; [discriminate|]. intros (_ & E & Hne). congruence.
  - assert (Hne : String c u = correct_answer_of it ->
                  correct_answer_of it <> ""%string)
      by (intros <-; discriminate).
    repeat case_bool_decide; split; try discriminate; try tauto;
      intros (Hk & E & _); tauto.
Qed.

Lemma accepted_weight_all answers items :
  Forall (fun it => accepted answers it = true) items ->
  accepted_weight answers items = total_weight items.
Proof.
  unfold accepted_weight, total_weight.
  induction 1 as [|it items Hit _ IH]; [reflexivity|].
  cbn [List.filter]. rewrite Hit. cbn [map fold_right]. rewrite IH.
  reflexivity.
Qed.

(** X7. When every item of a test of positive total weight is answered
    acceptably, the score is the maximal score and the band is C2, the
    weights being of any sign. *)
Theorem calculate_results_full_marks :
  forall (items : list PlacementTestItem.t) (answers : gmap string string),
    Forall (fun it => accepted answers it = true) items ->
    (0 < total_weight items)%Q ->
    let '(score, max_score, band) := _calculate_results items answers in
    (score == max_score)%Q /\ band = C2.
Proof.
  intros items answers Hall HW.
  pose proof (calculate_results_sums items answers) as H.
  destruct (_calculate_results items answers) as [[s m] l].
  destruct H as (Hs & Hm & Hl).
  rewrite (accepted_weight_all answers items Hall) in Hs, Hl.
  split; [rewrite Hs, Hm; reflexivity|].
  rewrite Hl. rewrite percentage_of_positive by exact HW.
  apply (percentage_to_cefr_compat _ 100%Q). field. lra.
Qed.

Lemma calculate_results_full_marks_witness :
  let '(score, max_score, band) :=
    _calculate_results Samples.three_items
      {["1" := "paris"; "2" := "Went"; "3" := " hello"]}%string in
  (score == max_score)%Q /\ band = C2.
Proof.
  apply (calculate_results_full_marks Samples.three_items).
  - repeat constructor.
  - reflexivity.
Defined.

End ScoringDependencies.

(** ** The scorer and the stored result *)

Section StoredResult.

Import PlacementTestSubmitView.

(** Rounding to the nearest whole number, a half going to the even
    neighbour, keeps the order. *)
Lemma round_half_even_mono (p q : Q) :
  (p <= q)%Q -> Samples.round_half_even p <= Samples.round_half_even q.
Proof.
  intros Hpq. unfold Samples.round_half_even. cbv zeta.
  pose proof (Qfloor_resp_le p q Hpq) as Hf.
  pose proof (Qfloor_le p) as Hp0. pose proof (Qlt_floor p) as Hp1.
  pose proof (Qfloor_le q) as Hq0. pose proof (Qlt_floor q) as Hq1.
  destruct (Z.eq_dec (Qfloor p) (Qfloor q)) as [E|E].
  - rewrite E in *.
    destruct (Qcompare_spec (p - inject_Z (Qfloor q)) (1 # 2)) as [Cp|Cp|Cp];
      destruct (Qcompare_spec (q - inject_Z (Qfloor q)) (1 # 2)) as [Cq|Cq|Cq];
      try destruct (Z.even (Qfloor q)); try lia; exfalso; lra.
  - destruct (p - inject_Z (Qfloor p) ?= 1 # 2)%Q;
      destruct (q - inject_Z (Qfloor q) ?= 1 # 2)%Q;
      try destruct (Z.even (Qfloor p)); try destruct (Z.even (Qfloor q));
      lia.
Qed.

(** So does the quantization to two places, where it succeeds. *)
Lemma format_number_mono (p q p' q' : Q) :
  (p <= q)%Q ->
  Samples.format_number p = Return p' ->
  Samples.format_number q = Return q' ->
  (p' <= q')%Q.
Proof.
  intros Hpq. unfold Samples.format_number. cbv zeta.
  assert (Hr : Samples.round_half_even (p * 100)
               <= Samples.round_half_even (q * 100))
    by (apply round_half_even_mono; lra).
  destruct (Z.abs _ <? 100000); [|discriminate].
  destruct (Z.abs _ <? 100000); [|discriminate].
  intros Hp Hq. injection Hp as <-. injection Hq as <-.
  rewrite Zle_Qle in Hr. apply Qmult_le_compat_r; [exact Hr|].
  discriminate.
Qed.

(** The band bounds have two decimal places and are stored as they are. *)
Lemma format_number_bounds (bound : Q) :
  In bound [20; 35; 50; 65; 80; 90]%Q ->
  exists kept, Samples.format_number bound = Return kept /\ (kept == bound)%Q.
Proof.
  simpl.
  intros [<- | [<- | [<- | [<- | [<- | [<- | []]]]]]];
    (eexists; split; [vm_compute; reflexivity|reflexivity]).
Qed.

(** The band of a percentage that is not above the band bounds another
    percentage stays under is not above that one's band. *)
Lemma band_of_stored (p stored : Q) :
  (forall bound, In bound [20; 35; 50; 65; 80; 90]%Q ->
                 (p <= bound)%Q -> (stored <= bound)%Q) ->
  cefr_le (_percentage_to_cefr stored) (_percentage_to_cefr p).
Proof.
  intros H.
  assert (H20 := H 20%Q ltac:(simpl; tauto)).
  assert (H35 := H 35%Q ltac:(simpl; tauto)).
  assert (H50 := H 50%Q ltac:(simpl; tauto)).
  assert (H65 := H 65%Q ltac:(simpl; tauto)).
  assert (H80 := H 80%Q ltac:(simpl; tauto)).
  assert (H90 := H 90%Q ltac:(simpl; tauto)).
  clear H. unfold cefr_le.
  band_cases; simpl; try lia; exfalso;
    repeat match goal with
    | Hb : (p <= ?b)%Q -> _, Hp : (p <= ?b)%Q |- _ => specialize (Hb Hp)
    end; lra.
Qed.

(** X8. When [PlacementTestResult.save] stores a result built from the
    scorer's values, the maximal score was positive, the stored band is the
    scorer's, that is the band of the percentage before it is stored, and
    the stored percentage is what the decimal column makes of that
    percentage. For a column that keeps the order of the values and keeps
    the band bounds 20, 35, 50, 65, 80 and 90, the band of the stored
    percentage is never above the stored band; it can be below it, as the
    example after the theorem shows. *)
Theorem stored_band_and_stored_percentage :
  forall (store : Q -> result Q),
    (forall p q p' q' : Q,
        (p <= q)%Q -> store p = Return p' -> store q = Return q' ->
        (p' <= q')%Q) ->
    (forall bound : Q,
        In bound [20; 35; 50; 65; 80; 90]%Q ->
        exists kept, store bound = Return kept /\ (kept == bound)%Q) ->
    forall (now user : Z) (test_language : string)
           (items : list PlacementTestItem.t) (answers : gmap string string)
           (profile : UserProfile.t) (row : PlacementTestResult.t)
           (profile' : UserProfile.t),
      PlacementTestResult.save store now
        (PlacementSubmission.new_result user test_language
           (_calculate_results items answers) answers) profile
      = Return (row, profile') ->
      let '(score, max_score, band) := _calculate_results items answers in
      (0 < max_score)%Q /\
      PlacementTestResult.estimated_cefr_level row = band /\
      band = _percentage_to_cefr (percentage_of score max_score) /\
      exists stored,
        PlacementTestResult.percentage row = Some stored /\
        store (percentage_of score max_score) = Return stored /\
        cefr_le (_percentage_to_cefr stored)
          (PlacementTestResult.estimated_cefr_level row).
Proof.
  intros store Hmono Hbounds now user lang items answers profile row profile'.
  unfold _calculate_results.
  destruct (fold_left _ _ _) as [score max_score].
  cbn [PlacementSubmission.new_result]. intros Hsave.
  assert (Hm : (0 < max_score)%Q).
  { destruct (Qle_bool max_score 0) eqn:E;
      [|apply Qle_bool_false in E; exact E].
    exfalso. apply Qle_bool_true in E.
    match type of Hsave with
    | PlacementTestResult.save _ _ ?self _ = _ =>
        destruct (save_without_percentage store now self profile E eq_refl)
          as [e He]
    end.
    rewrite Hsave in He. discriminate. }
  destruct (save_returns _ _ _ _ _ _ Hsave)
    as (_ & Hlevel & percentage & Hstore & Hsome & Hpct).
  cbn [PlacementTestResult.estimated_cefr_level
       PlacementTestResult.max_score PlacementTestResult.score] in *.
  specialize (Hpct Hm). subst percentage.
  rewrite <- (percentage_of_positive score max_score Hm) in Hstore.
  split; [exact Hm|]. split; [exact Hlevel|]. split; [reflexivity|].
  destruct (PlacementTestResult.percentage row) as [stored|];
    [|congruence].
  simpl in Hstore. exists stored.
  split; [reflexivity|]. split; [exact Hstore|].
  rewrite Hlevel. apply band_of_stored. intros bound Hin Hle.
  destruct (Hbounds bound Hin) as (kept & Hkept & Heq).
  rewrite <- Heq. exact (Hmono _ _ _ _ Hle Hstore Hkept).
Qed.

(** Three of nine answers right, 6.99 of 19.97: the percentage is
    35.0025..., band A2, which is the stored band, while the column of two
    decimal places holds 35.00, whose band is A1. *)
Lemma stored_band_and_stored_percentage_witness :
  exists row profile',
    PlacementTestResult.save Samples.format_number 5
      (PlacementSubmission.new_result 7 "spanish"
         (_calculate_results Samples.nine_items Samples.nine_answers)
         Samples.nine_answers) Samples.spanish_learner
    = Return (row, profile') /\
    PlacementTestResult.estimated_cefr_level row = A2 /\
    PlacementTestResult.percentage row = Some (3500 # 100) /\
    _percentage_to_cefr (3500 # 100) = A1 /\
    cefr_le (_percentage_to_cefr (3500 # 100))
      (PlacementTestResult.estimated_cefr_level row).
Proof.
  destruct (PlacementTestResult.save Samples.format_number 5
              (PlacementSubmission.new_result 7 "spanish"
                 (_calculate_results Samples.nine_items Samples.nine_answers)
                 Samples.nine_answers) Samples.spanish_learner)
    as [[row profile']|e] eqn:Hsave; [|vm_compute in Hsave; discriminate].
  pose proof (stored_band_and_stored_percentage Samples.format_number
                format_number_mono format_number_bounds 5 7 "spanish"
                Samples.nine_items Samples.nine_answers
                Samples.spanish_learner row profile' Hsave) as H.
  assert (Hrow := Hsave). vm_compute in Hrow. injection Hrow as <- <-.
  eexists; eexists. split; [reflexivity|].
  destruct (_calculate_results Samples.nine_items Samples.nine_answers)
    as [[score max_score] band].
  destruct H as (_ & _ & _ & stored & Hstored & _ & Hle).
  injection Hstored as <-.
  split; [reflexivity|]. split; [reflexivity|]. split; [reflexivity|].
  exact Hle.
Defined.

End StoredResult.

(** ** The accuracy threshold of a checkpoint *)

Section CheckpointThreshold.

Import LearningModule.

Lemma accuracy_of_range db :
  0 <= correct_count db <= total_attempts db ->
  (0 <= accuracy_of db <= 100)%Q.
Proof.
  intros [H0 H1]. unfold accuracy_of.
  destruct (0 <? total_attempts db) eqn:E; [|split; discriminate].
  apply Z.ltb_lt in E.
  assert (Ht : (0 < inject_Z (total_attempts db))%Q)
    by (rewrite (Zlt_Qlt 0) in E; exact E).
  assert (Hc0 : (0 <= inject_Z (correct_count db))%Q)
    by (rewrite (Zle_Qle 0) in H0; exact H0).
  assert (Hc1 : (inject_Z (correct_count db)
                 <= inject_Z (total_attempts db))%Q)
    by (rewrite Zle_Qle in H1; exact H1).
  assert (Hq0 : (0 <= inject_Z (correct_count db)
                      / inject_Z (total_attempts db))%Q)
    by (apply Qle_shift_div_l; [exact Ht|lra]).
  assert (Hq1 : (inject_Z (correct_count db)
                 / inject_Z (total_attempts db) <= 1)%Q)
    by (apply Qle_shift_div_r; [exact Ht|lra]).
  split; lra.
Qed.

(** X9. The accuracy threshold of a checkpoint is a fraction: it is
    multiplied by 100 and compared with an accuracy between 0 and 100.
    So a module whose threshold is above 1 (a percentage such as 85), or
    whose criteria do not give the key (the default is 85), is never
    completed, whatever the attempts of the learner are. *)
Theorem check_completion_threshold_above_1 :
  forall (db : stats) (now : Z) (self : t),
    0 <= correct_count db <= total_attempts db ->
    (1 < get (checkpoint_criteria self) "accuracy_threshold" 85)%Q ->
    check_completion db now self = (false, self).
Proof.
  intros db now self Hdb Ht. unfold check_completion.
  destruct (no_criteria _); [reflexivity|].
  destruct (negb (tasks_exist db)); [reflexivity|].
  assert (E : criteria_met (checkpoint_criteria self) db = false).
  { unfold criteria_met. apply andb_false_iff. right.
    apply Qle_bool_false. pose proof (accuracy_of_range db Hdb). lra. }
  rewrite E. reflexivity.
Qed.

Lemma check_completion_threshold_above_1_witness :
  check_completion
    {| tasks_exist := true; completed_tasks := 50; correct_count := 200;
       total_attempts := 200 |} 9
    {| checkpoint_criteria := Some {["min_tasks_completed"%string := 5%Q]};
       is_completed := false; completed_at := None |}
  = (false,
     {| checkpoint_criteria := Some {["min_tasks_completed"%string := 5%Q]};
        is_completed := false; completed_at := None |}).
Proof.
  apply (check_completion_threshold_above_1
           {| tasks_exist := true; completed_tasks := 50;
              correct_count := 200; total_attempts := 200 |}).
  - cbn. lia.
  - vm_compute. reflexivity.
Defined.

End CheckpointThreshold.

(** ** Streaks and XP over several days *)

Section StreakRuns.

Import GamificationProfile Activity.

Lemma update_streak_step d l self :
  last_activity_date self = Some l ->
  1 <= current_streak_days self <= longest_streak_days self ->
  let self' := update_streak d (Some d) self in
  1 <= current_streak_days self' <= longest_streak_days self' /\
  longest_streak_days self'
  = Z.max (longest_streak_days self) (current_streak_days self') /\
  last_activity_date self' = Some d.
Proof.
  intros Hl Hinv. unfold update_streak. rewrite Hl. simpl. unfold id.
  destruct (d - l =? 0); [cbn; repeat split; lia|].
  destruct (d - l =? 1); [|cbn; repeat split; lia].
  cbn [set_current_streak_days longest_streak_days current_streak_days].
  destruct (longest_streak_days self <? current_streak_days self + 1) eqn:E;
    [apply Z.ltb_lt in E|apply Z.ltb_ge in E]; cbn; repeat split; lia.
Qed.

Lemma run_streak_peak dates :
  forall self l,
    last_activity_date self = Some l ->
    1 <= current_streak_days self <= longest_streak_days self ->
    let '(seen, final) := run_streak dates self in
    longest_streak_days final = Z.max (longest_streak_days self) (peak seen)
    /\ 1 <= current_streak_days final <= longest_streak_days final.
Proof.
  induction dates as [|d dates IH]; intros self l Hl Hinv.
  - cbn. lia.
  - cbn [run_streak].
    destruct (update_streak_step d l self Hl Hinv) as (Hinv' & Hmax & Hl').
    specialize (IH (update_streak d (Some d) self) d Hl' Hinv').
    destruct (run_streak dates _) as [seen final].
    destruct IH as [IH1 IH2]. split; [|exact IH2].
    rewrite IH1, Hmax. cbn [peak fold_right]. fold (peak seen). lia.
Qed.

(** X10. From a new profile, after any sequence of activity dates (in any
    order, with repetitions), the longest streak is the largest value the
    current streak has taken, and once there was activity the current
    streak is at least 1 and at most the longest. *)
Theorem longest_streak_is_peak :
  forall (user : Z) (dates : list Z),
    let '(seen, final) := run_streak dates (create user) in
    longest_streak_days final = peak seen /\
    (dates <> [] ->
     1 <= current_streak_days final <= longest_streak_days final).
Proof.
  intros user [|d dates].
  - cbn. split; [reflexivity|congruence].
  - cbn [run_streak].
    destruct (update_streak_first d (Some d) (create user) eq_refl)
      as [Hc Hg].
    pose proof (update_streak_frame d (Some d) (create user)) as (Hl & _).
    pose proof (run_streak_peak dates (update_streak d (Some d) (create user))
                  d Hl ltac:(lia)) as H.
    destruct (run_streak dates _) as [seen final].
    destruct H as [H1 H2]. split; [|intros _; exact H2].
    rewrite H1, Hg, Hc. reflexivity.
Qed.

Lemma run_streak_consecutive n :
  forall d self,
    last_activity_date self = Some (d - 1) ->
    current_streak_days (snd (run_streak (consecutive d n) self))
    = current_streak_days self + Z.of_nat n.
Proof.
  induction n as [|n IH]; intros d self Hl.
  - cbn. lia.
  - cbn [consecutive run_streak].
    pose proof (IH (d + 1) (update_streak d (Some d) self)) as H.
    destruct (run_streak (consecutive (d + 1) n) _) as [seen final].
    cbn [snd] in *. rewrite H.
    + unfold update_streak. rewrite Hl. simpl. unfold id.
      replace (d - (d - 1)) with 1 by lia. cbn [Z.eqb Pos.eqb].
      cbn [set_current_streak_days longest_streak_days current_streak_days].
      destruct (_ <? _); cbn; lia.
    + pose proof (update_streak_frame d (Some d) self) as (E & _).
      rewrite E. simpl. unfold id. f_equal. lia.
Qed.

(** X11. Activity on [n] consecutive days, after a gap or on a new
    profile, gives a current streak of exactly [n] days. *)
Theorem consecutive_days_streak :
  forall (self : t) (d : Z) (n : nat),
    last_activity_date self <> Some d ->
    last_activity_date self <> Some (d - 1) ->
    current_streak_days (snd (run_streak (consecutive d (S n)) self))
    = Z.of_nat (S n).
Proof.
  intros self d n H0 H1. cbn [consecutive run_streak].
  pose proof (run_streak_consecutive n (d + 1)
                (update_streak d (Some d) self)) as H.
  destruct (run_streak (consecutive (d + 1) n) _) as [seen final].
  cbn [snd] in *. rewrite H.
  - assert (E : current_streak_days (update_streak d (Some d) self) = 1).
    { unfold update_streak.
      destruct (last_activity_date self) as [l|] eqn:El; [|reflexivity].
      simpl. unfold id.
      destruct (d - l =? 0) eqn:E0;
        [apply Z.eqb_eq in E0; exfalso; apply H0; f_equal; lia|].
      destruct (d - l =? 1) eqn:E1;
        [apply Z.eqb_eq in E1; exfalso; apply H1; f_equal; lia|].
      reflexivity. }
    rewrite E. lia.
  - pose proof (update_streak_frame d (Some d) self) as (E & _).
    rewrite E. simpl. unfold id. f_equal. lia.
Qed.

Lemma consecutive_days_streak_witness :
  current_streak_days
    (snd (run_streak (consecutive 40 5)
            (snd (run_streak [20; 21; 30] (create 7))))) = 5.
Proof.
  apply (consecutive_days_streak (snd (run_streak [20; 21; 30] (create 7)))
           40 4); vm_compute; discriminate.
Defined.

Lemma history_total_insert (history : gmap Z Z) date xp :
  history_total (<[date := xp]> history)
  = xp + history_total (delete date history).
Proof.
  unfold history_total. rewrite <- (insert_delete_eq history).
  rewrite map_fold_insert_L; [reflexivity| |apply lookup_delete_eq].
  intros. lia.
Qed.

Lemma history_total_lookup (history : gmap Z Z) date :
  history_total history
  = default 0 (history !! date) + history_total (delete date history).
Proof.
  destruct (history !! date) as [xp|] eqn:E.
  - rewrite <- (insert_id history date xp E) at 1.
    apply history_total_insert.
  - rewrite delete_id by exact E. reflexivity.
Qed.

Lemma add_xp_fields today xp_amount date self :
  let self' := add_xp today xp_amount date self in
  total_xp self' = total_xp self + xp_amount /\
  xp_history self'
  = <[default today date
      := default 0 (xp_history self !! default today date) + xp_amount]>
      (xp_history self).
Proof.
  unfold add_xp. cbn [set_total_xp xp_history].
  destruct (xp_history self !! default today date); split; reflexivity.
Qed.

Lemma add_xp_all_accounts today calls :
  forall self,
    let final := add_xp_all today calls self in
    total_xp final - history_total (xp_history final)
    = total_xp self - history_total (xp_history self) /\
    forall date,
      default 0 (xp_history final !! date)
      = default 0 (xp_history self !! date) + amount_on today date calls.
Proof.
  induction calls as [|[xp_amount day] calls IH]; intros self.
  - cbn. split; [reflexivity|]. intros date. lia.
  - cbn [add_xp_all fold_left fst snd].
    specialize (IH (add_xp today xp_amount day self)).
    cbv zeta in IH. unfold add_xp_all in IH. destruct IH as [IH1 IH2].
    destruct (add_xp_fields today xp_amount day self) as [Ht Hh].
    split.
    + rewrite IH1, Ht, Hh, history_total_insert.
      rewrite (history_total_lookup (xp_history self) (default today day)).
      lia.
    + intros date. rewrite IH2, Hh. cbn [amount_on fold_right fst snd].
      fold (amount_on today date calls).
      destruct (default today day =? date) eqn:E.
      * apply Z.eqb_eq in E. rewrite E, lookup_insert_eq. simpl. unfold id.
        lia.
      * apply Z.eqb_neq in E. rewrite lookup_insert_ne by exact E. lia.
Qed.

(** X12. From a new profile, after any sequence of [add_xp] calls, the
    total XP is the sum of the daily amounts of the history, and the
    amount recorded for a date is the sum of the amounts added for that
    date. *)
Theorem add_xp_history_accounts :
  forall (user today : Z) (calls : list (Z * option Z)),
    let final := add_xp_all today calls (create user) in
    total_xp final = history_total (xp_history final) /\
    forall date : Z,
      default 0 (xp_history final !! date) = amount_on today date calls.
Proof.
  intros user today calls.
  destruct (add_xp_all_accounts today calls (create user)) as [H1 H2].
  cbv zeta. split.
  - cbn [create total_xp xp_history] in H1.
    unfold history_total at 2 in H1. rewrite map_fold_empty in H1. lia.
  - intros date. rewrite H2. cbn [create xp_history].
    rewrite lookup_empty. reflexivity.
Qed.

End StreakRuns.

(** ** What saving an attempt leaves alone *)

Section AttemptFrame.

Import TaskAttempt.

Lemma save_profile_of self profiles (user : Z) :
  let owner := TaskInstance.user (task_instance self) in
  let before := default (GamificationProfile.create user) (profiles !! user) in
  snd (save self profiles) !! user
  = if is_correct self && bool_decide (user = owner)
    then Some (GamificationProfile.set_total_xp
                 (GamificationProfile.total_xp before
                  + xp_gained (compute_xp self)) before)
    else profiles !! user.
Proof.
  cbv zeta. unfold save.
  destruct (compute_xp_fields self) as (Hi & _ & Hc).
  cbn [is_correct xp_gained]. rewrite Hc.
  destruct (update_instance_fields (compute_xp self)) as (Hu & _).
  rewrite Hu, Hi.
  destruct (is_correct self); [|reflexivity]. cbn [andb].
  unfold GamificationProfile.get_or_create.
  case_bool_decide as E.
  - subst user.
    destruct (profiles !! TaskInstance.user (task_instance self)) eqn:El;
      cbn [snd]; rewrite lookup_insert_eq; reflexivity.
  - destruct (profiles !! TaskInstance.user (task_instance self)) eqn:El;
      cbn [snd]; rewrite !lookup_insert_ne by congruence; reflexivity.
Qed.

(** X13. Saving an attempt leaves the XP history, the two streak counters
    and the last activity date of every profile as they are (a profile
    that does not exist yet counting as a new one), and it saves the
    profile of no other user than the attempt's. The XP of task attempts
    is therefore never recorded in the daily history. Nothing is said of
    the profile's other columns: the total XP of the attempt's user can
    change, and [updated_at], which the record does not hold, is refreshed
    whenever the profile is saved. *)
Theorem save_leaves_history_and_streaks :
  forall (self : t) (profiles : gmap Z GamificationProfile.t) (user : Z),
    let before :=
      default (GamificationProfile.create user) (profiles !! user) in
    let after :=
      default (GamificationProfile.create user)
        (snd (save self profiles) !! user) in
    GamificationProfile.xp_history after
    = GamificationProfile.xp_history before /\
    GamificationProfile.current_streak_days after
    = GamificationProfile.current_streak_days before /\
    GamificationProfile.longest_streak_days after
    = GamificationProfile.longest_streak_days before /\
    GamificationProfile.last_activity_date after
    = GamificationProfile.last_activity_date before /\
    (user <> TaskInstance.user (task_instance self) ->
     snd (save self profiles) !! user = profiles !! user).
Proof.
  intros self profiles user. cbv zeta.
  rewrite (save_profile_of self profiles user).
  destruct (is_correct self); cbn [andb].
  - case_bool_decide as E.
    + repeat split. intros H. contradiction.
    + repeat split.
  - repeat split.
Qed.

End AttemptFrame.

(** ** A submitted attempt, end to end *)

Section AttemptPost.

Import TaskAttemptPost.

(** X14. A submission that the serializer accepts always records today's
    activity for the user, and adds to the user's total XP 10 times the
    difficulty of the task when the answer is evaluated as correct and
    nothing otherwise. This holds whatever the state of the task instance
    is: a task already completed pays again each time it is answered
    correctly. The XP history is not changed. *)
Theorem post_awards :
  forall (today user : Z) (task_template : TaskTemplate.t) (data : string)
         (existing : option TaskInstance.t)
         (profiles : gmap Z GamificationProfile.t),
    (forall instance, existing = Some instance ->
                      TaskInstance.user instance = user /\
                      TaskInstance.template instance = task_template) ->
    match post today user task_template data existing profiles with
    | None => TaskAttemptSubmitSerializer.validate data = None
    | Some (attempt, profiles') =>
        TaskAttemptView.post_is_correct data task_template
        = Some (TaskAttempt.is_correct attempt) /\
        exists profile,
          profiles' !! user = Some profile /\
          GamificationProfile.last_activity_date profile = Some today /\
          GamificationProfile.total_xp profile
          = TaskAttempt.total_xp_of user profiles
            + (if TaskAttempt.is_correct attempt
               then 10 * TaskTemplate.difficulty_level task_template
               else 0) /\
          GamificationProfile.xp_history profile
          = GamificationProfile.xp_history
              (default (GamificationProfile.create user) (profiles !! user))
    end.
Proof.
  intros today user task_template data existing profiles Hex.
  unfold post, TaskAttemptView.post_is_correct.
  destruct (TaskAttemptSubmitSerializer.validate data) as [validated|];
    [|reflexivity].
  set (instance := get_or_create_instance user task_template existing).
  set (correct := TaskAttemptView._evaluate_answer _ _ _).
  set (attempt := TaskAttempt.new instance (Str.strip validated) correct).
  assert (Hinst : TaskInstance.user instance = user /\
                  TaskInstance.template instance = task_template).
  { unfold instance, get_or_create_instance.
    destruct existing as [i|]; [apply Hex; reflexivity|split; reflexivity]. }
  destruct Hinst as [Hu Ht].
  pose proof (save_profile_of attempt profiles user) as Hp.
  pose proof (save_attempt attempt profiles) as Ha.
  destruct (TaskAttempt.save attempt profiles) as [saved profiles1].
  cbn [fst snd] in Hp, Ha. cbv zeta in Hp.
  assert (Hc : TaskAttempt.is_correct saved = correct)
    by (rewrite Ha; reflexivity).
  unfold attempt in Hp.
  cbn [TaskAttempt.new TaskAttempt.task_instance TaskAttempt.is_correct]
    in Hp.
  rewrite Hu in Hp. rewrite bool_decide_eq_true_2 in Hp by reflexivity.
  rewrite andb_true_r in Hp.
  assert (Hxp : TaskAttempt.xp_gained
                  (TaskAttempt.compute_xp
                     (TaskAttempt.new instance (Str.strip validated) correct))
                = if correct
                  then 10 * TaskTemplate.difficulty_level task_template
                  else 0).
  { rewrite compute_xp_value.
    cbn [TaskAttempt.new TaskAttempt.is_correct TaskAttempt.xp_gained
         TaskAttempt.task_instance].
    rewrite Ht. destruct correct; reflexivity. }
  assert (Hxp1 : TaskAttempt.total_xp_of user profiles
                 = GamificationProfile.total_xp
                     (default (GamificationProfile.create user)
                        (profiles !! user)))
    by (unfold TaskAttempt.total_xp_of; destruct (profiles !! user);
        reflexivity).
  pose proof (update_streak_frame today (Some today)) as Hf.
  unfold GamificationProfile.get_or_create.
  destruct (profiles1 !! user) as [profile1|] eqn:E1; cbv beta iota;
    rewrite Hc; (split; [reflexivity|]);
    (eexists; split; [apply lookup_insert_eq|]).
  - destruct (Hf profile1) as (Hl & _ & Hx & Hh).
    rewrite Hl, Hx, Hh. split; [reflexivity|].
    destruct correct.
    + inversion Hp; subst profile1.
      cbn [GamificationProfile.set_total_xp GamificationProfile.total_xp
           GamificationProfile.xp_history].
      rewrite Ht, Hxp1. split; reflexivity.
    + rewrite <- Hp. rewrite Hxp1, <- Hp. simpl. unfold id.
      split; [lia|reflexivity].
  - destruct (Hf (GamificationProfile.create user)) as (Hl & _ & Hx & Hh).
    rewrite Hl, Hx, Hh. split; [reflexivity|].
    destruct correct; [discriminate Hp|].
    rewrite Hxp1, <- Hp. simpl. split; reflexivity.
Qed.

Lemma post_awards_witness :
  match post 30 7 Samples.medium_template " PARIS "
          (Some (TaskAttempt.task_instance
                   (fst (TaskAttempt.save Samples.correct_attempt ∅))))
          (snd (TaskAttempt.save Samples.correct_attempt ∅)) with
  | None => False
  | Some (attempt, profiles') =>
      exists profile,
        profiles' !! 7 = Some profile /\
        GamificationProfile.total_xp profile = 40
  end.
Proof.
  pose proof (post_awards 30 7 Samples.medium_template " PARIS "
                (Some (TaskAttempt.task_instance
                         (fst (TaskAttempt.save Samples.correct_attempt ∅))))
                (snd (TaskAttempt.save Samples.correct_attempt ∅))) as H.
  destruct (post _ _ _ _ _ _) as [[attempt profiles']|] eqn:E.
  - destruct H as (Hc & profile & Hl & _ & Hx & _).
    + intros instance Hi. inversion Hi. vm_compute. split; reflexivity.
    + exists profile. split; [exact Hl|]. rewrite Hx.
      assert (Ec : TaskAttempt.is_correct attempt = true).
      { assert (Es : TaskAttemptView.post_is_correct " PARIS "
                       Samples.medium_template = Some true)
          by (vm_compute; reflexivity).
        congruence. }
      rewrite Ec. vm_compute. reflexivity.
  - vm_compute in E. discriminate E.
Defined.

End AttemptPost.

(** ** The cache of the gateway *)

Section GatewayCache.

Import GeminiService.

Variable hash : string -> Z.
Variable json_dumps : gmap string json -> string.
Variable json_loads : string -> result json.

(** Two providers: the one that answers the first call, and any other
    one, standing for the provider at the time of a later call. *)
Variable provider provider' :
  option string -> gmap string pyvalue -> string -> result string.

Lemma truthy_Some (s : option string) (text : string) :
  truthy s = Some text -> s = Some text /\ Str.is_empty text = false.
Proof.
  unfold truthy. destruct s as [s'|]; [|discriminate].
  destruct (Str.is_empty s') eqn:E; [discriminate|].
  intros H. inversion H. subst. split; [reflexivity|exact E].
Qed.

Lemma truthy_nonempty (text : string) :
  Str.is_empty text = false -> truthy (Some text) = Some text.
Proof. intros H. unfold truthy. rewrite H. reflexivity. Qed.

(** A call that returned a non-empty text leaves it in the cache under
    the key of the prompt and the keyword arguments. *)
Lemma generate_content_stores self prompt si kwargs cache text :
  fst (generate_content hash json_dumps provider self prompt si true kwargs
         cache) = Return (Some text) ->
  Str.is_empty text = false ->
  has_model self = true /\
  exists key,
    _get_cache_key hash json_dumps prompt kwargs = Return key /\
    snd (generate_content hash json_dumps provider self prompt si true kwargs
           cache) !! key = Some text.
Proof.
  unfold generate_content.
  destruct (has_model self); cbn [negb]; [|discriminate].
  destruct (_get_cache_key hash json_dumps prompt kwargs) as [key|e];
    [|discriminate].
  intros H Hne. split; [reflexivity|]. exists key. split; [reflexivity|].
  revert H.
  destruct (truthy (cache !! key)) as [cached|] eqn:Ec; cbn [fst snd].
  - intros H. inversion H. subst cached.
    apply truthy_Some in Ec. exact (proj1 Ec).
  - destruct (provider (truthy si) kwargs prompt) as [result_text|e];
      cbn [fst snd]; [|discriminate].
    intros H. inversion H. subst result_text. rewrite Hne.
    cbn [andb negb]. apply lookup_insert_eq.
Qed.

(** A call on a cache that holds a non-empty text under the key returns
    it and leaves the cache as it is. *)
Lemma generate_content_hit self prompt si kwargs cache key text :
  has_model self = true ->
  _get_cache_key hash json_dumps prompt kwargs = Return key ->
  cache !! key = Some text ->
  Str.is_empty text = false ->
  generate_content hash json_dumps provider' self prompt si true kwargs cache
  = (Return (Some text), cache).
Proof.
  intros Hm Hk Hc Hne. unfold generate_content.
  rewrite Hm, Hk, Hc, (truthy_nonempty _ Hne). reflexivity.
Qed.

(** X15. With the cache in use, a call of [generate_content] that returned
    a non-empty text has left it in the cache under the key of the prompt
    and the keyword arguments, and a later call with the same prompt and
    keyword arguments (in the same process, where [hash] is the same
    function) returns that text for as long as the cache still holds the
    entry, whatever the provider would answer then and whatever system
    instruction the later call gives: the instruction is not part of the
    cache key. Once the entry is gone, because its timeout has passed or
    the cache has evicted it, the later call gets what the provider
    answers then. A call that returned [None] or an empty text leaves the
    cache as it was. *)
Theorem generate_content_replays_cache :
  forall (self : t) (prompt : string) (si si' : option string)
         (kwargs : gmap string pyvalue) (cache : gmap string string),
    let first :=
      generate_content hash json_dumps provider self prompt si true kwargs
        cache in
    (forall text,
       fst first = Return (Some text) -> Str.is_empty text = false ->
       exists key,
         _get_cache_key hash json_dumps prompt kwargs = Return key /\
         snd first !! key = Some text /\
         forall later : gmap string string,
           (later !! key = Some text ->
            generate_content hash json_dumps provider' self prompt si' true
              kwargs later = (Return (Some text), later)) /\
           (truthy (later !! key) = None ->
            fst (generate_content hash json_dumps provider' self prompt si'
                   true kwargs later)
            = match provider' (truthy si') kwargs prompt with
              | Return result_text => Return (Some result_text)
              | Raise _ => Return None
              end)) /\
    ((forall text,
        fst first = Return (Some text) -> Str.is_empty text = true) ->
     snd first = cache).
Proof.
  intros self prompt si si' kwargs cache. cbv zeta. split.
  - intros text Hf Hne.
    destruct (generate_content_stores self prompt si kwargs cache text Hf Hne)
      as (Hm & key & Hk & Hs).
    exists key. split; [exact Hk|]. split; [exact Hs|].
    intros later. split.
    + intros Hl. exact (generate_content_hit self prompt si' kwargs later key
                          text Hm Hk Hl Hne).
    + intros Hl. unfold generate_content. rewrite Hm, Hk, Hl. cbn [negb].
      destruct (provider' (truthy si') kwargs prompt); reflexivity.
  - unfold generate_content.
    destruct (negb (has_model self)); [reflexivity|].
    destruct (_get_cache_key hash json_dumps prompt kwargs) as [key|e];
      [|reflexivity].
    destruct (truthy (cache !! key)) as [cached|] eqn:Ec; [reflexivity|].
    destruct (provider (truthy si) kwargs prompt) as [result_text|e];
      cbn [fst snd]; [|reflexivity].
    intros H. rewrite (H result_text eq_refl). reflexivity.
Qed.

(** X16. The same for [generate_json], where it means that a reply which
    was not valid JSON, or which failed the schema, is replayed as well:
    once the provider has returned a non-empty text, a later call with
    the same prompt and schema gives the outcome of the first call
    ([None] and the exceptions included) without asking the provider, for
    as long as the cache still holds the text under the key of the
    prompt; the call leaves that cache as it is. *)
Theorem generate_json_replays_cache :
  forall (self : t) (prompt : string) (si si' : option string)
         (schema : option (gmap string (list string)))
         (cache : gmap string string) (text : string),
    fst (generate_content hash json_dumps provider self (json_prompt prompt)
           si true ∅ cache) = Return (Some text) ->
    Str.is_empty text = false ->
    let first :=
      generate_json hash json_dumps json_loads provider self prompt si schema
        true cache in
    exists key,
      _get_cache_key hash json_dumps (json_prompt prompt) ∅ = Return key /\
      snd first !! key = Some text /\
      forall later : gmap string string,
        later !! key = Some text ->
        generate_json hash json_dumps json_loads provider' self prompt si'
          schema true later = (fst first, later).
Proof.
  intros self prompt si si' schema cache text Hc Hne. cbv zeta.
  destruct (generate_content_stores self (json_prompt prompt) si ∅ cache text
              Hc Hne) as (Hm & key & Hk & Hs).
  exists key. split; [exact Hk|].
  assert (Hfirst :
    generate_json hash json_dumps json_loads provider self prompt si schema
      true cache
    = (fst (generate_json hash json_dumps json_loads provider' self prompt si'
              schema true {[key := text]}),
       snd (generate_content hash json_dumps provider self
              (json_prompt prompt) si true ∅ cache))).
  { unfold generate_json.
    rewrite (generate_content_hit self (json_prompt prompt) si' ∅
               {[key := text]} key text Hm Hk (lookup_singleton_eq _ _) Hne).
    destruct (generate_content hash json_dumps provider self _ si true ∅
                cache) as [r cache1].
    cbn [fst snd] in Hc |- *. subst r. rewrite Hne.
    destruct (json_loads _) as [parsed|e];
      [|destruct (is_decode_error e); reflexivity].
    destruct schema as [sch|]; [|reflexivity].
    destruct (bool_decide (sch = ∅)); [reflexivity|].
    destruct (_validate_schema parsed sch) as [[|]|e]; reflexivity. }
  rewrite Hfirst. cbn [fst snd]. split; [exact Hs|].
  intros later Hl. unfold generate_json.
  rewrite (generate_content_hit self (json_prompt prompt) si' ∅ later key
             text Hm Hk Hl Hne).
  rewrite (generate_content_hit self (json_prompt prompt) si' ∅
             {[key := text]} key text Hm Hk (lookup_singleton_eq _ _) Hne).
  rewrite Hne.
  destruct (json_loads _) as [parsed|e];
    [|destruct (is_decode_error e); reflexivity].
  destruct schema as [sch|]; [|reflexivity].
  destruct (bool_decide (sch = ∅)); [reflexivity|].
  destruct (_validate_schema parsed sch) as [[|]|e]; reflexivity.
Qed.

(** X17. Without the cache ([use_cache=False], as for dialogue replies)
    the cache is neither read nor written: the call leaves it as it is
    and its outcome does not depend on it. *)
Theorem generate_json_without_cache :
  forall (self : t) (prompt : string) (si : option string)
         (schema : option (gmap string (list string)))
         (cache : gmap string string),
    generate_json hash json_dumps json_loads provider self prompt si schema
      false cache
    = (fst (generate_json hash json_dumps json_loads provider self prompt si
              schema false ∅), cache).
Proof.
  intros self prompt si schema cache.
  unfold generate_json, generate_content, _get_cache_key.
  rewrite dumps_no_kwargs.
  destruct (negb (has_model self)); [reflexivity|]. cbn [andb].
  destruct (provider (truthy si) ∅ (json_prompt prompt)) as [text|e];
    [|reflexivity].
  destruct (Str.is_empty text); [reflexivity|].
  destruct (json_loads _) as [parsed|e];
    [|destruct (is_decode_error e); reflexivity].
  destruct schema as [sch|]; [|reflexivity].
  destruct (bool_decide (sch = ∅)); [reflexivity|].
  destruct (_validate_schema parsed sch) as [[|]|]; reflexivity.
Qed.

Lemma contains_key_raises key data e :
  contains_key key data = Raise e ->
  e = TypeError /\
  (data = JNull \/ (exists b, data = JBool b) \/ (exists q, data = JNumber q)).
Proof.
  destruct data; cbn; intros H; try discriminate; inversion H;
    (split; [reflexivity|]); eauto.
Qed.

Lemma check_required_raises keys data e :
  check_required keys data = Raise e ->
  e = TypeError /\ keys <> [] /\
  (data = JNull \/ (exists b, data = JBool b) \/ (exists q, data = JNumber q)).
Proof.
  induction keys as [|key keys IH]; cbn [check_required]; [discriminate|].
  destruct (contains_key key data) as [[|]|e'] eqn:E.
  - intros H. destruct (IH H) as (He & _ & Hd).
    split; [exact He|]. split; [discriminate|exact Hd].
  - discriminate.
  - intros H. inversion H. subst e'.
    destruct (contains_key_raises key data e E) as [He Hd].
    split; [exact He|]. split; [discriminate|exact Hd].
Qed.

Lemma check_required_scalar keys data :
  keys <> [] ->
  (data = JNull \/ (exists b, data = JBool b) \/ (exists q, data = JNumber q)) ->
  check_required keys data = Raise TypeError.
Proof.
  intros Hk Hd. destruct keys as [|key keys]; [congruence|].
  destruct Hd as [-> | [[b ->] | [q ->]]]; reflexivity.
Qed.

(** X18. Provided the cache itself answers, [generate_json] raises in
    two cases and in no other. Either [json.loads] raised something else
    than a [JSONDecodeError] on the reply (a [RecursionError] on a reply
    nested too deeply, say), which the handler does not catch and the
    caller gets as it is; or the reply parsed to [null], a boolean or a
    number while the schema requires at least one key, and the caller
    gets the [TypeError] of the schema check. Provider failures, replies
    that are not JSON and objects, lists and strings never make it
    raise. *)
Theorem generate_json_raises_only :
  forall (self : t) (prompt : string) (si : option string)
         (schema : option (gmap string (list string))) (use_cache : bool)
         (cache : gmap string string) (e : exn),
    fst (generate_json hash json_dumps json_loads provider self prompt si
           schema use_cache cache) = Raise e <->
    exists text,
      fst (generate_content hash json_dumps provider self (json_prompt prompt)
             si use_cache ∅ cache) = Return (Some text) /\
      Str.is_empty text = false /\
      ((json_loads (Str.strip (strip_fences text)) = Raise e /\
        is_decode_error e = false) \/
       (e = TypeError /\
        exists parsed sch keys,
          json_loads (Str.strip (strip_fences text)) = Return parsed /\
          (parsed = JNull \/ (exists b, parsed = JBool b)
           \/ (exists q, parsed = JNumber q)) /\
          schema = Some sch /\ sch !! "required"%string = Some keys /\
          keys <> [])).
Proof.
  intros self prompt si schema use_cache cache e. unfold generate_json.
  destruct (generate_content_no_kwargs_returns hash json_dumps provider self
              (json_prompt prompt) si use_cache cache) as [r Hr].
  destruct (generate_content _ _ _ _ _ _ _ _ _) as [r' cache1].
  cbn [fst] in Hr |- *. subst r'. split.
  - destruct r as [text|]; [|discriminate].
    destruct (Str.is_empty text) eqn:Hne; [discriminate|].
    destruct (json_loads _) as [parsed|e'] eqn:El.
    + destruct schema as [sch|]; [|discriminate].
      destruct (bool_decide (sch = ∅)); [discriminate|].
      unfold _validate_schema.
      destruct (sch !! "required"%string) as [keys|] eqn:Es; [|discriminate].
      destruct (check_required keys parsed) as [[|]|e''] eqn:Ec;
        try discriminate.
      cbn [fst]. intros H. inversion H. subst e''.
      destruct (check_required_raises keys parsed e Ec) as (He & Hk & Hd).
      exists text. split; [reflexivity|]. split; [exact Hne|]. right.
      split; [exact He|]. exists parsed, sch, keys.
      repeat split; assumption || reflexivity.
    + destruct (is_decode_error e') eqn:Ed; [discriminate|].
      cbn [fst]. intros H. inversion H. subst e'.
      exists text. split; [reflexivity|]. split; [exact Hne|]. left.
      split; [exact El|exact Ed].
  - intros (text & Ht & Hne & Hcase). injection Ht as ->.
    rewrite Hne.
    destruct Hcase as [[El Ed] | (-> & parsed & sch & keys & El & Hd & -> & Es
                                   & Hk)].
    + rewrite El, Ed. reflexivity.
    + rewrite El.
      assert (Hs : sch <> ∅).
      { intros ->. rewrite lookup_empty in Es. discriminate. }
      rewrite bool_decide_eq_false_2 by exact Hs.
      unfold _validate_schema. rewrite Es.
      rewrite (check_required_scalar keys parsed Hk Hd). reflexivity.
Qed.

Lemma check_required_object keys members :
  check_required keys (JObject members)
  = Return (forallb
              (fun key =>
                 existsb (fun kv : string * json => Str.eqb kv.1 key) members)
              keys).
Proof.
  induction keys as [|key keys IH]; [reflexivity|].
  cbn [check_required contains_key forallb].
  destruct (existsb _ members); [exact IH|reflexivity].
Qed.

Lemma check_required_string keys s :
  check_required keys (JString s)
  = Return (forallb (fun key => Str.contains s key) keys).
Proof.
  induction keys as [|key keys IH]; [reflexivity|].
  cbn [check_required contains_key forallb].
  destruct (Str.contains s key); [exact IH|reflexivity].
Qed.

(** X19. The schema check looks at membership only. An object passes
    exactly when each required key is one of its keys, whatever the
    values are; a JSON string passes when each required key occurs in it
    as a substring, so that what [generate_json] returns need not be an
    object; and a schema without [required] accepts everything. *)
Theorem validate_schema_membership :
  forall (sch : gmap string (list string)),
    (forall keys members,
       sch !! "required"%string = Some keys ->
       (_validate_schema (JObject members) sch = Return true <->
        forall key, In key keys -> exists v, In (key, v) members)) /\
    (forall keys s,
       sch !! "required"%string = Some keys ->
       (_validate_schema (JString s) sch = Return true <->
        forall key, In key keys -> Str.contains s key = true)) /\
    (sch !! "required"%string = None ->
     forall data, _validate_schema data sch = Return true).
Proof.
  intros sch. unfold _validate_schema. split; [|split].
  - intros keys members ->. rewrite check_required_object.
    split.
    + intros H key Hin. injection H as Hf.
      rewrite forallb_forall in Hf. specialize (Hf key Hin).
      apply existsb_exists in Hf. destruct Hf as [[k v] [Hkv Hk]].
      unfold Str.eqb in Hk. apply bool_decide_eq_true in Hk.
      cbn in Hk. subst k. exists v. exact Hkv.
    + intros H. f_equal. apply forallb_forall. intros key Hin.
      destruct (H key Hin) as [v Hv]. apply existsb_exists.
      exists (key, v). split; [exact Hv|].
      unfold Str.eqb. apply bool_decide_eq_true. reflexivity.
  - intros keys s ->. rewrite check_required_string. split.
    + intros H key Hin. injection H as Hf.
      rewrite forallb_forall in Hf. exact (Hf key Hin).
    + intros H. f_equal. apply forallb_forall. exact H.
  - intros -> data. reflexivity.
Qed.

End GatewayCache.

Section GatewayCacheExamples.

Import GeminiService.

Lemma generate_json_replays_cache_witness :
  let first :=
    generate_json Samples.hash_0 Samples.dumps_braces Samples.loads_42
      Samples.provider_42 Samples.configured "Plan a roadmap" None
      (Some Samples.roadmap_schema) true ∅ in
  let later := <["gemini:7" := "{}"]> (snd first) in
  fst first = Raise TypeError /\
  generate_json Samples.hash_0 Samples.dumps_braces Samples.loads_42
    (fun _ _ _ => Raise (OtherException "Unavailable")) Samples.configured
    "Plan a roadmap" (Some "Be brief"%string) (Some Samples.roadmap_schema)
    true later = (Raise TypeError, later).
Proof.
  cbv zeta. split; [reflexivity|].
  destruct (generate_json_replays_cache Samples.hash_0 Samples.dumps_braces
              Samples.loads_42 Samples.provider_42
              (fun _ _ _ => Raise (OtherException "Unavailable"))
              Samples.configured "Plan a roadmap" None
              (Some "Be brief"%string) (Some Samples.roadmap_schema) ∅
              Samples.fenced_42) as (key & Hk & _ & H);
    [reflexivity|reflexivity|].
  injection Hk as <-. apply H. reflexivity.
Defined.

Lemma generate_json_raises_only_witness :
  fst (generate_json Samples.hash_0 Samples.dumps_braces
         (fun _ => Raise (OtherException "RecursionError"))
         Samples.provider_42 Samples.configured "Plan a roadmap" None None
         false ∅)
  = Raise (OtherException "RecursionError") /\
  exists text parsed,
    Samples.loads_42 (Str.strip (strip_fences text)) = Return parsed /\
    (parsed = JNull \/ (exists b, parsed = JBool b)
     \/ (exists q, parsed = JNumber q)).
Proof.
  split.
  - apply (generate_json_raises_only Samples.hash_0 Samples.dumps_braces
             (fun _ => Raise (OtherException "RecursionError"))
             Samples.provider_42 Samples.configured "Plan a roadmap" None None
             false ∅).
    exists Samples.fenced_42. split; [reflexivity|]. split; [reflexivity|].
    left. split; reflexivity.
  - destruct (proj1 (generate_json_raises_only Samples.hash_0
                       Samples.dumps_braces Samples.loads_42
                       Samples.provider_42 Samples.configured
                       "Plan a roadmap" None (Some Samples.roadmap_schema)
                       false ∅ TypeError) eq_refl)
      as (text & _ & _ & [[Hl Hd] | (_ & parsed & sch & keys & Hl & Hp & _)]).
    + unfold Samples.loads_42 in Hl.
      destruct (Str.eqb _ _) in Hl; discriminate Hl.
    + exists text, parsed. split; [exact Hl|exact Hp].
Defined.

End GatewayCacheExamples.

(** ** Active roadmaps *)

Section ActiveRoadmaps.

Import Roadmap.

Lemma save_lookup_pk pk self table : save pk self table !! pk = Some self.
Proof. unfold save. apply lookup_insert_eq. Qed.

Lemma save_lookup_other pk self table k :
  k <> pk ->
  is_active self = true ->
  save pk self table !! k
  = (fun row =>
       if bool_decide (user row = user self)
          && Str.eqb (language row) (language self) && is_active row
       then set_is_active false row else row) <$> table !! k.
Proof.
  intros Hk Ha. unfold save. rewrite Ha.
  rewrite lookup_insert_ne by congruence. rewrite map_lookup_imap.
  destruct (table !! k) as [row|]; [|reflexivity]. cbn.
  rewrite (bool_decide_eq_false_2 (k = pk)) by exact Hk.
  cbn [negb]. rewrite andb_true_r. reflexivity.
Qed.

(** X20. Saving an active roadmap leaves it the only active roadmap of
    its user and language, whatever the table held before; the roadmaps of
    other users or languages are not changed, and the others lose nothing
    but the active flag. *)
Theorem save_one_active_per_language :
  forall (pk : Z) (self : t) (table : gmap Z t),
    is_active self = true ->
    let table' := save pk self table in
    table' !! pk = Some self /\
    (forall k row,
       table' !! k = Some row -> user row = user self ->
       language row = language self -> is_active row = true -> k = pk) /\
    (forall k row,
       k <> pk -> table !! k = Some row ->
       table' !! k = Some row \/
       (user row = user self /\ language row = language self /\
        table' !! k = Some (set_is_active false row))).
Proof.
  intros pk self table Ha. cbv zeta.
  split; [apply save_lookup_pk|]. split.
  - intros k row Hk Hu Hl Hact.
    destruct (decide (k = pk)) as [E|E]; [exact E|exfalso].
    rewrite (save_lookup_other pk self table k E Ha) in Hk.
    destruct (table !! k) as [row0|]; [|discriminate]. cbn in Hk.
    destruct (bool_decide (user row0 = user self)
              && Str.eqb (language row0) (language self) && is_active row0)
      eqn:Ec.
    + inversion Hk. subst row. cbn in Hact. discriminate.
    + inversion Hk. subst row0.
      rewrite Hact, andb_true_r in Ec. unfold Str.eqb in Ec.
      rewrite !bool_decide_eq_true_2 in Ec by assumption. discriminate.
  - intros k row Hk Hrow.
    rewrite (save_lookup_other pk self table k Hk Ha), Hrow. cbn.
    destruct (bool_decide (user row = user self)
              && Str.eqb (language row) (language self) && is_active row)
      eqn:Ec; [right|left; reflexivity].
    apply andb_true_iff in Ec. destruct Ec as [Ec _].
    apply andb_true_iff in Ec. destruct Ec as [Eu El].
    apply bool_decide_eq_true in Eu. unfold Str.eqb in El.
    apply bool_decide_eq_true in El. repeat split; assumption.
Qed.

Lemma save_one_active_per_language_witness :
  save 2
    {| user := 7; language := "spanish"; cefr_level := A2;
       generated_by_ai := false; is_active := true |}
    (create 1 7 "spanish" A1 true ∅) !! 2
  = Some {| user := 7; language := "spanish"; cefr_level := A2;
            generated_by_ai := false; is_active := true |}.
Proof.
  exact (proj1 (save_one_active_per_language 2
                  {| user := 7; language := "spanish"; cefr_level := A2;
                     generated_by_ai := false; is_active := true |}
                  (create 1 7 "spanish" A1 true ∅) eq_refl)).
Defined.

End ActiveRoadmaps.

Section CurrentRoadmap.

Import Roadmap RoadmapCurrentView.

Lemma get_two_active request_user table k1 k2 row1 row2 :
  k1 <> k2 ->
  table !! k1 = Some row1 -> table !! k2 = Some row2 ->
  user row1 = request_user -> is_active row1 = true ->
  user row2 = request_user -> is_active row2 = true ->
  get request_user table = Raise (OtherException "MultipleObjectsReturned").
Proof.
  intros Hk H1 H2 Hu1 Ha1 Hu2 Ha2. unfold get.
  set (found := filter _ table).
  assert (E1 : (k1, row1) ∈ map_to_list found).
  { apply elem_of_map_to_list, map_lookup_filter_Some.
    split; [exact H1|split; assumption]. }
  assert (E2 : (k2, row2) ∈ map_to_list found).
  { apply elem_of_map_to_list, map_lookup_filter_Some.
    split; [exact H2|split; assumption]. }
  destruct (map_to_list found) as [|kr [|kr' rest]].
  - apply elem_of_nil in E1. contradiction.
  - apply list_elem_of_singleton in E1. apply list_elem_of_singleton in E2.
    congruence.
  - reflexivity.
Qed.

(** X21. The view of the current roadmap looks for the active roadmap of
    the user in any language, while [Roadmap.save] keeps one active
    roadmap per language. So after a user has generated roadmaps for two
    different languages, the view raises [MultipleObjectsReturned], which
    it does not catch. *)
Theorem current_roadmap_two_languages :
  forall (table : gmap Z Roadmap.t) (pk1 pk2 user : Z)
         (language1 language2 : string) (level1 level2 : cefr)
         (by_ai1 by_ai2 : bool),
    pk1 <> pk2 ->
    language1 <> language2 ->
    get user
      (create pk2 user language2 level2 by_ai2
         (create pk1 user language1 level1 by_ai1 table))
    = Raise (OtherException "MultipleObjectsReturned").
Proof.
  intros table pk1 pk2 u l1 l2 c1 c2 g1 g2 Hk Hl.
  apply (get_two_active u _ pk1 pk2
           {| user := u; language := l1; cefr_level := c1;
              generated_by_ai := g1; is_active := true |}
           {| user := u; language := l2; cefr_level := c2;
              generated_by_ai := g2; is_active := true |});
    try reflexivity; try exact Hk.
  - unfold create at 1.
    rewrite save_lookup_other by (congruence || reflexivity).
    unfold create. rewrite save_lookup_pk. cbn.
    unfold Str.eqb. rewrite (bool_decide_eq_false_2 (l1 = l2)) by exact Hl.
    rewrite andb_false_r. reflexivity.
  - apply save_lookup_pk.
Qed.

Lemma current_roadmap_two_languages_witness :
  get 7 (create 2 7 "kazakh" A0 false (create 1 7 "spanish" A1 true ∅))
  = Raise (OtherException "MultipleObjectsReturned").
Proof.
  apply (current_roadmap_two_languages ∅ 1 2 7 "spanish" "kazakh" A1 A0 true
           false); discriminate.
Defined.

(** X22. When the active roadmaps of a user are all of one language,
    generating a roadmap for that language makes it the current roadmap:
    the view returns the new roadmap. *)
Theorem current_roadmap_after_generate :
  forall (table : gmap Z Roadmap.t) (pk user : Z) (language : string)
         (level : cefr) (by_ai : bool),
    (forall k row,
       table !! k = Some row -> Roadmap.user row = user ->
       is_active row = true -> Roadmap.language row = language) ->
    get user (create pk user language level by_ai table)
    = Return (Some {| Roadmap.user := user; Roadmap.language := language;
                      cefr_level := level; generated_by_ai := by_ai;
                      is_active := true |}).
Proof.
  intros table pk u l c g Hone. unfold get.
  set (new := {| Roadmap.user := u; Roadmap.language := l; cefr_level := c;
                 generated_by_ai := g; is_active := true |}).
  assert (E : filter
                (fun kr : Z * Roadmap.t =>
                   Roadmap.user kr.2 = u /\ is_active kr.2 = true)
                (create pk u l c g table) = {[pk := new]}).
  { apply map_eq. intros k. destruct (decide (k = pk)) as [->|Hk].
    - rewrite lookup_singleton_eq. apply map_lookup_filter_Some.
      split; [apply save_lookup_pk|split; reflexivity].
    - rewrite lookup_singleton_ne by congruence.
      apply map_lookup_filter_None.
      unfold create. rewrite save_lookup_other by (exact Hk || reflexivity).
      destruct (table !! k) as [row|] eqn:Er; [right|left; reflexivity].
      intros x Hx [Hu Ha]. cbn in Hx, Hu, Ha.
      destruct (bool_decide (Roadmap.user row = u)
                && Str.eqb (Roadmap.language row) l && is_active row)
        eqn:Ec; inversion Hx; subst x.
      + cbn in Ha. discriminate.
      + rewrite Ha, andb_true_r in Ec. unfold Str.eqb in Ec.
        rewrite (bool_decide_eq_true_2 _ Hu) in Ec.
        rewrite (bool_decide_eq_true_2 _ (Hone k row Er Hu Ha)) in Ec.
        discriminate. }
  rewrite E, map_to_list_singleton. reflexivity.
Qed.

Lemma current_roadmap_after_generate_witness :
  get 7 (create 2 7 "spanish" A2 false (create 1 7 "spanish" A1 true ∅))
  = Return (Some {| Roadmap.user := 7; Roadmap.language := "spanish";
                    cefr_level := A2; generated_by_ai := false;
                    is_active := true |}).
Proof.
  apply (current_roadmap_after_generate
           (create 1 7 "spanish" A1 true ∅) 2 7 "spanish" A2 false).
  intros k row Hrow _ _.
  destruct (decide (k = 1)) as [->|Hk].
  - unfold create in Hrow. rewrite save_lookup_pk in Hrow.
    inversion Hrow. reflexivity.
  - unfold create in Hrow.
    rewrite save_lookup_other in Hrow by (exact Hk || reflexivity).
    rewrite lookup_empty in Hrow. discriminate Hrow.
Defined.

End CurrentRoadmap.

(** ** The life of a dialogue session *)

Section DialogueLife.

Import DialogueSession DialogueMessageView.

Lemma numbered_fresh_number session :
  numbered session ->
  existsb
    (fun turn => DialogueTurn.turn_number turn =? turn_count session + 1)
    (turns session) = false.
Proof.
  intros [Hc Hn]. apply not_true_iff_false. intros H.
  apply existsb_exists in H. destruct H as [turn [Hin He]].
  apply Z.eqb_eq in He.
  assert (Hm : In (DialogueTurn.turn_number turn)
                 (map Z.of_nat (seq 1 (length (turns session)))))
    by (rewrite <- Hn; apply in_map; exact Hin).
  apply in_map_iff in Hm. destruct Hm as [k [Hk Hs]].
  apply in_seq in Hs. lia.
Qed.

Lemma numbered_snoc session turn status' ended_at' :
  numbered session ->
  DialogueTurn.turn_number turn = turn_count session + 1 ->
  numbered
    {| user := user session; max_turns := max_turns session;
       status := status';
       turn_count := Z.of_nat (length (turns session ++ [turn]));
       ended_at := ended_at'; turns := turns session ++ [turn] |}.
Proof.
  intros [Hc Hn] Ht. split; cbn [turn_count turns]; [reflexivity|].
  rewrite map_app, length_app, Hn. cbn [length map].
  rewrite Nat.add_1_r, seq_S, map_app. cbn [map]. rewrite Ht, Hc.
  do 2 f_equal. lia.
Qed.

(** One accepted message. *)
Lemma post_created now request_user data user_message ai_response session :
  user session = request_user ->
  status session = "active"%string ->
  turn_count session < max_turns session ->
  numbered session ->
  DialogueMessageSerializer.validate data = Some user_message ->
  let turn :=
    {| DialogueTurn.turn_number := turn_count session + 1;
       DialogueTurn.user_message := user_message;
       DialogueTurn.ai_response := ai_response |} in
  let last := max_turns session <=? turn_count session + 1 in
  post now request_user data (Return ai_response) session
  = (Return (Created turn),
     {| user := user session; max_turns := max_turns session;
        status := if last then "completed"%string else "active"%string;
        turn_count := turn_count session + 1;
        ended_at := if last then Some now else ended_at session;
        turns := turns session ++ [turn] |}).
Proof.
  intros Hu Hs Hlt Hnum Hv. cbv zeta. unfold post, can_add_turn.
  rewrite (bool_decide_eq_true_2 _ Hu), Hs.
  assert (Elt : (turn_count session <? max_turns session) = true)
    by (apply Z.ltb_lt; exact Hlt).
  rewrite Elt. cbn [Str.eqb andb negb]. rewrite Hv.
  unfold DialogueTurnSave.save. cbn [DialogueTurn.turn_number].
  rewrite (numbered_fresh_number session Hnum).
  cbn [max_turns turn_count]. rewrite length_app. cbn [length].
  destruct Hnum as [Hc _].
  replace (Z.of_nat (length (turns session) + 1)) with (turn_count session + 1)
    by lia.
  destruct (max_turns session <=? turn_count session + 1);
    unfold complete_session; cbn; rewrite ?Hs; reflexivity.
Qed.

(** What is not accepted leaves the session as it is. *)
Lemma post_refused now request_user data reply session :
  numbered session ->
  (forall turn session',
     post now request_user data reply session
     <> (Return (Created turn), session')) ->
  snd (post now request_user data reply session) = session.
Proof.
  intros Hnum Hno. unfold post in *.
  destruct (negb (bool_decide _ && Str.eqb _ _)); [reflexivity|].
  destruct (negb (can_add_turn session)); [reflexivity|].
  destruct (DialogueMessageSerializer.validate data); [|reflexivity].
  destruct reply as [ai_response|e]; [|reflexivity].
  destruct (DialogueTurnSave.save _ _ _) as [session'|e]; [|reflexivity].
  exfalso. eapply Hno. reflexivity.
Qed.

Lemma post_all_accepts now request_user messages :
  forall session,
    user session = request_user ->
    status session = "active"%string ->
    numbered session ->
    turn_count session < max_turns session ->
    Forall (fun m : string * string =>
              DialogueMessageSerializer.validate m.1 <> None) messages ->
    turn_count session + Z.of_nat (length messages) <= max_turns session ->
    let '(responses, final) :=
      post_all now request_user (map (fun m => (m.1, Return m.2)) messages)
        session in
    numbered final /\
    user final = request_user /\ max_turns final = max_turns session /\
    turn_count final = turn_count session + Z.of_nat (length messages) /\
    map DialogueTurn.ai_response (turns final)
    = map DialogueTurn.ai_response (turns session) ++ map snd messages /\
    Forall (fun r => exists turn, r = Return (Created turn)) responses /\
    status final
    = (if max_turns final <=? turn_count final
       then "completed"%string else "active"%string) /\
    ended_at final
    = (if max_turns final <=? turn_count final
       then Some now else ended_at session).
Proof.
  induction messages as [|[data text] messages IH];
    intros session Hu Hs Hnum Hlt Hvalid Hlen.
  - cbn [map post_all length].
    assert (E : (max_turns session <=? turn_count session) = false)
      by (apply Z.leb_gt; exact Hlt).
    rewrite E, app_nil_r.
    repeat split; try assumption; try reflexivity; try lia; try apply Hnum.
    constructor.
  - cbn [map post_all fst snd length] in *.
    apply Forall_cons in Hvalid. destruct Hvalid as [Hv Hvalid].
    cbn [fst] in Hv.
    destruct (DialogueMessageSerializer.validate data) as [user_message|]
      eqn:Ev; [|congruence].
    rewrite (post_created now request_user data user_message text session
               Hu Hs Hlt Hnum Ev).
    set (turn := {| DialogueTurn.turn_number := turn_count session + 1;
                    DialogueTurn.user_message := user_message;
                    DialogueTurn.ai_response := text |}).
    assert (Hnum' : forall status' ended_at',
              numbered
                {| user := user session; max_turns := max_turns session;
                   status := status';
                   turn_count := turn_count session + 1;
                   ended_at := ended_at'; turns := turns session ++ [turn] |}).
    { intros status' ended_at'.
      pose proof (numbered_snoc session turn status' ended_at' Hnum eq_refl)
        as H.
      destruct Hnum as [Hc _]. rewrite length_app in H. cbn [length] in H.
      replace (Z.of_nat (length (turns session) + 1))
        with (turn_count session + 1) in H by lia.
      exact H. }
    destruct (max_turns session <=? turn_count session + 1) eqn:Elast.
    + apply Z.leb_le in Elast.
      assert (Hnil : messages = [])
        by (destruct messages; [reflexivity|]; cbn [length] in Hlen; lia).
      subst messages. cbn [map post_all].
      cbn [user max_turns turn_count turns status ended_at length].
      assert (E : (max_turns session <=? turn_count session + 1) = true)
        by (apply Z.leb_le; exact Elast).
      rewrite E.
      split; [apply Hnum'|]. split; [exact Hu|]. split; [reflexivity|].
      split; [lia|]. split; [rewrite map_app; reflexivity|].
      split; [repeat constructor; eexists; reflexivity|].
      split; reflexivity.
    + apply Z.leb_gt in Elast.
      specialize (IH {| user := user session; max_turns := max_turns session;
                        status := "active";
                        turn_count := turn_count session + 1;
                        ended_at := ended_at session;
                        turns := turns session ++ [turn] |}
                    Hu eq_refl (Hnum' _ _)).
      cbn [user max_turns turn_count turns status ended_at] in IH.
      specialize (IH Elast Hvalid ltac:(lia)).
      destruct (post_all now request_user _ _) as [responses final].
      destruct IH as (Hn & Hfu & Hfm & Hfc & Hfa & Hfr & Hfs & Hfe).
      split; [exact Hn|]. split; [exact Hfu|]. split; [exact Hfm|].
      split; [lia|].
      split; [rewrite Hfa, map_app, <- app_assoc; reflexivity|].
      split; [constructor; [eexists; reflexivity|exact Hfr]|].
      split; [exact Hfs|exact Hfe].
Qed.

Lemma numbered_create user max_turns : numbered (create user max_turns).
Proof. split; reflexivity. Qed.

Lemma post_not_active now request_user data reply session :
  status session <> "active"%string ->
  post now request_user data reply session = (Return NotFound, session).
Proof.
  intros H. unfold post, Str.eqb.
  rewrite (bool_decide_eq_false_2 _ H), andb_false_r. reflexivity.
Qed.

(** X23. A new session of a scenario with [max_turns] turns accepts
    every valid message up to the maximum: the turns are numbered from 1
    in order and counted, and the session stays active while it has fewer
    turns than the maximum. With the turn that reaches the maximum the
    session is completed and dated, and from then on every message and
    every request to end the session is answered by 404, the session
    being left as it is. *)
Theorem session_accepts_up_to_max_turns :
  forall (now request_user max_turns : Z) (messages : list (string * string)),
    0 < max_turns ->
    Forall (fun m : string * string =>
              DialogueMessageSerializer.validate m.1 <> None) messages ->
    Z.of_nat (length messages) <= max_turns ->
    let '(responses, final) :=
      post_all now request_user (map (fun m => (m.1, Return m.2)) messages)
        (create request_user max_turns) in
    Forall (fun r => exists turn, r = Return (Created turn)) responses /\
    numbered final /\
    turn_count final = Z.of_nat (length messages) /\
    map DialogueTurn.ai_response (turns final) = map snd messages /\
    (Z.of_nat (length messages) < max_turns ->
     status final = "active"%string /\ can_add_turn final = true) /\
    (Z.of_nat (length messages) = max_turns ->
     status final = "completed"%string /\ ended_at final = Some now /\
     (forall later user data reply,
        post later user data reply final = (Return NotFound, final)) /\
     (forall later user,
        DialogueSessionEndView.post later user final = (NotFound, final))).
Proof.
  intros now u m messages Hm Hvalid Hlen.
  pose proof (post_all_accepts now u messages (create u m) eq_refl eq_refl
                (numbered_create u m) Hm Hvalid Hlen) as H.
  destruct (post_all now u _ _) as [responses final].
  destruct H as (Hn & Hfu & Hfm & Hfc & Hfa & Hfr & Hfs & Hfe).
  cbn [create turn_count turns max_turns ended_at map app] in *.
  rewrite Z.add_0_l in Hfc.
  split; [exact Hfr|]. split; [exact Hn|]. split; [exact Hfc|].
  split; [exact Hfa|]. rewrite Hfm, Hfc in Hfs, Hfe. split.
  - intros Hlt.
    assert (E : (m <=? Z.of_nat (length messages)) = false)
      by (apply Z.leb_gt; exact Hlt).
    rewrite E in Hfs. split; [exact Hfs|].
    unfold can_add_turn. rewrite Hfs, Hfm, Hfc.
    apply andb_true_iff. split; [reflexivity|apply Z.ltb_lt; exact Hlt].
  - intros Heq.
    assert (E : (m <=? Z.of_nat (length messages)) = true)
      by (apply Z.leb_le; lia).
    rewrite E in Hfs, Hfe. split; [exact Hfs|]. split; [exact Hfe|].
    split.
    + intros later user data reply. apply post_not_active.
      rewrite Hfs. discriminate.
    + intros later user. unfold DialogueSessionEndView.post, Str.eqb.
      rewrite Hfs.
      rewrite (bool_decide_eq_false_2 ("completed" = "active")%string)
        by discriminate.
      rewrite andb_false_r. reflexivity.
Qed.

Lemma session_accepts_up_to_max_turns_witness :
  let '(responses, final) :=
    post_all 9 7 [("Hola", Return "Hola!"); (" Adios ", Return "Adios!")]%string
      (create 7 2) in
  status final = "completed"%string /\ turn_count final = 2 /\
  post 10 7 "Otra" (Return "?"%string) final = (Return NotFound, final).
Proof.
  pose proof (session_accepts_up_to_max_turns 9 7 2
                [("Hola", "Hola!"); (" Adios ", "Adios!")]%string
                ltac:(lia)
                ltac:(repeat constructor; vm_compute; discriminate)
                ltac:(cbn; lia)) as H.
  cbn [map fst snd] in H.
  destruct (post_all 9 7 _ _) as [responses final].
  destruct H as (_ & _ & Hc & _ & _ & Hdone).
  destruct (Hdone eq_refl) as (Hs & _ & Hpost & _).
  split; [exact Hs|]. split; [exact Hc|]. apply Hpost.
Defined.

(** What [post] does to a numbered session: it adds the next turn, or it
    leaves the session as it is, and then an exception can only be the
    one of the reply. *)
Lemma post_cases now request_user data reply session :
  numbered session ->
  let '(response, session') := post now request_user data reply session in
  (forall e, response = Raise e -> reply = Raise e) /\
  ((session' = session /\ forall turn, response <> Return (Created turn)) \/
   (numbered session' /\ max_turns session' = max_turns session /\
    user session' = user session /\
    turn_count session < max_turns session /\
    turn_count session' = turn_count session + 1 /\
    (status session' = "completed"%string ->
     turn_count session' = max_turns session'))).
Proof.
  intros Hnum. unfold post.
  destruct (bool_decide (user session = request_user)
            && Str.eqb (status session) "active") eqn:Eact; cbn [negb];
    [|split; [discriminate|left; split; [reflexivity|discriminate]]].
  destruct (can_add_turn session) eqn:Ecan; cbn [negb];
    [|split; [discriminate|left; split; [reflexivity|discriminate]]].
  destruct (DialogueMessageSerializer.validate data) as [user_message|] eqn:Ev;
    [|split; [discriminate|left; split; [reflexivity|discriminate]]].
  destruct reply as [ai_response|e];
    [|split; [intros e' H; congruence
             |left; split; [reflexivity|discriminate]]].
  apply andb_true_iff in Eact. destruct Eact as [Eu Es].
  apply bool_decide_eq_true in Eu. unfold Str.eqb in Es.
  apply bool_decide_eq_true in Es.
  unfold can_add_turn in Ecan. apply andb_true_iff in Ecan.
  destruct Ecan as [_ Elt]. apply Z.ltb_lt in Elt.
  pose proof (post_created now request_user data user_message ai_response
                session Eu Es Elt Hnum Ev) as Hpost.
  cbv zeta in Hpost. unfold post in Hpost.
  rewrite (bool_decide_eq_true_2 _ Eu) in Hpost.
  unfold can_add_turn, Str.eqb in Hpost.
  rewrite (bool_decide_eq_true_2 _ Es) in Hpost.
  rewrite (proj2 (Z.ltb_lt _ _) Elt), Ev in Hpost. cbn [andb negb] in Hpost.
  destruct (DialogueTurnSave.save now _ session) as [session'|e];
    [|discriminate Hpost].
  inversion Hpost as [Hsession]. split; [discriminate|]. right.
  cbn [max_turns user turn_count status].
  split.
  - pose proof (numbered_snoc session
                  {| DialogueTurn.turn_number := turn_count session + 1;
                     DialogueTurn.user_message := user_message;
                     DialogueTurn.ai_response := ai_response |}
                  (if max_turns session <=? turn_count session + 1
                   then "completed"%string else "active"%string)
                  (if max_turns session <=? turn_count session + 1
                   then Some now else ended_at session) Hnum eq_refl) as H.
    destruct Hnum as [Hc _]. rewrite length_app in H. cbn [length] in H.
    replace (Z.of_nat (length (turns session) + 1))
      with (turn_count session + 1) in H by lia.
    exact H.
  - repeat split; try reflexivity; try exact Elt.
    destruct (max_turns session <=? turn_count session + 1) eqn:E;
      [|discriminate].
    apply Z.leb_le in E. intros _. lia.
Qed.

Lemma post_all_bounded now request_user messages :
  forall session,
    numbered session ->
    let '(responses, final) :=
      post_all now request_user messages session in
    numbered final /\
    max_turns final = max_turns session /\
    turn_count session <= turn_count final /\
    (turn_count final <= max_turns session \/ final = session) /\
    (status final = "completed"%string ->
     turn_count final = max_turns final \/ final = session) /\
    Forall2 (fun (message : string * result string) response =>
               forall e, response = Raise e -> message.2 = Raise e)
      messages responses.
Proof.
  induction messages as [|[data reply] messages IH]; intros session Hnum.
  - cbn [post_all]. repeat split; try assumption; try lia; try apply Hnum.
    + right. reflexivity.
    + intros _. right. reflexivity.
    + constructor.
  - cbn [post_all].
    pose proof (post_cases now request_user data reply session Hnum) as Hc.
    destruct (post now request_user data reply session)
      as [response session'].
    destruct Hc as [Hexn Hc].
    assert (Hnum' : numbered session').
    { destruct Hc as [[-> _]|[H _]]; assumption. }
    specialize (IH session' Hnum').
    destruct (post_all now request_user messages session')
      as [responses final].
    destruct IH as (Hn & Hm & Hle & Hb & Hs & Hr).
    split; [exact Hn|].
    destruct Hc as [[-> _]|(_ & Hm' & _ & Hlt & Hcount & Hdone)].
    + repeat split; try assumption.
      constructor; [exact Hexn|exact Hr].
    + split; [congruence|]. split; [lia|]. split; [|split].
      * left. destruct Hb as [Hb| ->]; lia.
      * intros Hst. left. destruct (Hs Hst) as [H| ->]; [exact H|].
        apply Hdone. exact Hst.
      * constructor; [exact Hexn|exact Hr].
Qed.

(** X24. Whatever is sent to a new session (valid or not, in any number,
    the replies failing or not), the session never holds more turns than
    the maximum of its scenario, its count is the number of its turns,
    which are numbered from 1 without gaps, a completed session holds
    exactly the maximum, and the only exceptions that reach the caller
    are those of the reply: the numbering never collides. *)
Theorem session_turns_bounded :
  forall (now request_user max_turns : Z)
         (messages : list (string * result string)),
    let '(responses, final) :=
      post_all now request_user messages (create request_user max_turns) in
    numbered final /\
    turn_count final <= Z.max 0 max_turns /\
    (status final = "completed"%string -> turn_count final = max_turns) /\
    Forall2 (fun (message : string * result string) response =>
               forall e, response = Raise e -> message.2 = Raise e)
      messages responses.
Proof.
  intros now u m messages.
  pose proof (post_all_bounded now u messages (create u m)
                (numbered_create u m)) as H.
  destruct (post_all now u messages (create u m)) as [responses final].
  destruct H as (Hn & Hm & Hle & Hb & Hs & Hr).
  split; [exact Hn|]. split; [|split; [|exact Hr]].
  - destruct Hb as [Hb| ->]; cbn [create max_turns turn_count] in *; lia.
  - intros Hst. destruct (Hs Hst) as [H| ->].
    + rewrite H, Hm. reflexivity.
    + cbn in Hst. discriminate.
Qed.

End DialogueLife.

(** ** The matcher on equal sequences *)

Section MatcherIdentity.

Import SequenceMatcher MatcherDiagonal.

Lemma b2j_all_snoc (s : list ascii) (c : ascii) :
  b2j_all (s ++ [c])
  = <[c := default [] (b2j_all s !! c) ++ [len s]]> (b2j_all s).
Proof.
  unfold b2j_all. rewrite imap_app, fold_left_app. cbn [imap fold_left].
  rewrite Nat.add_0_r. reflexivity.
Qed.

Lemma sorted_snoc (l : list Z) (q : Z) :
  StronglySorted Z.lt l -> (forall p, In p l -> p < q) ->
  StronglySorted Z.lt (l ++ [q]).
Proof.
  induction 1 as [|p l Hs IH Hall]; intros Hq; cbn.
  - repeat constructor.
  - constructor.
    + apply IH. intros p' Hp'. apply Hq. right. exact Hp'.
    + apply Forall_app. split; [exact Hall|].
      constructor; [apply Hq; left; reflexivity|constructor].
Qed.

Lemma item_app_l (s : list ascii) c p :
  0 <= p < len s -> item (s ++ [c]) p = item s p.
Proof. unfold item, len. intros H. apply app_nth1. lia. Qed.

Lemma item_app_r (s : list ascii) c : item (s ++ [c]) (len s) = c.
Proof. unfold item, len. rewrite Nat2Z.id. apply nth_middle. Qed.

(** [b2j] before the purge: the positions of each element, increasing. *)
Lemma b2j_all_positions (s : list ascii) :
  forall x,
    StronglySorted Z.lt (default [] (b2j_all s !! x)) /\
    forall p,
      In p (default [] (b2j_all s !! x)) <-> 0 <= p < len s /\ item s p = x.
Proof.
  induction s as [|c s IH] using rev_ind; intros x.
  - unfold b2j_all. cbn [imap fold_left]. rewrite lookup_empty. simpl.
    split; [constructor|]. intros p. unfold len. cbn. split; [tauto|lia].
  - rewrite b2j_all_snoc.
    assert (Hlen : len (s ++ [c]) = len s + 1)
      by (unfold len; rewrite length_app; cbn; lia).
    destruct (IH x) as [Hs Hm].
    destruct (decide (c = x)) as [->|Hcx].
    + rewrite lookup_insert_eq. cbn [from_option]. unfold id at 1 3.
      split.
      * apply sorted_snoc; [exact Hs|]. intros p Hp. apply Hm in Hp. lia.
      * intros p. rewrite in_app_iff, Hm, Hlen. cbn [In]. split.
        -- intros [[Hr Hi]|[<-|[]]].
           ++ split; [lia|]. rewrite item_app_l by exact Hr. exact Hi.
           ++ split; [unfold len; lia|apply item_app_r].
        -- intros [Hr Hi].
           destruct (decide (p = len s)) as [->|Hp];
             [right; left; reflexivity|].
           left. assert (Hr' : 0 <= p < len s) by lia.
           split; [exact Hr'|]. rewrite item_app_l in Hi by exact Hr'.
           exact Hi.
    + rewrite lookup_insert_ne by exact Hcx. split; [exact Hs|].
      intros p. rewrite Hm, Hlen. split.
      * intros [Hr Hi]. split; [lia|].
        rewrite item_app_l by exact Hr. exact Hi.
      * intros [Hr Hi]. destruct (decide (p = len s)) as [->|Hp].
        { rewrite item_app_r in Hi. contradiction. }
        assert (Hr' : 0 <= p < len s) by lia.
        split; [exact Hr'|]. rewrite item_app_l in Hi by exact Hr'.
        exact Hi.
Qed.

Variable a : list ascii.

(** The purge removes whole entries: what is left of [b2j] holds all the
    positions of its elements. *)
Lemma b2j_lookup (x : ascii) (l : list Z) :
  b2j a !! x = Some l ->
  StronglySorted Z.lt l /\
  forall p, In p l <-> 0 <= p < len a /\ item a p = x.
Proof.
  intros H.
  assert (Hall : b2j_all a !! x = Some l).
  { unfold b2j in H. destruct (200 <=? length a)%nat; [|exact H].
    apply map_lookup_filter_Some in H. apply H. }
  pose proof (b2j_all_positions a x) as Hp. rewrite Hall in Hp. exact Hp.
Qed.

Lemma run_nonneg c : 0 <= run a c.
Proof. induction c; cbn [run]; destruct (indexed a _); lia. Qed.

Lemma diag_run_nonneg c : 0 <= diag_run a c.
Proof. unfold diag_run. destruct (c <? 0); [lia|apply run_nonneg]. Qed.

Lemma diag_run_step c :
  0 <= c ->
  diag_run a c
  = if indexed a (item a c) then diag_run a (c - 1) + 1 else 0.
Proof.
  intros Hc. unfold diag_run, item.
  destruct (c <? 0) eqn:E; [apply Z.ltb_lt in E; lia|].
  destruct (Z.to_nat c) as [|c'] eqn:Ec.
  - assert (c = 0) by lia. subst c. cbn.
    destruct (indexed a _); reflexivity.
  - cbn [run]. destruct (indexed a _); [|reflexivity].
    assert (E' : (c - 1 <? 0) = false) by (apply Z.ltb_ge; lia).
    rewrite E'. replace (Z.to_nat (c - 1)) with c' by lia. reflexivity.
Qed.

Section Row.

(** Row [r] of the scan of [a] against itself, with the runs [j2len] of
    the row before: no run is longer than the diagonal runs of its row
    and of its column, and the run on the diagonal is the diagonal run. *)
Variable r : Z.
Variable j2len : gmap Z Z.

Hypothesis Hr : 0 <= r < len a.
Hypothesis Hidx : indexed a (item a r) = true.
Hypothesis Hruns :
  forall c v,
    j2len !! c = Some v -> v <= diag_run a (r - 1) /\ v <= diag_run a c.
Hypothesis Hdiag : default 0 (j2len !! (r - 1)) = diag_run a (r - 1).

Lemma diag_run_row : diag_run a r = diag_run a (r - 1) + 1.
Proof. rewrite diag_run_step by lia. rewrite Hidx. reflexivity. Qed.

Lemma run_bound c :
  0 <= c -> item a c = item a r ->
  default 0 (j2len !! (c - 1)) + 1 <= diag_run a r /\
  default 0 (j2len !! (c - 1)) + 1 <= diag_run a c.
Proof.
  intros Hc Hi. rewrite diag_run_row, (diag_run_step c Hc), Hi, Hidx.
  destruct (j2len !! (c - 1)) as [v|] eqn:E; simpl; unfold id.
  - destruct (Hruns _ _ E). lia.
  - pose proof (diag_run_nonneg (r - 1)). pose proof (diag_run_nonneg (c - 1)).
    lia.
Qed.

Lemma scan_row_after idxs :
  forall besti bestsize newj2len,
    Forall (fun c => r < c < len a /\ item a c = item a r) idxs ->
    diag_run a r <= bestsize ->
    (forall c v, newj2len !! c = Some v ->
                 v <= diag_run a r /\ v <= diag_run a c) ->
    newj2len !! r = Some (diag_run a r) ->
    exists newj2len',
      scan_row r 0 (len a) j2len idxs (besti, besti, bestsize, newj2len)
      = (besti, besti, bestsize, newj2len') /\
      (forall c v, newj2len' !! c = Some v ->
                   v <= diag_run a r /\ v <= diag_run a c) /\
      newj2len' !! r = Some (diag_run a r).
Proof.
  induction idxs as [|c rest IH]; intros besti bestsize newj2len Hall Hbest
    Hnew Hnewr.
  - exists newj2len. split; [reflexivity|]. split; [exact Hnew|exact Hnewr].
  - apply Forall_cons in Hall. destruct Hall as [[Hc Hi] Hall].
    cbn [scan_row].
    assert (E0 : (c <? 0) = false) by (apply Z.ltb_ge; lia).
    assert (En : (len a <=? c) = false) by (apply Z.leb_gt; lia).
    rewrite E0, En.
    destruct (run_bound c ltac:(lia) Hi) as [Hk1 Hk2].
    assert (Ek : (bestsize <? default 0 (j2len !! (c - 1)) + 1) = false)
      by (apply Z.ltb_ge; lia).
    rewrite Ek. apply IH; try assumption.
    + intros c' v. rewrite lookup_insert. destruct (decide (c = c')).
      * intros [= <-]. subst c'. split; assumption.
      * apply Hnew.
    + rewrite lookup_insert_ne by lia. exact Hnewr.
Qed.

Lemma scan_row_before idxs :
  forall besti bestsize newj2len,
    StronglySorted Z.lt idxs ->
    Forall (fun c => 0 <= c < len a /\ item a c = item a r) idxs ->
    In r idxs ->
    (forall c, 0 <= c < r -> diag_run a c <= bestsize) ->
    (forall c v, newj2len !! c = Some v ->
                 v <= diag_run a r /\ v <= diag_run a c) ->
    newj2len !! r = None ->
    exists besti' bestsize' newj2len',
      scan_row r 0 (len a) j2len idxs (besti, besti, bestsize, newj2len)
      = (besti', besti', bestsize', newj2len') /\
      bestsize <= bestsize' /\ diag_run a r <= bestsize' /\
      (forall c v, newj2len' !! c = Some v ->
                   v <= diag_run a r /\ v <= diag_run a c) /\
      newj2len' !! r = Some (diag_run a r).
Proof.
  induction idxs as [|c rest IH]; intros besti bestsize newj2len Hsorted Hall
    Hin Hbest Hnew Hnewr; [contradiction|].
  apply StronglySorted_inv in Hsorted. destruct Hsorted as [Hsorted Hlt].
  apply Forall_cons in Hall. destruct Hall as [[Hc Hi] Hall].
  cbn [scan_row].
  assert (E0 : (c <? 0) = false) by (apply Z.ltb_ge; lia).
  assert (En : (len a <=? c) = false) by (apply Z.leb_gt; lia).
  rewrite E0, En.
  destruct (run_bound c ltac:(lia) Hi) as [Hk1 Hk2].
  assert (Hnew' : forall c' v,
            <[c := default 0 (j2len !! (c - 1)) + 1]> newj2len !! c' = Some v ->
            v <= diag_run a r /\ v <= diag_run a c').
  { intros c' v. rewrite lookup_insert. destruct (decide (c = c')).
    - intros [= <-]. subst c'. split; assumption.
    - apply Hnew. }
  destruct (decide (c = r)) as [->|Hcr].
  - assert (Hk : default 0 (j2len !! (r - 1)) + 1 = diag_run a r)
      by (rewrite Hdiag, diag_run_row; reflexivity).
    assert (Hafter : Forall (fun c => r < c < len a /\ item a c = item a r)
                       rest).
    { rewrite Forall_forall in *. intros c Hcin.
      specialize (Hlt c Hcin). destruct (Hall c Hcin) as [Hc' Hi'].
      split; [lia|exact Hi']. }
    rewrite Hk in *.
    destruct (bestsize <? diag_run a r) eqn:Ek.
    + apply Z.ltb_lt in Ek.
      destruct (scan_row_after rest (r - diag_run a r + 1) (diag_run a r)
                  (<[r := diag_run a r]> newj2len) Hafter ltac:(lia) Hnew'
                  (lookup_insert_eq _ _ _)) as (newj2len' & E & H1 & H2).
      exists (r - diag_run a r + 1), (diag_run a r), newj2len'.
      split; [exact E|]. split; [lia|]. split; [lia|].
      split; [exact H1|exact H2].
    + apply Z.ltb_ge in Ek.
      destruct (scan_row_after rest besti bestsize
                  (<[r := diag_run a r]> newj2len) Hafter Ek Hnew'
                  (lookup_insert_eq _ _ _)) as (newj2len' & E & H1 & H2).
      exists besti, bestsize, newj2len'.
      split; [exact E|]. split; [lia|]. split; [lia|].
      split; [exact H1|exact H2].
  - assert (Hinr : In r rest) by (destruct Hin; [contradiction|assumption]).
    assert (Hclt : c < r)
      by (rewrite Forall_forall in Hlt; apply Hlt, list_elem_of_In, Hinr).
    assert (Ek : (bestsize <? default 0 (j2len !! (c - 1)) + 1) = false).
    { apply Z.ltb_ge. specialize (Hbest c ltac:(lia)). lia. }
    rewrite Ek. apply IH; try assumption.
    rewrite lookup_insert_ne by exact Hcr. exact Hnewr.
Qed.

End Row.

Lemma scan_rows_diag (m : nat) :
  forall r besti bestsize j2len,
    0 <= r -> r + Z.of_nat m <= len a ->
    0 <= bestsize ->
    (forall c, 0 <= c < r -> diag_run a c <= bestsize) ->
    (forall c v, j2len !! c = Some v ->
                 v <= diag_run a (r - 1) /\ v <= diag_run a c) ->
    default 0 (j2len !! (r - 1)) = diag_run a (r - 1) ->
    exists besti' bestsize',
      fst (fold_left
             (fun (st : Z * Z * Z * gmap Z Z) (i : Z) =>
                let '(best, j2len) := st in
                scan_row i 0 (len a) j2len (default [] (b2j a !! item a i))
                  (best, ∅))
             (seqZ r (Z.of_nat m)) (besti, besti, bestsize, j2len))
      = (besti', besti', bestsize').
Proof.
  induction m as [|m IH]; intros r besti bestsize j2len Hr Hm Hsize Hbest
    Hruns Hdiag.
  - rewrite seqZ_nil by lia. exists besti, bestsize. reflexivity.
  - rewrite seqZ_cons by lia. cbn [fold_left].
    replace (Z.pred (Z.of_nat (S m))) with (Z.of_nat m) by lia.
    replace (Z.succ r) with (r + 1) by lia.
    destruct (b2j a !! item a r) as [idxs|] eqn:Eidx.
    + assert (Hidx : indexed a (item a r) = true).
      { unfold indexed. apply bool_decide_eq_true. rewrite Eidx. eauto. }
      destruct (b2j_lookup _ _ Eidx) as [Hsorted Hmem].
      assert (Hall : Forall (fun c => 0 <= c < len a /\ item a c = item a r)
                       idxs).
      { apply Forall_forall. intros c Hc. apply Hmem, list_elem_of_In.
        exact Hc. }
      assert (Hin : In r idxs) by (apply Hmem; split; [lia|reflexivity]).
      destruct (scan_row_before r j2len ltac:(lia) Hidx Hruns Hdiag idxs
                  besti bestsize ∅ Hsorted Hall Hin Hbest
                  ltac:(intros c v; rewrite lookup_empty; discriminate)
                  (lookup_empty _))
        as (besti' & bestsize' & newj2len' & E & Hle & Hd & Hnew & Hnewr).
      simpl (default [] (Some idxs)). unfold id at 1. rewrite E.
      apply IH; try lia.
      * intros c Hc. destruct (decide (c = r)) as [->|Hcr]; [exact Hd|].
        specialize (Hbest c ltac:(lia)). lia.
      * replace (r + 1 - 1) with r by lia. exact Hnew.
      * replace (r + 1 - 1) with r by lia. rewrite Hnewr. reflexivity.
    + assert (Hidx : indexed a (item a r) = false).
      { unfold indexed. apply bool_decide_eq_false. rewrite Eidx.
        intros [x Hx]. discriminate. }
      assert (Hd : diag_run a r = 0)
        by (rewrite diag_run_step by lia; rewrite Hidx; reflexivity).
      simpl (default [] None). cbn [scan_row].
      apply IH; try lia.
      * intros c Hc. destruct (decide (c = r)) as [->|Hcr]; [lia|].
        apply Hbest. lia.
      * intros c v. rewrite lookup_empty. discriminate.
      * replace (r + 1 - 1) with r by lia. rewrite lookup_empty, Hd.
        reflexivity.
Qed.

(** The best match of the scan of [a] against itself is on the diagonal. *)
Lemma scan_diag :
  exists besti bestsize,
    scan a a 0 (len a) 0 (len a) = (besti, besti, bestsize) /\
    0 <= besti /\ 0 <= bestsize /\ besti + bestsize <= len a.
Proof.
  assert (Hlen : 0 <= len a) by (unfold len; lia).
  pose proof (scan_within a a 0 (len a) 0 (len a) Hlen) as Hw.
  unfold scan in *. rewrite Z.sub_0_r in *.
  assert (H0 : forall c, 0 <= c < 0 -> diag_run a c <= 0) by (intros; lia).
  assert (H1 : forall c v,
            (∅ : gmap Z Z) !! c = Some v ->
            v <= diag_run a (0 - 1) /\ v <= diag_run a c)
    by (intros c v; rewrite lookup_empty; discriminate).
  assert (H2 : default 0 ((∅ : gmap Z Z) !! (0 - 1)) = diag_run a (0 - 1))
    by reflexivity.
  destruct (scan_rows_diag (length a) 0 0 0 ∅ ltac:(lia)
              ltac:(unfold len; lia) ltac:(lia) H0 H1 H2)
    as (besti & bestsize & E).
  fold (len a) in E. rewrite E in *. exists besti, bestsize.
  split; [reflexivity|]. unfold best_within in Hw. lia.
Qed.

Lemma extend_left_diag fuel :
  forall besti bestsize,
    Z.of_nat fuel = besti ->
    extend_left a a fuel 0 0 besti besti bestsize = (0, 0, bestsize + besti).
Proof.
  induction fuel as [|fuel IH]; intros besti bestsize Hf; cbn [extend_left].
  - replace besti with 0 by lia. rewrite Z.add_0_r. reflexivity.
  - assert (E : (0 <? besti) = true) by (apply Z.ltb_lt; lia).
    rewrite E, bool_decide_eq_true_2 by reflexivity. cbn [andb].
    rewrite IH by lia. f_equal. lia.
Qed.

Lemma extend_right_diag fuel :
  forall bestsize,
    Z.of_nat fuel = len a - bestsize ->
    extend_right a a fuel (len a) (len a) 0 0 bestsize = (0, 0, len a).
Proof.
  induction fuel as [|fuel IH]; intros bestsize Hf; cbn [extend_right].
  - replace bestsize with (len a) by lia. reflexivity.
  - rewrite Z.add_0_l.
    assert (E : (bestsize <? len a) = true) by (apply Z.ltb_lt; lia).
    rewrite E, bool_decide_eq_true_2 by reflexivity. cbn [andb].
    apply IH. lia.
Qed.

(** The longest match of a sequence with itself is the whole sequence,
    also when popular elements were purged from the index. *)
Lemma find_longest_match_same :
  find_longest_match a a 0 (len a) 0 (len a) = (0, 0, len a).
Proof.
  unfold find_longest_match.
  destruct scan_diag as (besti & bestsize & E & Hi & Hk & Hle). rewrite E.
  rewrite extend_left_diag by lia. apply extend_right_diag. lia.
Qed.

Lemma matches_same : matches a a = len a.
Proof.
  unfold matches. cbn [matching]. rewrite find_longest_match_same.
  destruct (len a =? 0) eqn:E; [apply Z.eqb_eq in E; lia|].
  rewrite Z.ltb_irrefl. cbn [andb]. rewrite Z.add_0_l, Z.ltb_irrefl.
  cbn [andb]. lia.
Qed.

Lemma ratio_same : (ratio a a == 1)%Q.
Proof.
  unfold ratio. rewrite matches_same.
  destruct (len a + len a =? 0) eqn:E; [reflexivity|].
  apply Z.eqb_neq in E. rewrite inject_Z_plus.
  assert (H : ~ (inject_Z (len a) == 0)%Q).
  { intros H. apply (inject_Z_injective (len a) 0) in H. lia. }
  field. intros H'. apply H. lra.
Qed.

End MatcherIdentity.

Section CorrectAnswers.

Import TaskAttemptView.

Lemma evaluate_translation_same user_answer correct_answer :
  Str.strip (Str.lower user_answer) = Str.strip (Str.lower correct_answer) ->
  _evaluate_answer user_answer correct_answer "translation" = true.
Proof.
  intros Heq. unfold _evaluate_answer. rewrite Heq. unfold Str.eqb.
  rewrite (bool_decide_eq_false_2 ("translation" = "multiple_choice")%string)
    by discriminate.
  rewrite (bool_decide_eq_false_2 ("translation" = "fill_blank")%string)
    by discriminate.
  rewrite (bool_decide_eq_true_2 ("translation" = "translation")%string)
    by reflexivity.
  apply Qle_bool_iff. rewrite ratio_same. discriminate.
Qed.

(** X25. The task evaluator accepts the correct answer itself, and any
    answer that differs from it only in case and in the white space
    around it, for each of the three task types; for a translation this
    is the fact that [SequenceMatcher] gives a sequence the similarity 1
    with itself, also when the answer is long enough for popular
    characters to be left out of its index. *)
Theorem correct_answer_is_accepted :
  forall user_answer correct_answer task_type : string,
    Str.strip (Str.lower user_answer) = Str.strip (Str.lower correct_answer) ->
    task_type = "multiple_choice"%string \/ task_type = "fill_blank"%string
    \/ task_type = "translation"%string ->
    _evaluate_answer user_answer correct_answer task_type = true.
Proof.
  intros user_answer correct_answer task_type Heq Hkind.
  destruct Hkind as [-> | [-> | ->]].
  - unfold _evaluate_answer. rewrite Heq. unfold Str.eqb.
    rewrite (bool_decide_eq_true_2
               ("multiple_choice" = "multiple_choice")%string) by reflexivity.
    apply bool_decide_eq_true. reflexivity.
  - unfold _evaluate_answer. rewrite Heq. unfold Str.eqb.
    rewrite (bool_decide_eq_false_2 ("fill_blank" = "multiple_choice")%string)
      by discriminate.
    rewrite (bool_decide_eq_true_2 ("fill_blank" = "fill_blank")%string)
      by reflexivity.
    apply bool_decide_eq_true. reflexivity.
  - apply evaluate_translation_same. exact Heq.
Qed.

Lemma correct_answer_is_accepted_witness :
  _evaluate_answer "  Buenos Dias " "buenos dias" "translation" = true.
Proof.
  apply (correct_answer_is_accepted "  Buenos Dias " "buenos dias"
           "translation").
  - vm_compute. reflexivity.
  - right. right. reflexivity.
Defined.

End CorrectAnswers.

(** ** The two evaluators side by side *)

Section EvaluatorsCompared.

Import PlacementTestSubmitView TaskAttemptView.

Lemma is_empty_false (s : string) : Str.is_empty s = false <-> s <> ""%string.
Proof. destruct s; simpl; split; congruence. Qed.

(** X26. On a multiple-choice question the placement evaluator and the
    task evaluator give the same verdict for every answer that is not
    empty after normalization; an answer the placement evaluator accepts
    for a cloze item is accepted by the task evaluator for a fill-in-the-
    blank task, and one it accepts for a translation item is accepted by
    the task evaluator for a translation task. The converses fail: the
    task evaluator drops the punctuation of a fill-in-the-blank answer
    ("its" for "it's") and accepts a translation that is similar enough
    ("pariz" for "paris"). *)
Theorem evaluators_compared :
  (forall user_answer correct_answer : string,
     Str.lower (Str.strip user_answer) <> ""%string ->
     _validate_answer (Str.lower (Str.strip user_answer))
       (Str.lower (Str.strip correct_answer)) "multiple_choice"
     = _evaluate_answer user_answer correct_answer "multiple_choice") /\
  (forall user_answer correct_answer : string,
     _validate_answer (Str.lower (Str.strip user_answer))
       (Str.lower (Str.strip correct_answer)) "cloze" = true ->
     _evaluate_answer user_answer correct_answer "fill_blank" = true) /\
  (forall user_answer correct_answer : string,
     _validate_answer (Str.lower (Str.strip user_answer))
       (Str.lower (Str.strip correct_answer)) "translation" = true ->
     _evaluate_answer user_answer correct_answer "translation" = true) /\
  (_validate_answer (Str.lower (Str.strip "its"))
     (Str.lower (Str.strip "it's")) "cloze" = false /\
   _evaluate_answer "its" "it's" "fill_blank" = true /\
   _validate_answer (Str.lower (Str.strip "pariz"))
     (Str.lower (Str.strip "paris")) "translation" = false /\
   _evaluate_answer "pariz" "paris" "translation" = true).
Proof.
  split; [|split; [|split]].
  - intros u c Hu. unfold _validate_answer, _evaluate_answer.
    rewrite (proj2 (is_empty_false _) Hu). cbn -[Str.strip Str.lower].
    rewrite !strip_lower. reflexivity.
  - intros u c. unfold _validate_answer, _evaluate_answer.
    destruct (Str.is_empty _); [discriminate|]. cbn -[Str.strip Str.lower].
    rewrite !strip_lower. unfold Str.eqb. intros H.
    apply bool_decide_eq_true in H. rewrite H.
    apply bool_decide_eq_true. reflexivity.
  - intros u c. unfold _validate_answer.
    destruct (Str.is_empty _); [discriminate|]. cbn -[Str.strip Str.lower].
    unfold Str.eqb. intros H. apply bool_decide_eq_true in H.
    apply evaluate_translation_same. rewrite !strip_lower. exact H.
  - repeat split; vm_compute; reflexivity.
Qed.

Lemma evaluators_compared_witness :
  _validate_answer (Str.lower (Str.strip " Paris "))
    (Str.lower (Str.strip "paris")) "multiple_choice"
  = _evaluate_answer " Paris " "paris" "multiple_choice" /\
  _evaluate_answer "Went " "went" "fill_blank" = true.
Proof.
  split.
  - apply (proj1 evaluators_compared " Paris " "paris")%string.
    vm_compute. discriminate.
  - apply (proj1 (proj2 evaluators_compared) "Went " "went")%string.
    vm_compute. reflexivity.
Defined.

End EvaluatorsCompared.


(** ** A task attempted several times *)

Section SeveralAttempts.

Import TaskAttempts.

Lemma save_new_instance instance user_answer is_correct profiles :
  let saved :=
    TaskAttempt.task_instance
      (fst (TaskAttempt.save (TaskAttempt.new instance user_answer is_correct)
              profiles)) in
  TaskInstance.user saved = TaskInstance.user instance /\
  TaskInstance.template saved = TaskInstance.template instance /\
  TaskInstance.attempts_count saved = TaskInstance.attempts_count instance + 1
  /\ TaskInstance.status saved
     = (if is_correct then "completed" else "in_progress")%string /\
  TaskInstance.best_attempt_correct saved
  = is_correct || TaskInstance.best_attempt_correct instance.
Proof.
  cbv zeta. rewrite save_attempt. cbn [TaskAttempt.task_instance].
  unfold TaskAttempt.update_instance.
  destruct (compute_xp_fields (TaskAttempt.new instance user_answer is_correct))
    as (Hi & _ & Hc).
  rewrite Hc, Hi. cbn [TaskAttempt.new TaskAttempt.is_correct
                       TaskAttempt.task_instance].
  destruct is_correct; repeat split.
Qed.

Lemma save_new_xp instance user_answer is_correct profiles :
  TaskAttempt.xp_gained
    (fst (TaskAttempt.save (TaskAttempt.new instance user_answer is_correct)
            profiles))
  = if is_correct
    then 10 * TaskTemplate.difficulty_level (TaskInstance.template instance)
    else 0.
Proof.
  rewrite save_attempt. cbn [TaskAttempt.xp_gained].
  rewrite compute_xp_value.
  cbn [TaskAttempt.new TaskAttempt.is_correct TaskAttempt.xp_gained
       TaskAttempt.task_instance].
  destruct is_correct; reflexivity.
Qed.

Lemma attempt_all_snoc attempts user_answer is_correct :
  forall instance profiles,
    attempt_all (attempts ++ [(user_answer, is_correct)]) instance profiles
    = let '(instance', profiles') := attempt_all attempts instance profiles in
      let '(attempt, profiles'') :=
        TaskAttempt.save (TaskAttempt.new instance' user_answer is_correct)
          profiles' in
      (TaskAttempt.task_instance attempt, profiles'').
Proof.
  induction attempts as [|[u c] attempts IH]; intros instance profiles.
  - cbn [app attempt_all].
    destruct (TaskAttempt.save _ _) as [attempt profiles']. reflexivity.
  - cbn [app attempt_all].
    destruct (TaskAttempt.save (TaskAttempt.new instance u c) profiles)
      as [attempt profiles'].
    apply IH.
Qed.

Lemma attempt_all_effects attempts :
  forall instance profiles,
    let final := fst (attempt_all attempts instance profiles) in
    TaskInstance.user final = TaskInstance.user instance /\
    TaskInstance.template final = TaskInstance.template instance /\
    TaskInstance.attempts_count final
    = TaskInstance.attempts_count instance + Z.of_nat (length attempts) /\
    TaskInstance.best_attempt_correct final
    = existsb snd attempts || TaskInstance.best_attempt_correct instance /\
    TaskAttempt.total_xp_of (TaskInstance.user instance)
      (snd (attempt_all attempts instance profiles))
    = TaskAttempt.total_xp_of (TaskInstance.user instance) profiles
      + correct_among attempts
        * (10 * TaskTemplate.difficulty_level
                  (TaskInstance.template instance)).
Proof.
  unfold correct_among.
  induction attempts as [|[u c] attempts IH]; intros instance profiles.
  - cbn. repeat split; lia.
  - cbn [attempt_all length existsb List.filter snd].
    pose proof (save_new_instance instance u c profiles) as Hs.
    pose proof (save_profiles (TaskAttempt.new instance u c) profiles) as Hp.
    pose proof (save_new_xp instance u c profiles) as Hx.
    destruct (TaskAttempt.save (TaskAttempt.new instance u c) profiles)
      as [attempt profiles'].
    cbn [fst snd] in Hs, Hp, Hx. cbv zeta in Hs, Hp.
    cbn [TaskAttempt.new TaskAttempt.task_instance TaskAttempt.is_correct]
      in Hp.
    destruct Hs as (Hu & Ht & Hn & _ & Hb).
    specialize (IH (TaskAttempt.task_instance attempt) profiles').
    cbv zeta in IH. destruct IH as (IHu & IHt & IHn & IHb & IHx).
    rewrite IHu, IHt, IHn, IHb, Hu, Ht, Hn, Hb.
    split; [reflexivity|]. split; [reflexivity|]. split; [lia|].
    split; [destruct c, (existsb snd attempts); reflexivity|].
    rewrite Hu, Ht in IHx. rewrite IHx.
    destruct Hp as [Hp1 Hp0]. destruct c.
    + rewrite (Hp1 eq_refl), Hx. cbn [length]. lia.
    + rewrite (Hp0 eq_refl). lia.
Qed.

(** X27. After several attempts at a task, the status of the task
    instance is that of the last attempt alone: a task that was completed
    is back in progress after a wrong answer, while [best_attempt_correct]
    records whether any attempt was correct. The attempts are all counted,
    and each correct one adds 10 times the difficulty to the total XP of
    the user, also when the task was already completed. *)
Theorem status_follows_last_attempt :
  forall (attempts : list (string * bool)) (user_answer : string)
         (is_correct : bool) (instance : TaskInstance.t)
         (profiles : gmap Z GamificationProfile.t),
    let all := attempts ++ [(user_answer, is_correct)] in
    let '(final, profiles') := attempt_all all instance profiles in
    TaskInstance.status final
    = (if is_correct then "completed" else "in_progress")%string /\
    TaskInstance.best_attempt_correct final
    = existsb snd all || TaskInstance.best_attempt_correct instance /\
    TaskInstance.attempts_count final
    = TaskInstance.attempts_count instance + Z.of_nat (length all) /\
    TaskAttempt.total_xp_of (TaskInstance.user instance) profiles'
    = TaskAttempt.total_xp_of (TaskInstance.user instance) profiles
      + correct_among all
        * (10 * TaskTemplate.difficulty_level
                  (TaskInstance.template instance)).
Proof.
  intros attempts user_answer is_correct instance profiles. cbv zeta.
  pose proof (attempt_all_effects (attempts ++ [(user_answer, is_correct)])
                instance profiles) as H.
  cbv zeta in H. destruct H as (_ & _ & Hn & Hb & Hx).
  pose proof (attempt_all_snoc attempts user_answer is_correct instance
                profiles) as Hsnoc.
  destruct (attempt_all (attempts ++ [(user_answer, is_correct)]) instance
              profiles) as [final profiles'].
  cbn [fst snd] in Hn, Hb, Hx.
  split; [|split; [exact Hb|split; [exact Hn|exact Hx]]].
  destruct (attempt_all attempts instance profiles) as [instance1 profiles1].
  pose proof (save_new_instance instance1 user_answer is_correct profiles1)
    as Hs.
  destruct (TaskAttempt.save _ _) as [attempt profiles2].
  cbn [fst] in Hs. cbv zeta in Hs. destruct Hs as (_ & _ & _ & Hst & _).
  inversion Hsnoc. subst final. exact Hst.
Qed.

End SeveralAttempts.
